(** * generate.py: one prompt, many models, one comparison page

    A shallow embedding of [generate.py] and the properties its
    specification states about it.  The script asks every model of a fixed
    table for an animated SVG, keeps the answers that contain an SVG
    fragment in a cache file, and renders all results as one HTML page.

    Conventions of the embedding
    - a Python [str] is a list of Unicode code points ([list N]);
    - a Python [float] is a binary64 float ([PrimFloat.float]);
    - a [dict] whose order is never observed is a [gmap]; the model table,
      whose order is observed, is a list;
    - a Python value that came out of [json.load] is a [value];
    - code that may raise returns an [outcome].

    What the environment is taken to grant: the console takes every line
    that is printed, the two files can be opened for writing, the encoding
    of text files has Basic Latin, and memory and the stack suffice. *)

From Stdlib Require Import ZArith NArith List String Ascii Floats Lia.
From Stdlib Require Import DecimalString.
From stdpp Require Import base option list gmap sorting.

Set Warnings "-register-all".
Local Open Scope N_scope.

(** ** Text *)

Abbreviation text := (list N).

(** The code points of an ASCII literal. *)
Definition cps (s : string) : text :=
  map N_of_ascii (list_ascii_of_string s).

(** [str.isspace] on one code point, which is what [\s] tests in a [str]
    pattern. *)
Definition is_space (c : N) : bool :=
  ((9 <=? c) && (c <=? 13)) || ((28 <=? c) && (c <=? 32))
  || (c =? 133) || (c =? 160) || (c =? 5760)
  || ((8192 <=? c) && (c <=? 8202))
  || (c =? 8232) || (c =? 8233) || (c =? 8239) || (c =? 8287) || (c =? 12288).

(** The interpreter's lower-case table, as far as it reaches Basic Latin:
    the capitals A-Z, and the two code points outside Basic Latin that lower
    into it (U+0130 to [i], U+212A to [k]).  Every pattern letter of this
    program is Basic Latin, so no other row of the table is observable. *)
Definition lower (c : N) : N :=
  if (65 <=? c) && (c <=? 90) then c + 32
  else if c =? 304 then 105
  else if c =? 8490 then 107
  else c.

(** The rows of the [re] module's case-fix table that concern Basic Latin:
    [i] and dotless i, [s] and long s. *)
Definition casefix (lo : N) : list N :=
  if lo =? 105 then [305]
  else if lo =? 305 then [105]
  else if lo =? 115 then [383]
  else if lo =? 383 then [115]
  else [].

(** A pattern literal [p] against a subject code point [c] under
    [re.IGNORECASE]: the lowered subject is looked up among the lowered
    literal and its case fixes. *)
Definition chr_ignore (p c : N) : bool :=
  existsb (N.eqb (lower c)) (lower p :: casefix (lower p)).

(** ** The fragment of [re] the script uses *)

Inductive citem := CSpace | CNotSpace.

Definition in_citem (c : N) (i : citem) : bool :=
  match i with
  | CSpace => is_space c
  | CNotSpace => negb (is_space c)
  end.

(** A bracketed class is the union of its items. *)
Definition in_class (k : list citem) (c : N) : bool := existsb (in_citem c) k.

Inductive regex :=
| Eps
| Chr (c : N)
| ChrI (c : N)
| Cat (r1 r2 : regex)
| Alt (r1 r2 : regex)
| Opt (r : regex)
| Star (k : list citem)
| StarLazy (k : list citem).

(** Greedy [k*]: the longest run first, shorter ones when the rest of the
    pattern fails. *)
Fixpoint star_greedy (p : N → bool) (s : text) (k : text → option text)
  : option text :=
  match s with
  | c :: s' =>
      if p c then
        match star_greedy p s' k with
        | Some x => Some x
        | None => k s
        end
      else k s
  | [] => k s
  end.

(** Lazy [k*?]: the rest of the pattern first, one more code point when
    it fails. *)
Fixpoint star_lazy (p : N → bool) (s : text) (k : text → option text)
  : option text :=
  match k s with
  | Some x => Some x
  | None =>
      match s with
      | c :: s' => if p c then star_lazy p s' k else None
      | [] => None
      end
  end.

(** The backtracking matcher: [exec r s k] matches [r] at the head of [s]
    and hands what is left to [k]; alternatives are tried in the order the
    [re] module tries them.  The answer is the text after the match. *)
Fixpoint exec (r : regex) (s : text) (k : text → option text) : option text :=
  match r with
  | Eps => k s
  | Chr p =>
      match s with
      | c :: s' => if c =? p then k s' else None
      | [] => None
      end
  | ChrI p =>
      match s with
      | c :: s' => if chr_ignore p c then k s' else None
      | [] => None
      end
  | Cat r1 r2 => exec r1 s (λ s', exec r2 s' k)
  | Alt r1 r2 =>
      match exec r1 s k with
      | Some x => Some x
      | None => exec r2 s k
      end
  | Opt r1 =>
      match exec r1 s k with
      | Some x => Some x
      | None => k s
      end
  | Star c => star_greedy (in_class c) s k
  | StarLazy c => star_lazy (in_class c) s k
  end.

(** [pattern.match] at the head of [s]: what is left after the match. *)
Definition re_match (r : regex) (s : text) : option text := exec r s Some.

(** A run of literals. *)
Fixpoint lits (cs : text) : regex :=
  match cs with
  | [] => Eps
  | c :: cs' => Cat (Chr c) (lits cs')
  end.

(** Compiling under [re.IGNORECASE] turns every literal into its
    case-insensitive form; classes are left as they are. *)
Fixpoint ignorecase (r : regex) : regex :=
  match r with
  | Chr c => ChrI c
  | Cat r1 r2 => Cat (ignorecase r1) (ignorecase r2)
  | Alt r1 r2 => Alt (ignorecase r1) (ignorecase r2)
  | Opt r1 => Opt (ignorecase r1)
  | _ => r
  end.

(** [re.search]: the leftmost position with a match, as the offset of the
    match and its text. *)
Fixpoint search_from (r : regex) (s : text) (i : nat) : option (nat * text) :=
  match re_match r s with
  | Some rest => Some (i, take (length s - length rest) s)
  | None =>
      match s with
      | [] => None
      | _ :: s' => search_from r s' (S i)
      end
  end.

Definition re_search (r : regex) (s : text) : option (nat * text) :=
  search_from r s 0.

(** [re.sub(r, repl, s)]: the matches are found left to right and do not
    overlap.  [skip] counts the code points still inside the match found
    last.  (A match of the empty text leaves the subject as it is; the one
    pattern substituted here needs three back-quotes to match.) *)
Fixpoint sub_scan (r : regex) (repl s : text) (skip : nat) : text :=
  match s with
  | [] => []
  | c :: s' =>
      match skip with
      | S n => sub_scan r repl s' n
      | O =>
          match re_match r s with
          | Some rest =>
              match (length s - length rest)%nat with
              | O => c :: sub_scan r repl s' 0
              | S n => repl ++ sub_scan r repl s' n
              end
          | None => c :: sub_scan r repl s' 0
          end
      end
  end.

Definition re_sub (r : regex) (repl s : text) : text := sub_scan r repl s 0.

(** [s] starts with [p]. *)
Fixpoint starts_with (p s : text) : bool :=
  match p, s with
  | [], _ => true
  | a :: p', c :: s' => (c =? a) && starts_with p' s'
  | _ :: _, [] => false
  end.

(** [str.replace(old, new)] for a non-empty [old]: occurrences are taken
    left to right and do not overlap. *)
Fixpoint replace_scan (old new s : text) (skip : nat) : text :=
  match s with
  | [] => []
  | c :: s' =>
      match skip with
      | S n => replace_scan old new s' n
      | O =>
          if starts_with old s
          then new ++ replace_scan old new s' (length old - 1)%nat
          else c :: replace_scan old new s' 0
      end
  end.

(** With an empty [old], [new] goes before every code point and at the
    end. *)
Definition str_replace (old new s : text) : text :=
  match old with
  | [] => new ++ flat_map (λ c, c :: new) s
  | _ :: _ => replace_scan old new s 0
  end.

(** ** SVG extraction (call_model, lines 140-143) *)

Definition fence : text := cps "```".

(** [r"```(?:svg|xml|html)?\s*\n?"] *)
Definition fence_re : regex :=
  Cat (lits fence)
    (Cat (Opt (Alt (lits (cps "svg")) (Alt (lits (cps "xml")) (lits (cps "html")))))
       (Cat (Star [CSpace]) (Opt (Chr 10)))).

(** [r"(<svg[\s\S]*?</svg>)"] compiled with [re.IGNORECASE]; its one group
    is the whole match. *)
Definition svg_re : regex :=
  ignorecase
    (Cat (lits (cps "<svg"))
       (Cat (StarLazy [CSpace; CNotSpace]) (lits (cps "</svg>")))).

(** Lines 141-142: the two passes that remove markdown fences. *)
Definition strip_fences (content : text) : text :=
  str_replace fence [] (re_sub fence_re [] content).

(** Lines 141-145: the text of the first match, if there is one. *)
Definition extract_svg (content : text) : option text :=
  snd <$> re_search svg_re (strip_fences content).

(** ** Python values and exceptions *)

(** What [json.load] builds, which is also all that [main] keeps in its
    dictionaries.  A [dict] inside a value keeps its items in order; its keys
    are distinct. *)
Inductive value :=
| VNone
| VBool (b : bool)
| VInt (n : Z)
| VFloat (x : float)
| VStr (s : text)
| VList (l : list value)
| VDict (d : list (text * value)).

(** [bool(v)] *)
Definition truthy (v : value) : bool :=
  match v with
  | VNone => false
  | VBool b => b
  | VInt n => negb (n =? 0)%Z
  | VFloat x => negb (PrimFloat.eqb x 0%float)
  | VStr s => negb (bool_decide (s = []))
  | VList l => match l with [] => false | _ :: _ => true end
  | VDict d => match d with [] => false | _ :: _ => true end
  end.

(** The item of a [dict] under a key. *)
Fixpoint dict_get (key : text) (d : list (text * value)) : option value :=
  match d with
  | [] => None
  | (k, v) :: d' => if bool_decide (k = key) then Some v else dict_get key d'
  end.

(** The exceptions of this program.  [Raised msg] is an exception of a
    library or of the system whose [str()] is [msg] (a timeout, a refused
    connection, a body that is not JSON, ...); the others are raised by
    the interpreter itself. *)
Inductive exn :=
| KeyError (key : value)
| IndexError
| TypeError
| AttributeError
| ValueError
| OverflowError
| UnicodeDecodeError
| UnicodeEncodeError
| Raised (msg : text).

Inductive outcome (A : Type) :=
| Ok (a : A)
| Raise (e : exn).
Arguments Ok {A} a.
Arguments Raise {A} e.

#[global] Instance outcome_ret : MRet outcome := @Ok.

#[global] Instance outcome_bind : MBind outcome := λ A B f m,
  match m with
  | Ok a => f a
  | Raise e => Raise e
  end.

(** [v[k]] for a key that is a text or an integer. *)
Definition getitem (v k : value) : outcome value :=
  match v, k with
  | VDict d, VStr key =>
      match dict_get key d with
      | Some x => Ok x
      | None => Raise (KeyError k)
      end
  | VDict _, _ => Raise (KeyError k)
  | VList l, VInt i =>
      let n := Z.of_nat (length l) in
      let j := (if i <? 0 then i + n else i)%Z in
      if ((0 <=? j) && (j <? n))%Z
      then match l !! Z.to_nat j with Some x => Ok x | None => Raise IndexError end
      else Raise IndexError
  | VStr s, VInt i =>
      let n := Z.of_nat (length s) in
      let j := (if i <? 0 then i + n else i)%Z in
      if ((0 <=? j) && (j <? n))%Z
      then match s !! Z.to_nat j with Some c => Ok (VStr [c]) | None => Raise IndexError end
      else Raise IndexError
  | _, _ => Raise TypeError
  end.

(** [bytes.decode()]: strict UTF-8. *)
Definition continuation (b : N) : bool := (128 <=? b) && (b <? 192).

Fixpoint utf8_decode (bs : list N) : outcome text :=
  match bs with
  | [] => Ok []
  | b0 :: r0 =>
      if b0 <? 128 then
        t ← utf8_decode r0; Ok (b0 :: t)
      else if (192 <=? b0) && (b0 <? 224) then
        match r0 with
        | b1 :: r1 =>
            let c := (b0 - 192) * 64 + (b1 - 128) in
            if continuation b1 && (128 <=? c)
            then t ← utf8_decode r1; Ok (c :: t)
            else Raise UnicodeDecodeError
        | _ => Raise UnicodeDecodeError
        end
      else if (224 <=? b0) && (b0 <? 240) then
        match r0 with
        | b1 :: b2 :: r2 =>
            let c := (b0 - 224) * 4096 + (b1 - 128) * 64 + (b2 - 128) in
            if continuation b1 && continuation b2 && (2048 <=? c)
               && negb ((55296 <=? c) && (c <=? 57343))
            then t ← utf8_decode r2; Ok (c :: t)
            else Raise UnicodeDecodeError
        | _ => Raise UnicodeDecodeError
        end
      else if (240 <=? b0) && (b0 <? 248) then
        match r0 with
        | b1 :: b2 :: b3 :: r3 =>
            let c := (b0 - 240) * 262144 + (b1 - 128) * 4096
                     + (b2 - 128) * 64 + (b3 - 128) in
            if continuation b1 && continuation b2 && continuation b3
               && (65536 <=? c) && (c <=? 1114111)
            then t ← utf8_decode r3; Ok (c :: t)
            else Raise UnicodeDecodeError
        | _ => Raise UnicodeDecodeError
        end
      else Raise UnicodeDecodeError
  end.

Definition decode (body : list Byte.byte) : outcome text :=
  utf8_decode (map Byte.to_N body).

(** An [int] in an f-string. *)
Definition str_int (n : Z) : text := cps (NilZero.string_of_int (Z.to_int n)).

(** ** The dispatcher (call_model, lines 119-159) *)

(** What the one request of a call runs into at lines 136-137. *)
Inductive exchange :=
| Answered (data : value)
    (* a 2xx answer whose body [json.loads] accepted *)
| HTTPError (code : Z) (body : outcome (list Byte.byte))
    (* [urlopen] raised [HTTPError], which carries the response; [body] is
       what line 153 gets to decode: the bytes of the body, or the exception
       raised on the way to them (by [e.read()] on a body cut short, a
       timeout or a reset; also [AttributeError] for an [HTTPError] built
       without a response, whose place a text stream takes that reads as a
       [str]) *)
| Failed (e : exn).
    (* [urlopen], [read] or [json.loads] raised another [Exception] *)

(** One call as the world lets it happen: the clock at line 122, the
    exchange, the clock at the first [time.time()] after it (line 138, 152
    or 157), and the clock at line 157 when lines 139-150 raise. *)
Record attempt := {
  t_start : float;
  happened : exchange;
  t_end : float;
  t_late : float
}.

(** The tuple [(name, svg_output, elapsed, error)]. *)
Record call_result := {
  cr_name : text;
  cr_svg : option text;
  cr_elapsed : float;
  cr_error : option text
}.

Definition no_svg_message : text := cps "No <svg> tag found in response".

(** [str(e)]: the message of a library's exception, the interpreter's
    wording for its own. *)
Definition str_exn (wording : exn → text) (e : exn) : text :=
  match e with
  | Raised msg => msg
  | _ => wording e
  end.

(** Line 139: [data["choices"][0]["message"]["content"]]. *)
Definition content_of (data : value) : outcome value :=
  choices ← getitem data (VStr (cps "choices"));
  choice ← getitem choices (VInt 0);
  message ← getitem choice (VStr (cps "message"));
  getitem message (VStr (cps "content")).

(** Lines 139-150.  [re.sub] takes a [str] and nothing else. *)
Definition read_answer (name : text) (elapsed : float) (data : value)
  : outcome call_result :=
  content ← content_of data;
  match content with
  | VStr content =>
      match extract_svg content with
      | Some svg =>
          Ok {| cr_name := name; cr_svg := Some svg;
                cr_elapsed := elapsed; cr_error := None |}
      | None =>
          Ok {| cr_name := name; cr_svg := None;
                cr_elapsed := elapsed; cr_error := Some no_svg_message |}
      end
  | _ => Raise TypeError
  end.

(** Line 153: [e.read().decode()].  The test [if e.fp] holds, the response
    of an [HTTPError] that [urlopen] raises being an object that counts as
    true. *)
Definition error_body (body : outcome (list Byte.byte)) : outcome text :=
  bytes ← body; decode bytes.

Definition http_message (code : Z) (body : text) : text :=
  cps "HTTP " ++ str_int code ++ cps ": " ++ take 200 body.

(** [call_model].  The [try] catches what lines 136-150 raise; what a
    handler raises is raised by the call. *)
Definition call_model (wording : exn → text) (name model_id : text)
    (a : attempt) : outcome call_result :=
  match happened a with
  | Answered data =>
      match read_answer name (t_end a - t_start a)%float data with
      | Ok r => Ok r
      | Raise e =>
          Ok {| cr_name := name; cr_svg := None;
                cr_elapsed := (t_late a - t_start a)%float;
                cr_error := Some (str_exn wording e) |}
      end
  | HTTPError code read =>
      let elapsed := (t_end a - t_start a)%float in
      body ← error_body read;
      Ok {| cr_name := name; cr_svg := None; cr_elapsed := elapsed;
            cr_error := Some (http_message code body) |}
  | Failed e =>
      Ok {| cr_name := name; cr_svg := None;
            cr_elapsed := (t_end a - t_start a)%float;
            cr_error := Some (str_exn wording e) |}
  end.

(** ** The tables (lines 28-104) *)

(** [(display_name, model_id, release_date_str)] *)
Definition MODELS : list (text * text * text) :=
  [ (cps "Claude Opus 4.6", cps "anthropic/claude-opus-4.6", cps "Feb 2026");
    (cps "Claude Sonnet 4.6", cps "anthropic/claude-sonnet-4.6", cps "Feb 2026");
    (cps "Claude Opus 4.5", cps "anthropic/claude-opus-4.5", cps "May 2025");
    (cps "Claude Haiku 4.5", cps "anthropic/claude-haiku-4.5", cps "Jun 2025");
    (cps "Claude Sonnet 4", cps "anthropic/claude-sonnet-4", cps "May 2025");
    (cps "Claude Opus 4.1", cps "anthropic/claude-opus-4.1", cps "Aug 2025");
    (cps "GPT-5.2", cps "openai/gpt-5.2", cps "Dec 2025");
    (cps "GPT-5.1", cps "openai/gpt-5.1", cps "Nov 2025");
    (cps "GPT-5", cps "openai/gpt-5", cps "Jun 2025");
    (cps "GPT-5 Mini", cps "openai/gpt-5-mini", cps "Jun 2025");
    (cps "GPT-4.1", cps "openai/gpt-4.1", cps "Apr 2025");
    (cps "GPT-4.1 Mini", cps "openai/gpt-4.1-mini", cps "Apr 2025");
    (cps "Gemini 3.1 Pro", cps "google/gemini-3.1-pro-preview", cps "Feb 2026");
    (cps "Gemini 3 Pro", cps "google/gemini-3-pro-preview", cps "Nov 2025");
    (cps "Gemini 3 Flash", cps "google/gemini-3-flash-preview", cps "Dec 2025");
    (cps "Gemini 2.5 Pro", cps "google/gemini-2.5-pro", cps "Jun 2025");
    (cps "Gemini 2.5 Flash", cps "google/gemini-2.5-flash", cps "Jun 2025");
    (cps "Grok 4", cps "x-ai/grok-4", cps "Jul 2025");
    (cps "Grok 4.1 Fast", cps "x-ai/grok-4.1-fast", cps "Nov 2025");
    (cps "Grok 4 Fast", cps "x-ai/grok-4-fast", cps "Sep 2025");
    (cps "Grok 3", cps "x-ai/grok-3", cps "Jun 2025");
    (cps "Grok 3 Mini", cps "x-ai/grok-3-mini", cps "Jun 2025");
    (cps "DeepSeek V3.2", cps "deepseek/deepseek-v3.2", cps "Oct 2025");
    (cps "DeepSeek V3.1", cps "deepseek/deepseek-chat-v3.1", cps "Sep 2025");
    (cps "DeepSeek R1", cps "deepseek/deepseek-r1", cps "Jan 2025");
    (cps "Kimi K2.5", cps "moonshotai/kimi-k2.5", cps "Jan 2026");
    (cps "Kimi K2", cps "moonshotai/kimi-k2", cps "Jul 2025");
    (cps "MiniMax M2.5", cps "minimax/minimax-m2.5", cps "Feb 2026");
    (cps "GLM-5", cps "z-ai/glm-5", cps "Feb 2026");
    (cps "Qwen3 Max Thinking", cps "qwen/qwen3-max-thinking", cps "Feb 2026");
    (cps "Qwen 3.5 397B", cps "qwen/qwen3.5-397b-a17b", cps "Feb 2026");
    (cps "Qwen3 235B (Full)", cps "qwen/qwen3-235b-a22b", cps "Apr 2025");
    (cps "Qwen3 32B", cps "qwen/qwen3-32b", cps "Apr 2025");
    (cps "Qwen3 14B", cps "qwen/qwen3-14b", cps "Apr 2025");
    (cps "Qwen3 8B", cps "qwen/qwen3-8b", cps "Apr 2025");
    (cps "Qwen 2.5 7B", cps "qwen/qwen-2.5-7b-instruct", cps "Oct 2024") ].

Definition CATEGORIES : list (text * list text) :=
  [ (cps "Anthropic (current + historical)",
     [ cps "Claude Opus 4.6";
       cps "Claude Sonnet 4.6";
       cps "Claude Opus 4.5";
       cps "Claude Haiku 4.5";
       cps "Claude Opus 4.1";
       cps "Claude Sonnet 4" ]);
    (cps "OpenAI (current + historical)",
     [ cps "GPT-5.2";
       cps "GPT-5.1";
       cps "GPT-5";
       cps "GPT-5 Mini";
       cps "GPT-4.1";
       cps "GPT-4.1 Mini" ]);
    (cps "Google",
     [ cps "Gemini 3.1 Pro";
       cps "Gemini 3 Pro";
       cps "Gemini 3 Flash";
       cps "Gemini 2.5 Pro";
       cps "Gemini 2.5 Flash" ]);
    (cps "xAI / Grok (current + historical)",
     [ cps "Grok 4.1 Fast";
       cps "Grok 4";
       cps "Grok 4 Fast";
       cps "Grok 3";
       cps "Grok 3 Mini" ]);
    (cps "Chinese Models (current + historical)",
     [ cps "GLM-5";
       cps "MiniMax M2.5";
       cps "Kimi K2.5";
       cps "Kimi K2";
       cps "DeepSeek V3.2";
       cps "DeepSeek V3.1";
       cps "DeepSeek R1" ]);
    (cps "Qwen -- Full to Small",
     [ cps "Qwen3 Max Thinking";
       cps "Qwen 3.5 397B";
       cps "Qwen3 235B (Full)";
       cps "Qwen3 32B";
       cps "Qwen3 14B";
       cps "Qwen3 8B";
       cps "Qwen 2.5 7B" ]) ].

(** ** The report builder (build_html, lines 162-302) *)

(** An entry of [results]: [(svg, elapsed, error)]. *)
Abbreviation result := (value * value * option text)%type.

Definition res_svg (r : result) : value := r.1.1.
Definition res_elapsed (r : result) : value := r.1.2.
Definition res_error (r : result) : option text := r.2.

(** The page is kept as the tree its f-strings print: the two counts of the
    subtitle and, per category, the cards.  The stylesheet, the time stamp
    and the digits of the numbers are left out. *)
Inductive panel :=
| ErrorPanel (error : text)      (* [<div class="error">] *)
| SvgPanel (svg : value).        (* [<div class="svg-container">] *)

Record card := {
  card_name : text;
  card_date : text;
  card_time : value;
  card_panel : panel
}.

Record section := {
  sec_title : text;
  sec_cards : list card
}.

Record document := {
  doc_total : nat;
  doc_success : nat;
  doc_sections : list section
}.

(** [float(n)] succeeds: the integer rounds to a finite binary64 float. *)
Definition float_range (n : Z) : bool :=
  (Z.abs n <? 2 ^ 1024 - 2 ^ 970)%Z.

(** [f"{elapsed:.1f}"]: numbers are printed, an [int] after its conversion
    to [float]; anything else raises.  The number itself stands for its
    print. *)
Definition format_1f (elapsed : value) : outcome value :=
  match elapsed with
  | VInt n => if float_range n then Ok elapsed else Raise OverflowError
  | VFloat _ | VBool _ => Ok elapsed
  | VStr _ => Raise ValueError
  | _ => Raise TypeError
  end.

(** [if error:] *)
Definition error_shown (error : option text) : option text :=
  match error with
  | Some (c :: e) => Some (c :: e)
  | _ => None
  end.

(** Lines 171-187: the card of one entry. *)
Definition card_of (model_dates : gmap text text) (name : text) (r : result)
  : outcome card :=
  let date := default [] (model_dates !! name) in
  let content :=
    match error_shown (res_error r) with
    | Some e => ErrorPanel e
    | None => SvgPanel (res_svg r)
    end in
  time ← format_1f (res_elapsed r);
  Ok {| card_name := name; card_date := date;
        card_time := time; card_panel := content |}.

(** Lines 167-187: the cards of one category; a name without an entry is
    passed over. *)
Fixpoint cards_of (results : gmap text result) (model_dates : gmap text text)
    (model_names : list text) : outcome (list card) :=
  match model_names with
  | [] => Ok []
  | name :: rest =>
      match results !! name with
      | None => cards_of results model_dates rest
      | Some r =>
          c ← card_of model_dates name r;
          cs ← cards_of results model_dates rest;
          Ok (c :: cs)
      end
  end.

(** Lines 165-193. *)
Fixpoint sections_of (categories : list (text * list text))
    (results : gmap text result) (model_dates : gmap text text)
  : outcome (list section) :=
  match categories with
  | [] => Ok []
  | (cat_name, model_names) :: rest =>
      cs ← cards_of results model_dates model_names;
      ss ← sections_of rest results model_dates;
      Ok ({| sec_title := cat_name; sec_cards := cs |} :: ss)
  end.

(** [v[2] is None] *)
Definition error_is_none (r : result) : bool :=
  match res_error r with
  | None => true
  | Some _ => false
  end.

(** [results.values()] *)
Definition values (results : gmap text result) : list result :=
  (map_to_list results).*2.

(** Lines 196 and 341. *)
Definition success_count (results : gmap text result) : nat :=
  length (List.filter error_is_none (values results)).

(** The page over a table of categories. *)
Definition build_page (categories : list (text * list text))
    (results : gmap text result) (model_dates : gmap text text)
  : outcome document :=
  sections ← sections_of categories results model_dates;
  Ok {| doc_total := size results;
        doc_success := success_count results;
        doc_sections := sections |}.

Definition build_html (results : gmap text result)
    (model_dates : gmap text text) : outcome document :=
  build_page CATEGORIES results model_dates.

(** ** The run (module level and main, lines 16-18 and 305-347) *)

Inductive status := StatusOK | StatusFail (error : text).

(** What a run does that can be seen from outside, in the order it does
    it.  The lines the worker threads print are left out. *)
Inductive event :=
| UsedCache (name : text)               (* line 316 *)
| Submitted (name model_id : text)      (* line 324 *)
| Collected (r : call_result)           (* line 326 *)
| CacheSaved (cache : gmap text value)  (* line 330 *)
| ReportWritten (d : document)          (* line 338 *)
| Tally (success total : nat)           (* line 342 *)
| StatusLine (name : text) (elapsed : value) (s : status).  (* line 347 *)

(** A step of the script: what it returns or raises, and what it did on
    the way. *)
Definition prog (A : Type) : Type := (outcome A * list event)%type.

#[global] Instance prog_ret : MRet prog := λ A a, (Ok a, []).

#[global] Instance prog_bind : MBind prog := λ A B f m,
  match m with
  | (Ok a, evs) => match f a with (o, evs') => (o, evs ++ evs') end
  | (Raise e, evs) => (Raise e, evs)
  end.

Definition emit (e : event) : prog unit := (Ok (), [e]).

Definition lift {A} (o : outcome A) : prog A := (o, []).

(** A [for] loop over [l] that updates [s]. *)
Fixpoint for_each {A S} (body : S → A → prog S) (l : list A) (s : S)
  : prog S :=
  match l with
  | [] => mret s
  | x :: l' => s' ← body s x; for_each body l' s'
  end.

(** The world a run meets. *)
Record world := {
  environ_key : option text;   (* [os.environ.get("OPENROUTER_API_KEY")] *)
  secrets_get : outcome text;  (* [subprocess.check_output(["secrets", ...])] *)
  wording : exn → text;        (* the interpreter's wording of its exceptions *)
  shown : value → text;        (* its [str()] of a number, a list or a [dict] *)
  file_has : N → bool;         (* beyond Basic Latin, the code points that the
                                  encoding of text files has *)
  net : text → attempt;        (* what calling the model of that name meets *)
  finish : text → nat          (* when its call completes *)
}.

(** [cache.json]: missing, not JSON, or a JSON object (the script writes
    nothing else; a file that holds another JSON document is outside the
    model).  What [json.dump] writes, [json.load] reads back. *)
Inductive store :=
| NoStore
| Unreadable
| Stored (cache : gmap text value).

(** [str.strip()] *)
Fixpoint lstrip (s : text) : text :=
  match s with
  | c :: s' => if is_space c then lstrip s' else s
  | [] => []
  end.

Definition strip (s : text) : text := reverse (lstrip (reverse (lstrip s))).

(** Lines 16-18. *)
Definition API_KEY (w : world) : outcome text :=
  match environ_key w with
  | Some (c :: k) => Ok (c :: k)
  | _ => out ← secrets_get w; Ok (strip out)
  end.

(** Lines 107-111. *)
Definition load_cache (st : store) : outcome (gmap text value) :=
  match st with
  | NoStore => Ok ∅
  | Unreadable => Raise ValueError
  | Stored cache => Ok cache
  end.

(** Lines 306-307.  The names of [MODELS] are distinct, so the dictionary
    of model ids is the table itself. *)
Definition model_map : list (text * text) := (λ m, (m.1.1, m.1.2)) <$> MODELS.

Definition model_dates : gmap text text :=
  list_to_map ((λ m, (m.1.1, m.2)) <$> MODELS).

(** [entry.get(key)] *)
Definition get_method (entry : value) (key : text) : outcome value :=
  match entry with
  | VDict d => Ok (default VNone (dict_get key d))
  | _ => Raise AttributeError
  end.

(** Line 315: [name in cache and cache[name].get("svg")], as a condition. *)
Definition cached (cache : gmap text value) (name : text) : outcome bool :=
  match cache !! name with
  | None => Ok false
  | Some entry => svg ← get_method entry (cps "svg"); Ok (truthy svg)
  end.

(** Line 317. *)
Definition cached_result (cache : gmap text value) (name : text)
  : outcome result :=
  match cache !! name with
  | None => Raise (KeyError (VStr name))
  | Some entry =>
      svg ← getitem entry (VStr (cps "svg"));
      elapsed ← getitem entry (VStr (cps "elapsed"));
      Ok (svg, elapsed, None)
  end.

(** Lines 314-319, one turn of the loop. *)
Definition sort_model (cache : gmap text value)
    (acc : gmap text result * list (text * text)) (m : text * text)
  : prog (gmap text result * list (text * text)) :=
  hit ← lift (cached cache m.1);
  if hit : bool then
    _ ← emit (UsedCache m.1);
    r ← lift (cached_result cache m.1);
    mret (<[m.1 := r]> acc.1, acc.2)
  else mret (acc.1, acc.2 ++ [m]).

(** [None] or a [str] as a value. *)
Definition opt_value (o : option text) : value :=
  match o with
  | Some s => VStr s
  | None => VNone
  end.

(** The entry of [results] for a call's tuple (line 327). *)
Definition result_of (r : call_result) : result :=
  (opt_value (cr_svg r), VFloat (cr_elapsed r), cr_error r).

(** Line 328: [svg and not error]. *)
Definition worth_caching (r : call_result) : bool :=
  truthy (opt_value (cr_svg r)) && negb (truthy (opt_value (cr_error r))).

(** Line 329: [{"svg": svg, "elapsed": elapsed}]. *)
Definition cache_entry (r : call_result) : value :=
  VDict [(cps "svg", opt_value (cr_svg r));
         (cps "elapsed", VFloat (cr_elapsed r))].

(** Lines 326-329, one turn of the loop: [future.result()] returns what
    the call returned and raises what the call raised. *)
Definition collect (w : world)
    (acc : gmap text result * gmap text value) (m : text * text)
  : prog (gmap text result * gmap text value) :=
  r ← lift (call_model (wording w) m.1 m.2 (net w m.1));
  _ ← emit (Collected r);
  mret (<[cr_name r := result_of r]> acc.1,
        if worth_caching r then <[cr_name r := cache_entry r]> acc.2
        else acc.2).

(** [as_completed]: the submitted calls in the order in which they
    complete. *)
Definition sooner (w : world) (a b : text * text) : Prop :=
  (finish w a.1 ≤ finish w b.1)%nat.

#[global] Instance sooner_dec (w : world) : RelDecision (sooner w) :=
  λ a b, decide (finish w a.1 ≤ finish w b.1)%nat.

Definition as_completed (w : world) (to_call : list (text * text))
  : list (text * text) :=
  merge_sort (sooner w) to_call.

(** Lines 343-347, one turn of the loop. *)
Definition status_line (results : gmap text result) (name : text)
  : prog unit :=
  match results !! name with
  | None => mret ()
  | Some r =>
      let status :=
        match error_shown (res_error r) with
        | None => StatusOK
        | Some e => StatusFail (take 60 e)
        end in
      time ← lift (format_1f (res_elapsed r));
      emit (StatusLine name time status)
  end.

(** Lines 321-332. *)
Definition dispatch (w : world) (results : gmap text result)
    (cache : gmap text value) (to_call : list (text * text))
  : prog (gmap text result * gmap text value) :=
  match to_call with
  | [] => mret (results, cache)
  | _ :: _ =>
      _ ← for_each (λ _ m, emit (Submitted m.1 m.2)) to_call ();
      acc ← for_each (collect w) (as_completed w to_call) (results, cache);
      _ ← emit (CacheSaved acc.2);
      mret acc
  end.

(** Lines 314-319. *)
Definition sort_models (cache : gmap text value)
  : prog (gmap text result * list (text * text)) :=
  for_each (sort_model cache) model_map (∅, []).

(** [str(v)], which is what an f-string prints for [{v}]. *)
Definition str_value (shown : value → text) (v : value) : text :=
  match v with
  | VStr s => s
  | VNone => cps "None"
  | VBool true => cps "True"
  | VBool false => cps "False"
  | _ => shown v
  end.

(** The text that the f-strings of [build_html] put into the page beside
    their own, which is Basic Latin like the digits of the numbers. *)
Definition panel_text (w : world) (p : panel) : text :=
  match p with
  | ErrorPanel e => e
  | SvgPanel v => str_value (shown w) v
  end.

Definition card_text (w : world) (c : card) : text :=
  card_name c ++ card_date c ++ panel_text w (card_panel c).

Definition page_text (w : world) (d : document) : text :=
  flat_map (λ s, sec_title s ++ flat_map (card_text w) (sec_cards s))
    (doc_sections d).

(** The encoding of text files has the code point.  Basic Latin, in which
    the script writes its own part of the page, is taken to be there. *)
Definition encodable (w : world) (c : N) : bool :=
  (c <? 128) || file_has w c.

(** Lines 337-338: [f.write(html)] encodes the page and raises on the
    first code point that the encoding of the file does not have. *)
Definition write_report (w : world) (d : document) : outcome unit :=
  if forallb (encodable w) (page_text w d) then Ok ()
  else Raise UnicodeEncodeError.

(** Lines 334-347. *)
Definition wrap_up (w : world) (results : gmap text result) : prog unit :=
  html ← lift (build_html results model_dates);
  _ ← lift (write_report w html);
  _ ← emit (ReportWritten html);
  _ ← emit (Tally (success_count results) (size results));
  for_each (λ _ m, status_line results m.1) model_map ().

(** [main], after [load_cache]. *)
Definition main (w : world) (cache : gmap text value) : prog unit :=
  sorted ← sort_models cache;
  merged ← dispatch w sorted.1 cache sorted.2;
  wrap_up w merged.1.

(** The script from its first line to its last. *)
Definition script (w : world) (st : store) : prog unit :=
  _ ← lift (API_KEY w);
  cache ← lift (load_cache st);
  main w cache.

(** A run: what it did and the exit status of the process, 0 at the end
    of the script and 1 after an exception nobody caught. *)
Record run := {
  run_log : list event;
  run_exit : Z
}.

Definition program (w : world) (st : store) : run :=
  let r := script w st in
  {| run_log := r.2;
     run_exit := match r.1 with Ok _ => 0%Z | Raise _ => 1%Z end |}.

(** [cache.json] after a run: what the last save wrote, or what was
    there. *)
Definition saved_caches (log : list event) : list (gmap text value) :=
  omap (λ e, match e with CacheSaved c => Some c | _ => None end) log.

Definition store_after (st : store) (r : run) : store :=
  match last (saved_caches (run_log r)) with
  | Some c => Stored c
  | None => st
  end.

(** ** Vocabulary of the properties *)

(** [pat] stands at the head of [s], letter case aside: code point by code
    point as the compiled pattern tests it. *)
Fixpoint ci_prefix (pat s : text) : bool :=
  match pat, s with
  | [], _ => true
  | p :: pat', c :: s' => chr_ignore p c && ci_prefix pat' s'
  | _ :: _, [] => false
  end.

(** [pat] occurs in [s] at offset [i], letter case aside. *)
Definition occurs_ci (pat s : text) (i : nat) : Prop :=
  ci_prefix pat (drop i s) = true.

(** The offset of the first occurrence of [pat] in [s]. *)
Fixpoint find_ci (pat s : text) : option nat :=
  if ci_prefix pat s then Some 0%nat
  else
    match s with
    | [] => None
    | _ :: s' => S <$> find_ci pat s'
    end.

Definition open_tag : text := cps "<svg".
Definition close_tag : text := cps "</svg>".

(** [s] holds an opening tag and, after it, a closing tag. *)
Definition has_fragment (s : text) : Prop :=
  ∃ i j, occurs_ci open_tag s i ∧ occurs_ci close_tag s j ∧ (i + 4 ≤ j)%nat.

(** The [n] code points of [s] from offset [i] are its first fragment: they
    start at the first opening tag and end with the first closing tag that
    comes after that tag. *)
Definition first_fragment (s : text) (i n : nat) : Prop :=
  occurs_ci open_tag s i
  ∧ (∀ i', (i' < i)%nat → ¬ occurs_ci open_tag s i')
  ∧ ∃ j, (i + 4 ≤ j)%nat
       ∧ occurs_ci close_tag s j
       ∧ (∀ j', (i + 4 ≤ j')%nat → (j' < j)%nat → ¬ occurs_ci close_tag s j')
       ∧ n = (j + 6 - i)%nat.

(** The same text up to the case of its Basic Latin letters. *)
Definition fold_case (c : N) : N :=
  if (65 <=? c) && (c <=? 90) then c + 32 else c.

Definition same_letters (s s' : text) : Prop :=
  Forall2 (λ c c', fold_case c = fold_case c') s s'.

(** The language tag a fence may carry. *)
Definition drop_lang (s : text) : text :=
  if starts_with (cps "svg") s then drop 3 s
  else if starts_with (cps "xml") s then drop 3 s
  else if starts_with (cps "html") s then drop 4 s
  else s.

(** The text of the specification's example. *)
Definition example_reply : text :=
  cps "here's your svg: ```svg" ++ [10] ++ cps "<svg><circle/></svg>"
  ++ [10] ++ cps "``` thanks".

(** The first fragment of [s] as an offset and a length: the first opening
    tag, then the first closing tag after it. *)
Definition first_span (s : text) : option (nat * nat) :=
  i ← find_ci open_tag s;
  j ← find_ci close_tag (drop (i + 4) s);
  Some (i, (4 + j + 6)%nat).

(** A reply whose first choice carries [content]. *)
Definition reply (content : value) : value :=
  VDict [(cps "choices",
          VList [VDict [(cps "message", VDict [(cps "content", content)])]])].

(** A call result has an output or an error message, and not both. *)
Definition one_of_output_error (r : call_result) : Prop :=
  (is_Some (cr_svg r) ∧ cr_error r = None)
  ∨ (cr_svg r = None ∧ is_Some (cr_error r)).

(** The events of one kind in a log, in order. *)
Definition used_caches (evs : list event) : list text :=
  omap (λ e, match e with UsedCache n => Some n | _ => None end) evs.

Definition submitted (evs : list event) : list (text * text) :=
  omap (λ e, match e with Submitted n m => Some (n, m) | _ => None end) evs.

Definition collected (evs : list event) : list call_result :=
  omap (λ e, match e with Collected r => Some r | _ => None end) evs.

Definition reports (evs : list event) : list document :=
  omap (λ e, match e with ReportWritten d => Some d | _ => None end) evs.

(** Line 315 holds for the model: it is taken from the cache. *)
Definition is_hit (cache : gmap text value) (name : text) : bool :=
  match cached cache name with
  | Ok true => true
  | _ => false
  end.

(** Line 315 fails for the model: it needs a call. *)
Definition is_miss (cache : gmap text value) (name : text) : bool :=
  match cached cache name with
  | Ok false => true
  | _ => false
  end.

(** The models that need a call, in the order of the table. *)
Definition needs_call (cache : gmap text value) : list (text * text) :=
  filter (λ m, is_miss cache m.1) model_map.

(** The call of a model as the world lets it happen. *)
Definition call_of (w : world) (m : text * text) : outcome call_result :=
  call_model (wording w) m.1 m.2 (net w m.1).

(** Lines 327-329 as updates of the two dictionaries. *)
Definition record_result (results : gmap text result) (r : call_result)
  : gmap text result :=
  <[cr_name r := result_of r]> results.

Definition record_cache (cache : gmap text value) (r : call_result)
  : gmap text value :=
  if worth_caching r then <[cr_name r := cache_entry r]> cache else cache.

(** The entry of [results] for a model taken from the cache. *)
Definition hit_value (cache : gmap text value) (name : text) : option result :=
  match cached_result cache name with
  | Ok r => Some r
  | Raise _ => None
  end.

(** The panel of an entry: the error when there is a message to show,
    the output otherwise. *)
Definition panel_of (r : result) : panel :=
  match error_shown (res_error r) with
  | Some e => ErrorPanel e
  | None => SvgPanel (res_svg r)
  end.

(** The elapsed time of the entry can be printed. *)
Definition printable (r : result) : Prop :=
  ∃ time, format_1f (res_elapsed r) = Ok time.

(** All cards of a page, section after section. *)
Definition cards (d : document) : list card :=
  concat (sec_cards <$> doc_sections d).

(** [v[2] is not None] *)
Definition error_is_some (r : result) : bool := negb (error_is_none r).

(** The names of a table of categories, category after category. *)
Definition category_names (categories : list (text * list text)) : list text :=
  concat (snd <$> categories).

(** A small result set for the examples: one model answered, one failed,
    one was taken from the cache. *)
Definition example_results : gmap text result :=
  <[cps "GPT-5" := (VStr (cps "<svg></svg>"), VFloat 3%float, None)]>
  (<[cps "Grok 4" := (VNone, VFloat 1%float, Some (cps "HTTP 500: down"))]>
  (<[cps "GLM-5" := (VStr (cps "<svg>old</svg>"), VFloat 7%float, None)]> ∅)).

Definition empty_document : document :=
  {| doc_total := 0; doc_success := 0; doc_sections := [] |}.

Definition example_document : document :=
  match build_html example_results model_dates with
  | Ok d => d
  | Raise _ => empty_document
  end.

(** Line 346: the status of an entry in the summary. *)
Definition status_of (r : result) : status :=
  match error_shown (res_error r) with
  | None => StatusOK
  | Some e => StatusFail (take 60 e)
  end.

(** The summary when every line can be printed: one line per model of the
    table that has an entry, in the order of the table. *)
Definition summary_lines (results : gmap text result) : list event :=
  omap (λ m : text * text,
          r ← results !! m.1;
          Some (StatusLine m.1 (res_elapsed r) (status_of r)))
    model_map.

(** A log of summary lines and nothing else. *)
Definition status_only (evs : list event) : Prop :=
  Forall (λ e, ∃ n t s, e = StatusLine n t s) evs.

(** The models taken from the cache, in the order of the table. *)
Definition hits (cache : gmap text value) : list text :=
  filter (λ n, is_hit cache n) model_map.*1.

(** The entries of [results] before any call: the hits. *)
Definition from_cache (cache : gmap text value) (results : gmap text result)
  : Prop :=
  ∀ n, results !! n = if decide (n ∈ hits cache) then hit_value cache n else None.

Definition submit_events (cache : gmap text value) : list event :=
  (λ m, Submitted m.1 m.2) <$> needs_call cache.

(** Line 330 is reached only inside [if to_call:]. *)
Definition save_events (cache : gmap text value) (rs : list call_result)
  : list event :=
  match needs_call cache with
  | [] => []
  | _ :: _ => [CacheSaved (foldl record_cache cache rs)]
  end.

(** What UTF-8 has beyond Basic Latin: every code point that is no
    surrogate. *)
Definition utf8_has (c : N) : bool :=
  (c <=? 1114111) && negb ((55296 <=? c) && (c <=? 57343)).

(** A world for the examples: the key is in the environment, text files are
    UTF-8, every model answers with a small picture after three seconds,
    and no value but a text, [None], [True] or [False] is ever printed. *)
Definition good_answer : attempt :=
  {| t_start := 2%float;
     happened := Answered (reply (VStr (cps "<svg></svg>")));
     t_end := 5%float; t_late := 6%float |}.

Definition example_world : world :=
  {| environ_key := Some (cps "sk-test");
     secrets_get := Raise (Raised (cps "secrets: command not found"));
     wording := λ _, cps "error";
     shown := λ _, cps "...";
     file_has := utf8_has;
     net := λ _, good_answer;
     finish := λ n, length n |}.

(** A cache file whose entry for GPT-5 has an empty [svg]. *)
Definition stale_cache : gmap text value :=
  {[ cps "GPT-5" := VDict [(cps "svg", VStr []); (cps "elapsed", VFloat 2%float)] ]}.

(** A cache file whose entry for GPT-5 has the number 1 as [svg]. *)
Definition odd_cache : gmap text value :=
  {[ cps "GPT-5" := VDict [(cps "svg", VInt 1); (cps "elapsed", VFloat 2%float)] ]}.

(** The entry of a model in the cache file. *)
Definition stored_entry (st : store) (name : text) : option value :=
  match st with
  | Stored cache => cache !! name
  | _ => None
  end.

(** The cache file over the life of the program: there is none at first,
    and every run, in whatever world, leaves it as [store_after] says.
    Next to the file stands the list of all results collected so far. *)
Inductive history : store → list call_result → Prop :=
| history_start : history NoStore []
| history_run st past w :
    history st past →
    history (store_after st (program w st))
      (past ++ collected (run_log (program w st))).

(** The cache file after one run of the example world, and after a second
    run in which every call fails. *)
Definition first_store : store :=
  store_after NoStore (program example_world NoStore).

Definition first_cache : gmap text value :=
  match first_store with
  | Stored cache => cache
  | _ => ∅
  end.

Definition failing_world : world :=
  {| environ_key := Some (cps "sk-test");
     secrets_get := Raise (Raised (cps "secrets: command not found"));
     wording := λ _, cps "error";
     shown := λ _, cps "...";
     file_has := utf8_has;
     net := λ _, {| t_start := 2%float;
                    happened := Failed (Raised (cps "timed out"));
                    t_end := 302%float; t_late := 302%float |};
     finish := λ n, length n |}.

(** The entry was earned by a call of the past: a call returned [r], with
    an output and no error, and the entry is what line 329 makes of [r]. *)
Definition earned (past : list call_result) (name : text) (entry : value)
  : Prop :=
  ∃ r, r ∈ past
       ∧ cr_name r = name
       ∧ entry = cache_entry r
       ∧ worth_caching r = true
       ∧ (∃ w m, call_of w m = Ok r)
       ∧ (∃ svg content,
            cr_svg r = Some svg ∧ svg ≠ [] ∧ extract_svg content = Some svg)
       ∧ cr_error r = None.




(** A text of Basic Latin. *)
Definition basic_latin (s : text) : bool := forallb (λ c, c <? 128) s.

(** The encoding of text files has every code point of the text. *)
Definition encodes (w : world) (s : text) : Prop :=
  forallb (encodable w) s = true.

(** What the page shows for an entry of [results] can be written. *)
Definition legible (w : world) (r : result) : Prop :=
  encodes w (panel_text w (panel_of r)).


(** Case analysis on the comparisons of a goal about code points. *)
Ltac split_tests :=
  repeat (match goal with
          | |- context [N.leb ?a ?b] => destruct (N.leb_spec a b)
          | |- context [N.eqb ?a ?b] => destruct (N.eqb_spec a b)
          | H : context [N.leb ?a ?b] |- _ => destruct (N.leb_spec a b)
          | H : context [N.eqb ?a ?b] |- _ => destruct (N.eqb_spec a b)
          end; cbn [andb orb negb] in *).

(** The names on the summary lines of a log, in order. *)
Definition status_names (evs : list event) : list text :=
  omap (λ e, match e with StatusLine n _ _ => Some n | _ => None end) evs.

(** The results of the calls that a run needs, in the order of the table. *)
Definition table_results (w : world) (cache : gmap text value)
  : list call_result :=
  omap (λ m, match call_of w m with Ok r => Some r | Raise _ => None end)
    (needs_call cache).

(** Every call that a run needs returns. *)
Definition all_return (w : world) (cache : gmap text value) : Prop :=
  ∀ m, m ∈ needs_call cache → ∃ r, call_of w m = Ok r.

(** Lines 315-317 go through for the model: line 315 gives an answer, and
    when the answer is yes, the two subscripts of line 317 find their
    keys. *)
Definition sortable (cache : gmap text value) (name : text) : Prop :=
  is_miss cache name = true
  ∨ (is_hit cache name = true ∧ is_Some (hit_value cache name)).

(** A log without the results collected at line 326. *)
Definition apart_from_collected (evs : list event) : list event :=
  List.filter (λ e, match e with Collected _ => false | _ => true end) evs.

(** A world in which the call of GPT-5 meets an HTTP failure whose body is
    the one byte 0xFF, and every other call is answered. *)
Definition garbled_world : world :=
  {| environ_key := Some (cps "sk-test");
     secrets_get := Raise (Raised (cps "secrets: command not found"));
     wording := λ _, cps "error";
     shown := λ _, cps "...";
     file_has := utf8_has;
     net := λ n, if bool_decide (n = cps "GPT-5")
                 then {| t_start := 2%float;
                         happened := HTTPError 500 (Ok [Byte.xff]);
                         t_end := 5%float; t_late := 6%float |}
                 else good_answer;
     finish := λ n, length n |}.

(** The example world with the calls completing the other way round. *)
Definition reversed_world : world :=
  {| environ_key := environ_key example_world;
     secrets_get := secrets_get example_world;
     wording := wording example_world;
     shown := shown example_world;
     file_has := file_has example_world;
     net := net example_world;
     finish := λ n, (100 - length n)%nat |}.

(** A cache file whose entry for GPT-5 has a text as [elapsed]. *)
Definition mistyped_cache : gmap text value :=
  {[ cps "GPT-5" := VDict [(cps "svg", VStr (cps "<svg></svg>"));
                           (cps "elapsed", VStr (cps "3.2"))] ]}.

(** A cache file whose entry for GPT-5 is a text. *)
Definition flat_cache : gmap text value :=
  {[ cps "GPT-5" := VStr (cps "<svg></svg>") ]}.

(** A world in which the picture that GPT-5 draws holds a lone surrogate,
    as [json.loads] makes one of an escape between D800 and DFFF; every
    other call is answered as in the example world. *)
Definition surrogate_world : world :=
  {| environ_key := Some (cps "sk-test");
     secrets_get := Raise (Raised (cps "secrets: command not found"));
     wording := λ _, cps "error";
     shown := λ _, cps "...";
     file_has := utf8_has;
     net := λ n, if bool_decide (n = cps "GPT-5")
                 then {| t_start := 2%float;
                         happened :=
                           Answered
                             (reply (VStr (cps "<svg>" ++ [55296] ++ cps "</svg>")));
                         t_end := 5%float; t_late := 6%float |}
                 else good_answer;
     finish := λ n, length n |}.

(** * Properties *)

(** ** The matcher on the two patterns *)

Lemma exec_lits_ignorecase pat s k :
  exec (ignorecase (lits pat)) s k
  = if ci_prefix pat s then k (drop (length pat) s) else None.
Proof.
  revert s k. induction pat as [|p pat IH]; intros s k; simpl.
  - by rewrite drop_0.
  - destruct s as [|c s]; simpl; [done|].
    destruct (chr_ignore p c); simpl; [apply IH | done].
Qed.

Lemma exec_lits pat s k :
  exec (lits pat) s k
  = if starts_with pat s then k (drop (length pat) s) else None.
Proof.
  revert s k. induction pat as [|p pat IH]; intros s k; simpl.
  - by rewrite drop_0.
  - destruct s as [|c s]; simpl; [done|].
    destruct (c =? p); simpl; [apply IH | done].
Qed.

Lemma star_lazy_ext p s k k' :
  (∀ t, k t = k' t) → star_lazy p s k = star_lazy p s k'.
Proof.
  intros E. induction s as [|c s IH]; simpl; rewrite E; [done|].
  by rewrite IH.
Qed.

Lemma in_class_any c : in_class [CSpace; CNotSpace] c = true.
Proof. unfold in_class; simpl. by destruct (is_space c). Qed.

(** The lazy star over any code point stops at the first place where the
    closing literal stands. *)
Lemma star_lazy_find pat s :
  star_lazy (in_class [CSpace; CNotSpace]) s
    (λ t, if ci_prefix pat t then Some (drop (length pat) t) else None)
  = (λ j, drop (j + length pat) s) <$> find_ci pat s.
Proof.
  induction s as [|c s IH].
  - simpl. destruct (ci_prefix pat []); [|done]. simpl. by rewrite !drop_nil.
  - cbn [star_lazy find_ci]. destruct (ci_prefix pat (c :: s)) eqn:E.
    + done.
    + rewrite in_class_any, IH. by destruct (find_ci pat s).
Qed.

(** The span the pattern takes at the head of [s]. *)
Lemma re_match_svg s :
  re_match svg_re s
  = if ci_prefix open_tag s
    then (λ j, drop (4 + j + 6) s) <$> find_ci close_tag (drop 4 s)
    else None.
Proof.
  unfold re_match, svg_re, open_tag, close_tag. cbn [ignorecase exec].
  rewrite exec_lits_ignorecase.
  destruct (ci_prefix (cps "<svg") s); [|done].
  change (length (cps "<svg")) with 4%nat.
  erewrite star_lazy_ext; [|intros t; apply exec_lits_ignorecase].
  rewrite star_lazy_find.
  destruct (find_ci (cps "</svg>") (drop 4 s)); [|done].
  simpl. f_equal. change (length (cps "</svg>")) with 6%nat.
  rewrite drop_drop; f_equal; lia.
Qed.

(** ** First occurrences *)

Lemma occurs_ci_drop pat s k i :
  occurs_ci pat (drop k s) i ↔ occurs_ci pat s (k + i).
Proof. unfold occurs_ci. by rewrite drop_drop. Qed.

Lemma occurs_ci_cons pat c s i :
  occurs_ci pat (c :: s) (S i) ↔ occurs_ci pat s i.
Proof. done. Qed.

Lemma find_ci_Some pat s i :
  find_ci pat s = Some i
  ↔ occurs_ci pat s i ∧ ∀ i', (i' < i)%nat → ¬ occurs_ci pat s i'.
Proof.
  revert i. induction s as [|c s IH]; intros i; simpl.
  - destruct (ci_prefix pat []) eqn:E.
    + split.
      * intros [= <-]. split; [done | lia].
      * intros [_ Hmin]. destruct i as [|i]; [done|].
        destruct (Hmin 0%nat); [lia | done].
    + split; [done|]. intros [Hocc _]. unfold occurs_ci in Hocc.
      rewrite drop_nil in Hocc. congruence.
  - destruct (ci_prefix pat (c :: s)) eqn:E.
    + split.
      * intros [= <-]. split; [done | lia].
      * intros [_ Hmin]. destruct i as [|i]; [done|].
        destruct (Hmin 0%nat); [lia | done].
    + destruct i as [|i].
      * split; [by destruct (find_ci pat s)|].
        intros [Hocc _]. unfold occurs_ci in Hocc. simpl in Hocc. congruence.
      * rewrite occurs_ci_cons. split.
        -- destruct (find_ci pat s) as [i0|] eqn:F; [|done].
           intros [= ->]. destruct (proj1 (IH i) eq_refl) as [Hocc Hmin].
           split; [done|].
           intros [|i'] Hlt; [unfold occurs_ci; simpl; congruence|].
           rewrite occurs_ci_cons. apply Hmin. lia.
        -- intros [Hocc Hmin].
           assert (find_ci pat s = Some i) as ->; [|done].
           apply IH. split; [done|]. intros i' Hlt.
           rewrite <- (occurs_ci_cons pat c). apply Hmin. lia.
Qed.

Lemma find_ci_None pat s :
  find_ci pat s = None ↔ ∀ i, ¬ occurs_ci pat s i.
Proof.
  induction s as [|c s IH]; simpl.
  - destruct (ci_prefix pat []) eqn:E.
    + split; [done|]. intros H. by destruct (H 0%nat).
    + split; [|done]. intros _ i. unfold occurs_ci.
      rewrite drop_nil. congruence.
  - destruct (ci_prefix pat (c :: s)) eqn:E.
    + split; [done|]. intros H. by destruct (H 0%nat).
    + split.
      * destruct (find_ci pat s) eqn:F; [done|]. intros _ [|i].
        -- unfold occurs_ci. simpl. congruence.
        -- rewrite occurs_ci_cons. by apply IH.
      * intros H. assert (find_ci pat s = None) as ->; [|done].
        apply IH. intros i. rewrite <- (occurs_ci_cons pat c). apply H.
Qed.

Lemma find_ci_occurs pat s i :
  occurs_ci pat s i → ∃ i0, find_ci pat s = Some i0 ∧ (i0 ≤ i)%nat.
Proof.
  intros Hocc. destruct (find_ci pat s) as [i0|] eqn:F.
  - exists i0. split; [done|]. apply find_ci_Some in F as [_ Hmin].
    destruct (decide (i0 ≤ i)%nat); [done|]. destruct (Hmin i); [lia | done].
  - by destruct (proj1 (find_ci_None pat s) F i).
Qed.

Lemma find_ci_drop_None pat s k :
  find_ci pat s = None → find_ci pat (drop k s) = None.
Proof.
  rewrite !find_ci_None. intros H i. rewrite occurs_ci_drop. apply H.
Qed.

Lemma take_consumed (s : text) n :
  take (length s - length (drop n s)) s = take n s.
Proof.
  rewrite length_drop. destruct (decide (n ≤ length s)%nat).
  - f_equal. lia.
  - rewrite !take_ge; [done | lia | lia].
Qed.

(** ** What the search returns *)

Lemma search_from_svg s i0 :
  search_from svg_re s i0
  = (λ p, ((i0 + p.1)%nat, take p.2 (drop p.1 s))) <$> first_span s.
Proof.
  revert i0. induction s as [|c s IH]; intros i0.
  - done.
  - cbn [search_from]. rewrite re_match_svg. unfold first_span.
    cbn [find_ci]. destruct (ci_prefix open_tag (c :: s)) eqn:E.
    + cbn [mbind option_bind]. change (0 + 4)%nat with 4%nat.
      destruct (find_ci close_tag (drop 4 (c :: s))) as [j|] eqn:F.
      * cbn. rewrite Nat.add_0_r. f_equal. f_equal.
        apply (take_consumed (c :: s) (4 + j + 6)).
      * cbn [fmap option_fmap option_map mbind option_bind].
        rewrite IH. unfold first_span.
        destruct (find_ci open_tag s) as [i|]; [|done].
        cbn [mbind option_bind].
        replace (drop (i + 4) s) with (drop (S i) (drop 4 (c :: s))).
        -- by rewrite (find_ci_drop_None _ _ _ F).
        -- rewrite drop_drop. simpl. f_equal. lia.
    + cbn [fmap option_fmap option_map]. rewrite IH. unfold first_span.
      destruct (find_ci open_tag s) as [i|]; [|done].
      cbn [fmap option_fmap option_map mbind option_bind].
      change (drop (S i + 4) (c :: s)) with (drop (i + 4) s).
      destruct (find_ci close_tag (drop (i + 4) s)) as [j|]; [|done].
      cbn. f_equal. f_equal. lia.
Qed.

Lemma re_search_svg s :
  re_search svg_re s = (λ p, (p.1, take p.2 (drop p.1 s))) <$> first_span s.
Proof. unfold re_search. by rewrite search_from_svg. Qed.

Lemma first_span_Some s i n :
  first_span s = Some (i, n) ↔ first_fragment s i n.
Proof.
  unfold first_span, first_fragment. split.
  - destruct (find_ci open_tag s) as [i0|] eqn:F; [|done].
    cbn [mbind option_bind].
    destruct (find_ci close_tag (drop (i0 + 4) s)) as [j0|] eqn:G; [|done].
    intros [= <- <-]. apply find_ci_Some in F as [Ho Hmin].
    apply find_ci_Some in G as [Hc Hcmin]. split; [done|]. split; [done|].
    exists (i0 + 4 + j0)%nat. split; [lia|]. split.
    + by apply occurs_ci_drop.
    + split; [|lia]. intros j' H1 H2 H3. apply (Hcmin (j' - (i0 + 4))%nat).
      * lia.
      * apply occurs_ci_drop. by replace (i0 + 4 + (j' - (i0 + 4)))%nat with j' by lia.
  - intros (Ho & Hmin & j & Hj & Hc & Hcmin & ->).
    assert (find_ci open_tag s = Some i) as -> by by apply find_ci_Some.
    cbn [mbind option_bind].
    assert (find_ci close_tag (drop (i + 4) s) = Some (j - (i + 4))%nat) as ->.
    { apply find_ci_Some. split.
      - apply occurs_ci_drop. by replace (i + 4 + (j - (i + 4)))%nat with j by lia.
      - intros j' Hlt Hocc. apply occurs_ci_drop in Hocc.
        apply (Hcmin (i + 4 + j')%nat); [lia | lia | done]. }
    cbn. f_equal. f_equal. lia.
Qed.

Lemma first_span_None s : first_span s = None ↔ ¬ has_fragment s.
Proof.
  unfold first_span, has_fragment. split.
  - intros H (i & j & Ho & Hc & Hij).
    destruct (find_ci_occurs _ _ _ Ho) as (i0 & F & Hi0). rewrite F in H.
    cbn [mbind option_bind] in H.
    destruct (find_ci_occurs close_tag (drop (i0 + 4) s) (j - (i0 + 4))%nat)
      as (j0 & G & _).
    { apply occurs_ci_drop. by replace (i0 + 4 + (j - (i0 + 4)))%nat with j by lia. }
    by rewrite G in H.
  - intros H. destruct (find_ci open_tag s) as [i|] eqn:F; [|done].
    cbn [mbind option_bind].
    destruct (find_ci close_tag (drop (i + 4) s)) as [j|] eqn:G; [|done].
    destruct H. exists i, (i + 4 + j)%nat.
    apply find_ci_Some in F as [Ho _]. apply find_ci_Some in G as [Hc _].
    split; [done|]. split; [by apply occurs_ci_drop | lia].
Qed.

(** ** The fence pattern *)

Lemma star_greedy_space s :
  star_greedy (in_class [CSpace]) s (λ t, exec (Opt (Chr 10)) t Some)
  = Some (lstrip s).
Proof.
  induction s as [|c s IH]; [done|].
  assert (in_class [CSpace] c = is_space c) as Hc
    by (unfold in_class; simpl; apply orb_false_r).
  cbn [star_greedy lstrip]. rewrite Hc. destruct (is_space c) eqn:E.
  - by rewrite IH.
  - cbn [exec]. destruct (N.eqb_spec c 10) as [->|]; [done | done].
Qed.

(** A fence is three back-quotes, the language tag if one follows, and
    the white space after that. *)
Lemma re_match_fence s :
  re_match fence_re s
  = if starts_with fence s then Some (lstrip (drop_lang (drop 3 s))) else None.
Proof.
  unfold re_match, fence_re. cbn [exec]. rewrite exec_lits.
  destruct (starts_with fence s); [|done].
  change (length fence) with 3%nat. generalize (drop 3 s) as t. intros t.
  rewrite !exec_lits. unfold drop_lang.
  change (length (cps "svg")) with 3%nat.
  change (length (cps "xml")) with 3%nat.
  change (length (cps "html")) with 4%nat.
  destruct (starts_with (cps "svg") t); [by rewrite star_greedy_space|].
  destruct (starts_with (cps "xml") t); [by rewrite star_greedy_space|].
  destruct (starts_with (cps "html") t); by rewrite star_greedy_space.
Qed.

(** ** What the fence passes leave *)

Lemma replace_scan_skip old new s n :
  replace_scan old new s n = replace_scan old new (drop n s) 0.
Proof.
  revert n. induction s as [|c s IH]; intros [|n]; try done.
  cbn [replace_scan drop]. apply IH.
Qed.

Lemma fence_ticks : fence = [96; 96; 96].
Proof. reflexivity. Qed.

(** One turn of [str.replace] on the fence. *)
Lemma replace_fence_cons c s :
  replace_scan fence [] (c :: s) 0
  = if starts_with fence (c :: s)
    then replace_scan fence [] (drop 2 s) 0
    else c :: replace_scan fence [] s 0.
Proof.
  cbn [replace_scan]. destruct (starts_with fence (c :: s)); [|done].
  rewrite replace_scan_skip. done.
Qed.

Lemma replace_fence_tick n s :
  (length s ≤ n)%nat →
  starts_with [96] (replace_scan fence [] s 0) = true →
  starts_with [96] s = true.
Proof.
  revert s. induction n as [|n IH]; intros [|c s] Hn; try done.
  { cbn in Hn. lia. }
  rewrite replace_fence_cons.
  destruct (starts_with fence (c :: s)) eqn:F.
  - intros _. revert F. rewrite fence_ticks. cbn -[N.eqb]. by destruct (c =? 96).
  - done.
Qed.

Lemma replace_fence_ticks n s :
  (length s ≤ n)%nat →
  starts_with [96; 96] (replace_scan fence [] s 0) = true →
  starts_with [96; 96] s = true.
Proof.
  revert s. induction n as [|n IH]; intros [|c s] Hn; try done.
  { cbn in Hn. lia. }
  rewrite replace_fence_cons.
  destruct (starts_with fence (c :: s)) eqn:F.
  - intros _. revert F. rewrite fence_ticks. cbn -[N.eqb].
    destruct (c =? 96); [|done]. destruct s as [|c' s]; [done|].
    cbn -[N.eqb]. by destruct (c' =? 96).
  - intros H.
    assert (c = 96 ∧ starts_with [96] (replace_scan fence [] s 0) = true)
      as [-> H1].
    { revert H. cbn -[N.eqb]. destruct (N.eqb_spec c 96); [|done].
      destruct (replace_scan fence [] s 0) as [|c' r]; [done|].
      cbn -[N.eqb]. by destruct (c' =? 96). }
    apply (replace_fence_tick (length s)) in H1; [|lia].
    revert H1. cbn -[N.eqb]. destruct s as [|c' s]; [done|]. by destruct (c' =? 96).
Qed.

Lemma replace_fence_clean n s i :
  (length s ≤ n)%nat →
  starts_with fence (drop i (replace_scan fence [] s 0)) = false.
Proof.
  revert s i. induction n as [|n IH]; intros [|c s] i Hn.
  - by destruct i.
  - cbn in Hn. lia.
  - by destruct i.
  - rewrite replace_fence_cons.
    destruct (starts_with fence (c :: s)) eqn:F.
    + apply IH. cbn in Hn. rewrite length_drop. lia.
    + destruct i as [|i]; [|apply IH; cbn in Hn; lia].
      cbn [drop]. destruct (starts_with fence (c :: replace_scan fence [] s 0)) eqn:G;
        [|done].
      exfalso.
      assert (c = 96 ∧ starts_with [96; 96] (replace_scan fence [] s 0) = true)
        as [-> H2].
      { revert G. rewrite fence_ticks. cbn -[N.eqb]. by destruct (N.eqb_spec c 96). }
      apply (replace_fence_ticks (length s)) in H2; [|lia].
      revert F H2. rewrite fence_ticks. cbn [starts_with]. rewrite N.eqb_refl. cbn [andb]. congruence.
Qed.

Lemma strip_fences_clean content i :
  starts_with fence (drop i (strip_fences content)) = false.
Proof.
  unfold strip_fences, str_replace. change fence with [96; 96; 96] at 2.
  cbv match. apply (replace_fence_clean _ _ _ (le_n _)).
Qed.

Lemma re_sub_fence_free s :
  (∀ i, starts_with fence (drop i s) = false) →
  re_sub fence_re [] s = s.
Proof.
  unfold re_sub. induction s as [|c s IH]; intros H; [done|].
  cbn [sub_scan]. rewrite re_match_fence.
  assert (starts_with fence (c :: s) = false) as -> by apply (H 0%nat).
  f_equal.
  apply IH. intros i. apply (H (S i)).
Qed.

Lemma replace_fence_free s :
  (∀ i, starts_with fence (drop i s) = false) →
  replace_scan fence [] s 0 = s.
Proof.
  induction s as [|c s IH]; intros H; [done|].
  rewrite replace_fence_cons.
  assert (starts_with fence (c :: s) = false) as -> by apply (H 0%nat).
  f_equal.
  apply IH. intros i. apply (H (S i)).
Qed.

Lemma strip_fences_fence_free s :
  (∀ i, starts_with fence (drop i s) = false) → strip_fences s = s.
Proof.
  intros H. unfold strip_fences. rewrite re_sub_fence_free by done.
  unfold str_replace. rewrite fence_ticks. cbv match. rewrite <- fence_ticks.
  by apply replace_fence_free.
Qed.

(** What a match of the fence pattern leaves is the end of the subject. *)
Lemma lstrip_suffix s : lstrip s `suffix_of` s.
Proof.
  induction s as [|c s IH]; [done|]. cbn [lstrip].
  destruct (is_space c); [|done]. by apply suffix_cons_r.
Qed.

Lemma drop_lang_suffix s : drop_lang s `suffix_of` s.
Proof.
  unfold drop_lang.
  destruct (starts_with (cps "svg") s); [apply suffix_drop|].
  destruct (starts_with (cps "xml") s); [apply suffix_drop|].
  destruct (starts_with (cps "html") s); [apply suffix_drop|done].
Qed.

Lemma after_fence_suffix s :
  lstrip (drop_lang (drop 3 s)) `suffix_of` drop 3 s.
Proof. etrans; [apply lstrip_suffix | apply drop_lang_suffix]. Qed.

Lemma sub_scan_skip r repl s n :
  sub_scan r repl s n = sub_scan r repl (drop n s) 0.
Proof.
  revert n. induction s as [|c s IH]; intros [|n]; try done.
  cbn [sub_scan drop]. apply IH.
Qed.

Lemma starts_with_length (p s : text) :
  starts_with p s = true → (length p ≤ length s)%nat.
Proof.
  revert s. induction p as [|a p IH]; intros [|c s]; cbn [starts_with length];
    try done; try lia.
  intros [_ H]%andb_prop. apply IH in H. lia.
Qed.

(** One turn of [re.sub] on the fence pattern: a fence goes with its tag
    and the white space after it, and the scan goes on behind them. *)
Lemma re_sub_fence_cons s :
  re_sub fence_re [] s
  = if starts_with fence s
    then re_sub fence_re [] (lstrip (drop_lang (drop 3 s)))
    else match s with
         | [] => []
         | c :: s' => c :: re_sub fence_re [] s'
         end.
Proof.
  unfold re_sub. destruct s as [|c s]; [done|].
  cbn [sub_scan]. rewrite re_match_fence.
  destruct (starts_with fence (c :: s)) eqn:F; [|done].
  apply starts_with_length in F. change (length fence) with 3%nat in F.
  destruct (after_fence_suffix (c :: s)) as [k Hk].
  set (rest := lstrip (drop_lang (drop 3 (c :: s)))) in *.
  assert (length (c :: s) = (3 + length k + length rest)%nat) as Hlen.
  { rewrite <- (take_drop 3 (c :: s)) at 1.
    rewrite length_app, length_take, Hk, length_app. lia. }
  assert (drop (2 + length k) s = rest) as Hrest.
  { change (drop (3 + length k) (c :: s) = rest).
    rewrite <- drop_drop, Hk. apply drop_app_length. }
  replace (length (c :: s) - length rest)%nat with (S (2 + length k)) by lia.
  by rewrite app_nil_l, sub_scan_skip, Hrest.
Qed.

(** One turn of [str.replace] on the fence: three back-quotes go, and the
    scan goes on behind them. *)
Lemma str_replace_fence_cons s :
  str_replace fence [] s
  = if starts_with fence s
    then str_replace fence [] (drop 3 s)
    else match s with
         | [] => []
         | c :: s' => c :: str_replace fence [] s'
         end.
Proof.
  unfold str_replace. rewrite fence_ticks. cbv match. rewrite <- fence_ticks.
  destruct s as [|c s]; [done|]. by rewrite replace_fence_cons.
Qed.

(** ** Letter case *)

Lemma chr_ignore_lt c : chr_ignore 60 c = true ↔ c = 60.
Proof. unfold chr_ignore, lower, casefix; cbn. split_tests; split; (done || lia). Qed.

Lemma chr_ignore_s c : chr_ignore 115 c = true ↔ c = 115 ∨ c = 83 ∨ c = 383.
Proof. unfold chr_ignore, lower, casefix; cbn. split_tests; split; (done || lia). Qed.

Lemma chr_ignore_v c : chr_ignore 118 c = true ↔ c = 118 ∨ c = 86.
Proof. unfold chr_ignore, lower, casefix; cbn. split_tests; split; (done || lia). Qed.

Lemma chr_ignore_g c : chr_ignore 103 c = true ↔ c = 103 ∨ c = 71.
Proof. unfold chr_ignore, lower, casefix; cbn. split_tests; split; (done || lia). Qed.

Lemma chr_ignore_slash c : chr_ignore 47 c = true ↔ c = 47.
Proof. unfold chr_ignore, lower, casefix; cbn. split_tests; split; (done || lia). Qed.

Lemma chr_ignore_gt c : chr_ignore 62 c = true ↔ c = 62.
Proof. unfold chr_ignore, lower, casefix; cbn. split_tests; split; (done || lia). Qed.

Lemma lower_fold_case c c' : fold_case c = fold_case c' → lower c = lower c'.
Proof.
  unfold fold_case, lower. split_tests; intros; try lia; try done.
Qed.

Lemma chr_ignore_fold_case p c c' :
  fold_case c = fold_case c' → chr_ignore p c = chr_ignore p c'.
Proof. intros H. unfold chr_ignore. by rewrite (lower_fold_case _ _ H). Qed.

Lemma ci_prefix_same_letters pat s s' :
  same_letters s s' → ci_prefix pat s = ci_prefix pat s'.
Proof.
  intros H. revert pat. induction H as [|c c' s s' Hc _ IH]; intros [|p pat];
    simpl; try done.
  by rewrite (chr_ignore_fold_case _ _ _ Hc), IH.
Qed.

Lemma find_ci_same_letters pat s s' :
  same_letters s s' → find_ci pat s = find_ci pat s'.
Proof.
  intros H. induction H as [|c c' s s' Hc H IH]; simpl.
  - done.
  - rewrite (ci_prefix_same_letters pat (c :: s) (c' :: s')), IH; [done|].
    by constructor.
Qed.

Lemma first_span_same_letters s s' :
  same_letters s s' → first_span s = first_span s'.
Proof.
  intros H. unfold first_span. rewrite (find_ci_same_letters _ _ _ H).
  destruct (find_ci open_tag s') as [i|]; [|done]. cbn [mbind option_bind].
  by rewrite (find_ci_same_letters close_tag (drop (i + 4) s) (drop (i + 4) s'))
    by by apply Forall2_drop.
Qed.

Lemma extract_svg_span content :
  extract_svg content
  = (λ p, take p.2 (drop p.1 (strip_fences content)))
      <$> first_span (strip_fences content).
Proof.
  unfold extract_svg. rewrite re_search_svg.
  by destruct (first_span (strip_fences content)).
Qed.

Lemma extract_svg_None content :
  extract_svg content = None ↔ ¬ has_fragment (strip_fences content).
Proof.
  rewrite extract_svg_span, <- first_span_None.
  by destruct (first_span (strip_fences content)).
Qed.

(** C1.  Extraction first removes the markdown fences and then searches
    what is left.  A fence is three back-quotes with the language tag
    (svg, xml or html) and the white space that follow them; the first pass
    removes every fence it meets from left to right, the second every run
    of three back-quotes that is left, and nothing else goes: the cleaned
    text holds no three back-quotes in a row, and a text without them is
    left as it is.  The search returns the text from the first opening tag
    to the first closing tag after it, both included and both read without
    regard to letter case (for [s] the long s counts as well), whatever
    lies between, line ends included; it returns nothing exactly when there
    is no such pair of tags.  On the reply of the specification's example
    the cleaned text is the reply without its two fences and the answer is
    the bare fragment; capital tags are found like small ones; a fragment
    may run over a line end and stops at the first closing tag; a fence
    inside a fragment is taken out of it; and two texts that differ in the
    case of their letters only are matched at the same place over the same
    length. *)
Theorem svg_extraction :
  (∀ s, re_match fence_re s
        = if starts_with fence s
          then Some (lstrip (drop_lang (drop 3 s))) else None)
  ∧ (∀ content,
       strip_fences content = str_replace fence [] (re_sub fence_re [] content))
  ∧ (∀ s, re_sub fence_re [] s
          = if starts_with fence s
            then re_sub fence_re [] (lstrip (drop_lang (drop 3 s)))
            else match s with
                 | [] => []
                 | c :: s' => c :: re_sub fence_re [] s'
                 end)
  ∧ (∀ s, str_replace fence [] s
          = if starts_with fence s
            then str_replace fence [] (drop 3 s)
            else match s with
                 | [] => []
                 | c :: s' => c :: str_replace fence [] s'
                 end)
  ∧ (∀ content i, starts_with fence (drop i (strip_fences content)) = false)
  ∧ (∀ content,
       (∀ i, starts_with fence (drop i content) = false) →
       strip_fences content = content)
  ∧ (∀ content svg,
       extract_svg content = Some svg
       ↔ ∃ i n, first_fragment (strip_fences content) i n
              ∧ svg = take n (drop i (strip_fences content)))
  ∧ (∀ content,
       extract_svg content = None ↔ ¬ has_fragment (strip_fences content))
  ∧ (∀ c, (chr_ignore 60 c = true ↔ c = 60)
        ∧ (chr_ignore 115 c = true ↔ c = 115 ∨ c = 83 ∨ c = 383)
        ∧ (chr_ignore 118 c = true ↔ c = 118 ∨ c = 86)
        ∧ (chr_ignore 103 c = true ↔ c = 103 ∨ c = 71)
        ∧ (chr_ignore 47 c = true ↔ c = 47)
        ∧ (chr_ignore 62 c = true ↔ c = 62))
  ∧ strip_fences example_reply
    = cps "here's your svg: <svg><circle/></svg>" ++ [10] ++ cps "thanks"
  ∧ extract_svg example_reply = Some (cps "<svg><circle/></svg>")
  ∧ extract_svg (cps "<SVG><circle/></SVG>") = Some (cps "<SVG><circle/></SVG>")
  ∧ extract_svg (cps "<svg>" ++ [10] ++ cps "</svg> and </svg>")
    = Some (cps "<svg>" ++ [10] ++ cps "</svg>")
  ∧ extract_svg (cps "<svg>```xml" ++ [10] ++ cps "<g/>```</svg>")
    = Some (cps "<svg><g/></svg>")
  ∧ (∀ s s',
       same_letters s s' →
       re_search svg_re s'
       = (λ m, (m.1, take (length m.2) (drop m.1 s'))) <$> re_search svg_re s).
Proof.
  split; [exact re_match_fence|].
  split; [done|].
  split; [exact re_sub_fence_cons|].
  split; [exact str_replace_fence_cons|].
  split; [exact strip_fences_clean|].
  split; [exact strip_fences_fence_free|].
  split.
  { intros content svg. rewrite extract_svg_span. split.
    - destruct (first_span (strip_fences content)) as [[i n]|] eqn:F; [|done].
      intros [= <-]. exists i, n. split; [by apply first_span_Some | done].
    - intros (i & n & F & ->). apply first_span_Some in F. by rewrite F. }
  split; [exact extract_svg_None|].
  split.
  { intros c. split; [apply chr_ignore_lt|]. split; [apply chr_ignore_s|].
    split; [apply chr_ignore_v|]. split; [apply chr_ignore_g|].
    split; [apply chr_ignore_slash | apply chr_ignore_gt]. }
  split; [by vm_compute|].
  split; [by vm_compute|]. split; [by vm_compute|]. split; [by vm_compute|].
  split; [by vm_compute|].
  intros s s' H. rewrite !re_search_svg, (first_span_same_letters _ _ H).
  destruct (first_span s') as [[i n]|]; [|done]. cbn. do 2 f_equal.
  rewrite length_take, length_drop, (Forall2_length _ _ _ H).
  rewrite <- (length_drop s' i).
  destruct (decide (n ≤ length (drop i s'))%nat).
  - f_equal. lia.
  - rewrite !take_ge; [done | lia | lia].
Qed.

(** ** The dispatcher *)

Lemma extract_svg_nonempty content svg :
  extract_svg content = Some svg → svg ≠ [].
Proof.
  rewrite extract_svg_span.
  destruct (first_span (strip_fences content)) as [[i n]|] eqn:F; [|done].
  intros [= <-]. apply first_span_Some in F as (Ho & _ & j & Hj & _ & _ & ->).
  unfold occurs_ci in Ho. replace (j + 6 - i)%nat with (S (j + 5 - i)) by lia.
  by destruct (drop i (strip_fences content)).
Qed.

(** What a handled call returns. *)
Lemma read_answer_name name elapsed data r :
  read_answer name elapsed data = Ok r →
  cr_name r = name ∧ cr_elapsed r = elapsed ∧ one_of_output_error r.
Proof.
  unfold read_answer, one_of_output_error.
  destruct (content_of data) as [[| | | |content| |]|]; try done.
  cbn [mbind outcome_bind]. destruct (extract_svg content) as [svg|]; intros [= <-]; cbn; eauto 6.
Qed.

Lemma call_model_ok wording name model_id a r :
  call_model wording name model_id a = Ok r →
  cr_name r = name ∧ one_of_output_error r.
Proof.
  unfold call_model. destruct (happened a) as [data|code read|e].
  - destruct (read_answer name (t_end a - t_start a) data) as [r'|e'] eqn:R.
    + intros [= ->]. apply read_answer_name in R. by destruct R as (? & _ & ?).
    + intros [= <-]. split; [done|]. right. cbn. eauto.
  - destruct (error_body read) as [body|e']; [|done].
    intros [= <-]. split; [done|]. right. cbn. eauto.
  - intros [= <-]. split; [done|]. right. cbn. eauto.
Qed.

(** C3.  Every tuple that [call_model] returns carries the name it was
    called with and either an output and no error, or an error message and
    no output; a tuple with neither, or with both, is never returned. *)
Theorem call_result_invariant wording name model_id a r :
  call_model wording name model_id a = Ok r →
  cr_name r = name ∧ one_of_output_error r
  ∧ ¬ (cr_svg r = None ∧ cr_error r = None)
  ∧ ¬ (is_Some (cr_svg r) ∧ is_Some (cr_error r)).
Proof.
  intros H. destruct (call_model_ok _ _ _ _ _ H) as [Hn Hone].
  split; [done|]. split; [done|].
  destruct Hone as [[[svg Hs] He]|[Hs [e He]]]; rewrite Hs, He; split.
  - intros [? _]. done.
  - intros [_ [? ?]]. done.
  - intros [_ ?]. done.
  - intros [[? ?] _]. done.
Qed.

Lemma call_result_invariant_witness :
  let a := {| t_start := 2%float;
              happened := Answered (reply (VStr (cps "<svg></svg>")));
              t_end := 5%float; t_late := 6%float |} in
  let r := {| cr_name := cps "GPT-5"; cr_svg := Some (cps "<svg></svg>");
              cr_elapsed := (5 - 2)%float; cr_error := None |} in
  call_model (λ _, []) (cps "GPT-5") (cps "openai/gpt-5") a = Ok r
  ∧ cr_name r = cps "GPT-5" ∧ one_of_output_error r
  ∧ ¬ (cr_svg r = None ∧ cr_error r = None)
  ∧ ¬ (is_Some (cr_svg r) ∧ is_Some (cr_error r)).
Proof.
  intros a r. split; [reflexivity|].
  apply (call_result_invariant (λ _, []) (cps "GPT-5") (cps "openai/gpt-5") a r).
  reflexivity.
Defined.

(** C4.  When the reply was read down to a text and the text, fences
    removed, holds no fragment, the call returns no output and the message
    "No <svg> tag found in response", although the exchange itself
    succeeded. *)
Theorem missing_svg_is_an_error wording name model_id a data content :
  happened a = Answered data →
  content_of data = Ok (VStr content) →
  ¬ has_fragment (strip_fences content) →
  call_model wording name model_id a
  = Ok {| cr_name := name; cr_svg := None;
          cr_elapsed := (t_end a - t_start a)%float;
          cr_error := Some (cps "No <svg> tag found in response") |}.
Proof.
  intros Ha Hc Hf. unfold call_model, read_answer. rewrite Ha, Hc. cbn [mbind outcome_bind].
  by rewrite (proj2 (extract_svg_None content) Hf).
Qed.

Lemma missing_svg_is_an_error_witness :
  call_model (λ _, []) (cps "GPT-5") (cps "openai/gpt-5")
    {| t_start := 2%float;
       happened := Answered (reply (VStr (cps "I cannot draw, sorry.")));
       t_end := 5%float; t_late := 6%float |}
  = Ok {| cr_name := cps "GPT-5"; cr_svg := None;
          cr_elapsed := (5 - 2)%float;
          cr_error := Some (cps "No <svg> tag found in response") |}.
Proof.
  apply (missing_svg_is_an_error (λ _, []) (cps "GPT-5") (cps "openai/gpt-5")
           {| t_start := 2%float;
              happened := Answered (reply (VStr (cps "I cannot draw, sorry.")));
              t_end := 5%float; t_late := 6%float |}
           (reply (VStr (cps "I cannot draw, sorry.")))
           (cps "I cannot draw, sorry.")).
  - reflexivity.
  - reflexivity.
  - apply first_span_None. reflexivity.
Defined.

(** An HTTP failure whose body can be read as text: the status code, the
    first 200 code points of the body, no output. *)
Lemma http_failure_result wording name model_id a code bytes body :
  happened a = HTTPError code (Ok bytes) →
  decode bytes = Ok body →
  call_model wording name model_id a
  = Ok {| cr_name := name; cr_svg := None;
          cr_elapsed := (t_end a - t_start a)%float;
          cr_error := Some (cps "HTTP " ++ str_int code ++ cps ": "
                            ++ take 200 body) |}
  ∧ (length (take 200 body) ≤ 200)%nat.
Proof.
  intros Ha Hb. unfold call_model, error_body. rewrite Ha. cbn [mbind outcome_bind].
  rewrite Hb. split; [done|].
  rewrite length_take. lia.
Qed.

(** The one place where a call raises: line 153, when the body of an HTTP
    failure cannot be read or is not UTF-8. *)
Lemma call_model_raises wording name model_id a e :
  call_model wording name model_id a = Raise e →
  ∃ code read, happened a = HTTPError code read
             ∧ (read = Raise e ∨ ∃ bytes, read = Ok bytes ∧ decode bytes = Raise e).
Proof.
  unfold call_model. destruct (happened a) as [data|code [bytes|e0]|e'];
    try done.
  - by destruct (read_answer name (t_end a - t_start a) data).
  - cbn. destruct (decode bytes) eqn:D; [done|]. intros [= <-].
    exists code, (Ok bytes). split; [done|]. right. by exists bytes.
  - cbn. intros [= <-]. exists code, (Raise e0). split; [done|]. by left.
Qed.

(** C9, at an HTTP failure whose body is the single byte FF: line 153
    raises inside the handler, so the call returns no tuple at all. *)
Example http_failure_undecodable :
  call_model (λ _, []) (cps "GPT-5") (cps "openai/gpt-5")
    {| t_start := 2%float; happened := HTTPError 500 (Ok [Byte.xff]);
       t_end := 5%float; t_late := 6%float |}
  = Raise UnicodeDecodeError.
Proof. reflexivity. Qed.

(** ** Steps of the script *)

Lemma bind_lift_ok {A B} (a : A) (f : A → prog B) : (lift (Ok a) ≫= f) = f a.
Proof. unfold mbind, prog_bind, lift. by destruct (f a). Qed.

Lemma bind_lift_raise {A B} e (f : A → prog B) :
  (lift (Raise e) ≫= f) = (Raise e, []).
Proof. done. Qed.

Lemma bind_ret {A B} (a : A) (f : A → prog B) : (mret a ≫= f) = f a.
Proof. unfold mbind, prog_bind, mret, prog_ret. by destruct (f a). Qed.

Lemma bind_emit {B} ev (f : unit → prog B) :
  (emit ev ≫= f) = ((f ()).1, ev :: (f ()).2).
Proof. unfold mbind, prog_bind, emit. by destruct (f ()). Qed.

Lemma bind_inv {A B} (m : prog A) (f : A → prog B) o evs :
  (m ≫= f) = (o, evs) →
  (∃ e, m = (Raise e, evs) ∧ o = Raise e)
  ∨ (∃ a e1 e2, m = (Ok a, e1) ∧ f a = (o, e2) ∧ evs = e1 ++ e2).
Proof.
  unfold mbind, prog_bind. destruct m as [[a|e] e1].
  - destruct (f a) as [o' e2] eqn:F. intros [= <- <-]. right. eauto 6.
  - intros [= <- <-]. left. eauto.
Qed.

Lemma used_caches_app e1 e2 :
  used_caches (e1 ++ e2) = used_caches e1 ++ used_caches e2.
Proof. apply omap_app. Qed.

Lemma submitted_app e1 e2 : submitted (e1 ++ e2) = submitted e1 ++ submitted e2.
Proof. apply omap_app. Qed.

Lemma collected_app e1 e2 : collected (e1 ++ e2) = collected e1 ++ collected e2.
Proof. apply omap_app. Qed.

Lemma saved_caches_app e1 e2 :
  saved_caches (e1 ++ e2) = saved_caches e1 ++ saved_caches e2.
Proof. apply omap_app. Qed.

Lemma reports_app e1 e2 : reports (e1 ++ e2) = reports e1 ++ reports e2.
Proof. apply omap_app. Qed.

(** A log made of events of one kind. *)
Lemma only_used names :
  used_caches (UsedCache <$> names) = names
  ∧ submitted (UsedCache <$> names) = []
  ∧ collected (UsedCache <$> names) = []
  ∧ saved_caches (UsedCache <$> names) = []
  ∧ reports (UsedCache <$> names) = [].
Proof.
  unfold used_caches, submitted, collected, saved_caches, reports.
  induction names as [|n l (H1 & H2 & H3 & H4 & H5)]; [done|]. cbn.
  by rewrite H1, H2, H3, H4, H5.
Qed.

Lemma only_submitted (l : list (text * text)) :
  let evs := (λ m, Submitted m.1 m.2) <$> l in
  used_caches evs = [] ∧ submitted evs = l ∧ collected evs = []
  ∧ saved_caches evs = [] ∧ reports evs = [].
Proof.
  unfold used_caches, submitted, collected, saved_caches, reports.
  induction l as [|[n m] l (H1 & H2 & H3 & H4 & H5)]; [done|]. cbn in *.
  by rewrite H1, H2, H3, H4, H5.
Qed.

Lemma only_collected rs :
  used_caches (Collected <$> rs) = []
  ∧ submitted (Collected <$> rs) = []
  ∧ collected (Collected <$> rs) = rs
  ∧ saved_caches (Collected <$> rs) = []
  ∧ reports (Collected <$> rs) = [].
Proof.
  unfold used_caches, submitted, collected, saved_caches, reports.
  induction rs as [|r l (H1 & H2 & H3 & H4 & H5)]; [done|]. cbn.
  by rewrite H1, H2, H3, H4, H5.
Qed.

(** ** The loop that sorts the models (lines 314-319) *)

Lemma sort_model_cases cache acc m :
  sort_model cache acc m
  = match cached cache m.1 with
    | Raise e => (Raise e, [])
    | Ok false => (Ok (acc.1, acc.2 ++ [m]), [])
    | Ok true =>
        match cached_result cache m.1 with
        | Ok r => (Ok (<[m.1 := r]> acc.1, acc.2), [UsedCache m.1])
        | Raise e => (Raise e, [UsedCache m.1])
        end
    end.
Proof.
  unfold sort_model. destruct (cached cache m.1) as [[|]|e].
  - rewrite bind_lift_ok, bind_emit.
    destruct (cached_result cache m.1) as [r|e].
    + by rewrite bind_lift_ok.
    + by rewrite bind_lift_raise.
  - by rewrite bind_lift_ok.
  - by rewrite bind_lift_raise.
Qed.

Lemma sort_loop cache models acc o evs :
  for_each (sort_model cache) models acc = (o, evs) →
  ∃ used,
    evs = UsedCache <$> used
    ∧ Forall (λ n, is_hit cache n = true ∧ n ∈ models.*1) used
    ∧ ∀ acc', o = Ok acc' →
        used = filter (λ n, is_hit cache n) models.*1
        ∧ acc'.2 = acc.2 ++ filter (λ m, is_miss cache m.1) models
        ∧ Forall (λ m, is_hit cache m.1 = true → is_Some (hit_value cache m.1)) models
        ∧ ∀ n, acc'.1 !! n
               = if decide (n ∈ used) then hit_value cache n else acc.1 !! n.
Proof.
  revert acc o evs. induction models as [|m models IH]; intros acc o evs.
  - intros [= <- <-]. exists []. split; [done|]. split; [done|].
    intros acc' [= <-]. rewrite app_nil_r. split; [done|]. split; [done|].
    split; [done|]. intros n. by rewrite decide_False by apply not_elem_of_nil.
  - cbn [for_each]. intros H. apply bind_inv in H as [(e & H & ->)|H].
    + rewrite sort_model_cases in H. unfold is_hit.
      destruct (cached cache m.1) as [[|]|e'] eqn:C.
      * destruct (cached_result cache m.1); [done|]. injection H as <- <-.
        exists [m.1]. split; [done|]. split; [|done].
        constructor; [|done]. unfold is_hit. rewrite C. split; [done|].
        rewrite fmap_cons. apply list_elem_of_here.
      * done.
      * injection H as <- <-. exists []. by split.
    + destruct H as (acc1 & e1 & e2 & H & Hrest & ->).
      apply IH in Hrest as (used & -> & Hused & Hok).
      rewrite sort_model_cases in H.
      destruct (cached cache m.1) as [[|]|e'] eqn:C; [| |done].
      * destruct (cached_result cache m.1) as [r|] eqn:R; [|done].
        injection H as <- <-. exists (m.1 :: used). split; [done|].
        assert (is_hit cache m.1 = true) as Hm by (unfold is_hit; by rewrite C).
        split.
        { constructor.
          - split; [done|]. rewrite fmap_cons. apply list_elem_of_here.
          - eapply Forall_impl; [exact Hused|]. intros n [? ?]. split; [done|].
            rewrite fmap_cons. by apply list_elem_of_further. }
        intros acc' ->. destruct (Hok acc' eq_refl) as (Hu & H2 & Hv & H1).
        cbn [fst snd] in *. split.
        { rewrite fmap_cons, filter_cons_True by by rewrite Hm. by f_equal. }
        split.
        { rewrite H2. f_equal. rewrite filter_cons_False; [done|].
          unfold is_miss. rewrite C. intros []. }
        split.
        { constructor; [|done]. intros _. unfold hit_value. by rewrite R. }
        intros n. rewrite H1. destruct (decide (n = m.1)) as [->|Hne].
        -- rewrite (decide_True (P := m.1 ∈ m.1 :: used)) by apply list_elem_of_here.
           destruct (decide (m.1 ∈ used)); [done|].
           rewrite lookup_insert_eq. unfold hit_value. by rewrite R.
        -- rewrite lookup_insert_ne by done.
           destruct (decide (n ∈ used)) as [Hin|Hnin].
           ++ by rewrite decide_True by by apply list_elem_of_further.
           ++ rewrite decide_False; [done|]. rewrite elem_of_cons. tauto.
      * injection H as <- <-. exists used. split; [done|].
        assert (is_hit cache m.1 = false) as Hm by (unfold is_hit; by rewrite C).
        split.
        { eapply Forall_impl; [exact Hused|]. intros n [? ?]. split; [done|].
          rewrite fmap_cons. by apply list_elem_of_further. }
        intros acc' ->. destruct (Hok acc' eq_refl) as (Hu & H2 & Hv & H1).
        cbn [fst snd] in *. split.
        { rewrite fmap_cons, filter_cons_False; [done|]. rewrite Hm. intros []. }
        split.
        { rewrite H2, <- app_assoc. f_equal. rewrite filter_cons_True; [done|].
          unfold is_miss. by rewrite C. }
        split; [|done]. constructor; [|done]. by rewrite Hm.
Qed.

(** ** Dispatch (lines 321-332) *)

Lemma submit_loop (l : list (text * text)) :
  for_each (λ _ m, emit (Submitted m.1 m.2)) l ()
  = (Ok (), (λ m, Submitted m.1 m.2) <$> l).
Proof.
  induction l as [|m l IH]; [done|].
  cbn [for_each]. rewrite bind_emit, IH. done.
Qed.

Lemma collect_cases w acc m :
  collect w acc m
  = match call_of w m with
    | Ok r => (Ok (record_result acc.1 r, record_cache acc.2 r), [Collected r])
    | Raise e => (Raise e, [])
    end.
Proof.
  unfold collect, call_of. destruct (call_model _ _ _ _) as [r|e].
  - by rewrite bind_lift_ok, bind_emit.
  - by rewrite bind_lift_raise.
Qed.

Lemma collect_loop w order acc o evs :
  for_each (collect w) order acc = (o, evs) →
  ∃ rs,
    evs = Collected <$> rs
    ∧ Forall2 (λ m r, call_of w m = Ok r) (take (length rs) order) rs
    ∧ match o with
      | Ok acc' =>
          length rs = length order
          ∧ acc'.1 = foldl record_result acc.1 rs
          ∧ acc'.2 = foldl record_cache acc.2 rs
      | Raise e => ∃ m, order !! length rs = Some m ∧ call_of w m = Raise e
      end.
Proof.
  revert acc o evs. induction order as [|m order IH]; intros acc o evs.
  - intros [= <- <-]. exists []. by repeat split.
  - cbn [for_each]. rewrite collect_cases. intros H.
    apply bind_inv in H as [(e & H & ->)|(acc1 & e1 & e2 & H & Hrest & ->)].
    + destruct (call_of w m) as [r|e'] eqn:C; [done|]. injection H as <- <-.
      exists []. split; [done|]. split; [constructor|]. by exists m.
    + destruct (call_of w m) as [r|e'] eqn:C; [|done]. injection H as <- <-.
      apply IH in Hrest as (rs & -> & Hrs & Ho). exists (r :: rs).
      split; [done|]. split; [by constructor|].
      destruct o as [acc'|e]; [|done].
      destruct Ho as (Hlen & H1 & H2). cbn. by rewrite Hlen.
Qed.

Lemma dispatch_cases w results cache to_call o evs :
  dispatch w results cache to_call = (o, evs) →
  (to_call = [] ∧ o = Ok (results, cache) ∧ evs = [])
  ∨ (to_call ≠ []
     ∧ ∃ rs,
         Forall2 (λ m r, call_of w m = Ok r)
           (take (length rs) (as_completed w to_call)) rs
         ∧ ((∃ e m, o = Raise e
                    ∧ as_completed w to_call !! length rs = Some m
                    ∧ call_of w m = Raise e
                    ∧ evs = ((λ m, Submitted m.1 m.2) <$> to_call)
                            ++ (Collected <$> rs))
            ∨ (length rs = length to_call
               ∧ o = Ok (foldl record_result results rs,
                         foldl record_cache cache rs)
               ∧ evs = ((λ m, Submitted m.1 m.2) <$> to_call)
                       ++ (Collected <$> rs)
                       ++ [CacheSaved (foldl record_cache cache rs)]))).
Proof.
  unfold dispatch. destruct to_call as [|m0 l]; [intros [= <- <-]; by left|].
  set (to_call := m0 :: l). intros H. right. split; [done|].
  rewrite submit_loop in H.
  apply bind_inv in H as [(e & [=] & _)|(u & e1 & e2 & [= <- <-] & H & ->)].
  apply bind_inv in H as [(e & H & ->)|(acc & e3 & e4 & H & Hs & ->)].
  - apply collect_loop in H as (rs & -> & Hrs & m & Hm & Hc).
    exists rs. split; [done|]. left. by exists e, m.
  - apply collect_loop in H as (rs & -> & Hrs & Hlen & H1 & H2).
    rewrite bind_emit in Hs. injection Hs as <- <-.
    exists rs. split; [done|]. right. split.
    + rewrite Hlen. unfold as_completed.
      apply Permutation_length, merge_sort_Permutation.
    + destruct acc as [res' cache']. cbn in *. subst. done.
Qed.

(** ** The report builder *)

Lemma card_of_ok model_dates name r c :
  card_of model_dates name r = Ok c →
  card_name c = name ∧ card_panel c = panel_of r
  ∧ card_date c = default [] (model_dates !! name)
  ∧ format_1f (res_elapsed r) = Ok (card_time c).
Proof.
  unfold card_of. destruct (format_1f (res_elapsed r)) as [t|]; [|done].
  by intros [= <-].
Qed.


(** The cards of a category: one per name that has an entry, in the order
    of the names. *)
Lemma cards_of_ok results model_dates names cs :
  cards_of results model_dates names = Ok cs →
  card_name <$> cs = filter (λ n, is_Some (results !! n)) names
  ∧ Forall (λ c, ∃ r, results !! card_name c = Some r
                    ∧ card_of model_dates (card_name c) r = Ok c) cs.
Proof.
  revert cs. induction names as [|n names IH]; intros cs.
  - by intros [= <-].
  - cbn [cards_of]. destruct (results !! n) as [r|] eqn:R.
    + destruct (card_of model_dates n r) as [c|] eqn:C; [|done].
      destruct (cards_of results model_dates names) as [cs'|]; [|done].
      intros [= <-]. destruct (IH cs' eq_refl) as [H1 H2].
      pose proof (card_of_ok _ _ _ _ C) as (Hn & _).
      split.
      * rewrite fmap_cons, filter_cons_True by by rewrite R. by rewrite Hn, H1.
      * constructor; [|done]. exists r. by rewrite Hn.
    + intros H. destruct (IH cs H) as [H1 H2]. split; [|done].
      rewrite filter_cons_False; [done|]. rewrite R. by intros [? ?].
Qed.


(** A name without an entry contributes nothing. *)
Lemma cards_of_absent results model_dates l1 name l2 :
  results !! name = None →
  cards_of results model_dates (l1 ++ name :: l2)
  = cards_of results model_dates (l1 ++ l2).
Proof.
  intros Hn. induction l1 as [|n l1 IH]; cbn [cards_of app].
  - by rewrite Hn.
  - by rewrite IH.
Qed.

Lemma sections_of_ok categories results model_dates ss :
  sections_of categories results model_dates = Ok ss →
  Forall2 (λ sec cat, sec_title sec = cat.1
                      ∧ cards_of results model_dates cat.2 = Ok (sec_cards sec))
    ss categories.
Proof.
  revert ss. induction categories as [|[t names] cats IH]; intros ss.
  - by intros [= <-].
  - cbn [sections_of].
    destruct (cards_of results model_dates names) as [cs|] eqn:C; [|done].
    destruct (sections_of cats results model_dates) as [ss'|]; [|done].
    intros [= <-]. constructor; [done | by apply IH].
Qed.


Lemma sections_of_absent cats1 t l1 name l2 cats2 results model_dates :
  results !! name = None →
  sections_of (cats1 ++ (t, l1 ++ name :: l2) :: cats2) results model_dates
  = sections_of (cats1 ++ (t, l1 ++ l2) :: cats2) results model_dates.
Proof.
  intros Hn. induction cats1 as [|[t' names] cats1 IH]; cbn [sections_of app].
  - by rewrite cards_of_absent.
  - by rewrite IH.
Qed.

(** The names on the cards of the page. *)
Lemma sections_card_names categories results model_dates ss :
  sections_of categories results model_dates = Ok ss →
  card_name <$> concat (sec_cards <$> ss)
  = filter (λ n, is_Some (results !! n)) (category_names categories).
Proof.
  intros H. apply sections_of_ok in H. unfold category_names.
  induction H as [|sec [t names] ss cats [_ Hc] _ IH]; [done|].
  cbn. rewrite fmap_app, filter_app, IH. f_equal.
  by apply cards_of_ok in Hc as [-> _].
Qed.

(** ** The two counts *)

Lemma count_split (l : list result) :
  (length (List.filter error_is_none l) + length (List.filter error_is_some l)
   = length l)%nat.
Proof.
  induction l as [|r l IH]; [done|]. unfold error_is_some in *. cbn.
  destruct (error_is_none r); cbn; lia.
Qed.

Lemma length_values results : length (values results) = size results.
Proof. unfold values. by rewrite length_fmap, length_map_to_list. Qed.

Lemma success_count_split results :
  (success_count results + length (List.filter error_is_some (values results))
   = size results)%nat.
Proof. unfold success_count. by rewrite count_split, length_values. Qed.

(** ** The two tables *)

Lemma model_names_NoDup : NoDup model_map.*1.
Proof. apply (bool_decide_unpack _). by vm_compute. Qed.

Lemma category_names_NoDup : NoDup (category_names CATEGORIES).
Proof. apply (bool_decide_unpack _). by vm_compute. Qed.

Lemma model_in_category name :
  name ∈ model_map.*1 → name ∈ category_names CATEGORIES.
Proof.
  revert name. apply Forall_forall. apply (bool_decide_unpack _). by vm_compute.
Qed.

Lemma sections_cards_ok categories results model_dates ss :
  sections_of categories results model_dates = Ok ss →
  Forall (λ c, ∃ r, results !! card_name c = Some r
                    ∧ card_of model_dates (card_name c) r = Ok c)
    (concat (sec_cards <$> ss)).
Proof.
  intros H. apply sections_of_ok in H.
  induction H as [|sec [t names] ss cats [_ Hc] _ IH]; [constructor|].
  cbn. apply Forall_app. split; [|done]. by apply cards_of_ok in Hc as [_ ?].
Qed.

Lemma build_html_ok results model_dates doc :
  build_html results model_dates = Ok doc →
  sections_of CATEGORIES results model_dates = Ok (doc_sections doc)
  ∧ doc_total doc = size results
  ∧ doc_success doc = success_count results.
Proof.
  unfold build_html, build_page.
  destruct (sections_of CATEGORIES results model_dates) as [ss|]; [|done].
  by intros [= <-].
Qed.


(** Every entry under a name of the model table has its card. *)
Lemma every_entry_has_a_card results model_dates doc name r :
  build_html results model_dates = Ok doc →
  name ∈ model_map.*1 →
  results !! name = Some r →
  ∃ c, c ∈ cards doc ∧ card_name c = name ∧ card_panel c = panel_of r.
Proof.
  intros H Hm Hr. apply build_html_ok in H as (Hs & _ & _).
  pose proof (sections_card_names _ _ _ _ Hs) as Hn.
  pose proof (sections_cards_ok _ _ _ _ Hs) as Hc.
  assert (name ∈ card_name <$> cards doc) as Hin.
  { unfold cards. rewrite Hn. apply list_elem_of_filter. split.
    - by rewrite Hr.
    - by apply model_in_category. }
  apply list_elem_of_fmap in Hin as (c & -> & Hin). exists c.
  split; [done|]. split; [done|].
  rewrite Forall_forall in Hc. destruct (Hc c Hin) as (r' & Hr' & Hc').
  rewrite Hr in Hr'. injection Hr' as <-. by apply card_of_ok in Hc' as (_ & ? & _).
Qed.

Lemma card_count results model_dates doc :
  build_html results model_dates = Ok doc →
  (∀ name, is_Some (results !! name) → name ∈ model_map.*1) →
  length (cards doc) = size results.
Proof.
  intros H Hkeys. apply build_html_ok in H as (Hs & _ & _).
  pose proof (sections_card_names _ _ _ _ Hs) as Hn.
  rewrite <- (length_fmap card_name). unfold cards. rewrite Hn.
  rewrite <- length_map_to_list, <- (length_fmap fst).
  apply Permutation_length, NoDup_Permutation.
  - apply NoDup_filter, category_names_NoDup.
  - apply NoDup_fst_map_to_list.
  - intros n. rewrite list_elem_of_filter, list_elem_of_fmap. split.
    + intros [[r Hr] _]. exists (n, r). split; [done|].
      by apply elem_of_map_to_list.
    + intros ([n' r] & -> & Hin). apply elem_of_map_to_list in Hin. cbn.
      split; [by rewrite Hin|]. apply model_in_category, Hkeys. by rewrite Hin.
Qed.

(** C6.  The page has one section per category, in the order of the table
    of categories; the cards of a section are those names of the category
    that have an entry, in the order of the category.  A name without an
    entry has no card anywhere, and striking it from the table changes
    nothing on the page, the two counts included: they are read off the
    result map alone. *)
Theorem report_order_and_skips results model_dates doc :
  build_html results model_dates = Ok doc →
  Forall2 (λ sec cat,
             sec_title sec = cat.1
             ∧ card_name <$> sec_cards sec
               = filter (λ n, is_Some (results !! n)) cat.2)
    (doc_sections doc) CATEGORIES
  ∧ (∀ name, results !! name = None → name ∉ card_name <$> cards doc)
  ∧ (∀ cats1 t l1 name l2 cats2,
       results !! name = None →
       build_page (cats1 ++ (t, l1 ++ name :: l2) :: cats2) results model_dates
       = build_page (cats1 ++ (t, l1 ++ l2) :: cats2) results model_dates)
  ∧ doc_total doc = size results
  ∧ doc_success doc = success_count results.
Proof.
  intros H. pose proof (build_html_ok _ _ _ H) as (Hs & Ht & Hc).
  split.
  { apply sections_of_ok in Hs. eapply Forall2_impl; [exact Hs|].
    intros sec cat [H1 H2]. split; [done|]. by apply cards_of_ok in H2 as [? _]. }
  split.
  { intros name Hn. unfold cards. rewrite (sections_card_names _ _ _ _ Hs).
    rewrite list_elem_of_filter, Hn. by intros [[? ?] _]. }
  split; [|done].
  intros cats1 t l1 name l2 cats2 Hn. unfold build_page.
  by rewrite sections_of_absent.
Qed.

Lemma report_order_and_skips_witness :
  Forall2 (λ sec cat,
             sec_title sec = cat.1
             ∧ card_name <$> sec_cards sec
               = filter (λ n, is_Some (example_results !! n)) cat.2)
    (doc_sections example_document) CATEGORIES
  ∧ (∀ name, example_results !! name = None →
             name ∉ card_name <$> cards example_document)
  ∧ (∀ cats1 t l1 name l2 cats2,
       example_results !! name = None →
       build_page (cats1 ++ (t, l1 ++ name :: l2) :: cats2)
         example_results model_dates
       = build_page (cats1 ++ (t, l1 ++ l2) :: cats2)
           example_results model_dates)
  ∧ doc_total example_document = size example_results
  ∧ doc_success example_document = success_count example_results.
Proof.
  apply (report_order_and_skips example_results model_dates example_document).
  vm_compute. reflexivity.
Defined.

(** C5.  The page shows as total the number of entries of the result map
    and as successes the number of entries whose error is [None].  So with
    [K] entries that carry an error, the success count is the number of
    entries less [K]; and when the entries are models of the table, as those
    that [main] merges are, each of them has its card, an error panel when
    there is a message to show and the output otherwise, and there are as
    many cards as entries. *)
Theorem report_totals results model_dates doc :
  build_html results model_dates = Ok doc →
  doc_total doc = size results
  ∧ doc_success doc = length (List.filter error_is_none (values results))
  ∧ (∀ K, length (List.filter error_is_some (values results)) = K →
          doc_success doc = (size results - K)%nat)
  ∧ ((∀ name, is_Some (results !! name) → name ∈ model_map.*1) →
     length (cards doc) = size results
     ∧ ∀ name r, results !! name = Some r →
         ∃ c, c ∈ cards doc ∧ card_name c = name ∧ card_panel c = panel_of r).
Proof.
  intros H. pose proof (build_html_ok _ _ _ H) as (Hs & Ht & Hc).
  split; [done|]. split; [done|]. split.
  { intros K HK. pose proof (success_count_split results). lia. }
  intros Hkeys. split; [by eapply card_count|].
  intros name r Hr. eapply every_entry_has_a_card; [done| |done].
  apply Hkeys. by rewrite Hr.
Qed.

Lemma report_totals_witness :
  doc_total example_document = 3%nat
  ∧ doc_success example_document = 2%nat
  ∧ cards example_document ≠ []
  ∧ doc_success example_document
    = (size example_results - 1)%nat.
Proof.
  destruct (report_totals example_results model_dates example_document)
    as (H1 & H2 & H3 & H4); [vm_compute; reflexivity|].
  split; [exact H1|]. split; [exact H2|]. split; [by vm_compute|].
  apply H3. vm_compute. reflexivity.
Defined.

(** ** Report and summary (lines 334-347) *)

Lemma bind_ok {A B} (a : A) evs (f : A → prog B) :
  ((Ok a, evs) ≫= f) = ((f a).1, evs ++ (f a).2).
Proof. unfold mbind, prog_bind. by destruct (f a). Qed.

Lemma status_only_quiet evs :
  status_only evs →
  used_caches evs = [] ∧ submitted evs = [] ∧ collected evs = []
  ∧ saved_caches evs = [] ∧ reports evs = [].
Proof.
  unfold used_caches, submitted, collected, saved_caches, reports.
  induction 1 as [|e evs (n & t & s & ->) _ IH]; [done|]. exact IH.
Qed.

Lemma status_line_cases results name :
  status_line results name
  = match results !! name with
    | None => (Ok (), [])
    | Some r =>
        match format_1f (res_elapsed r) with
        | Ok time => (Ok (), [StatusLine name time (status_of r)])
        | Raise e => (Raise e, [])
        end
    end.
Proof.
  unfold status_line. destruct (results !! name) as [r|]; [|done].
  destruct (format_1f (res_elapsed r)) as [t|e].
  - by rewrite bind_lift_ok.
  - by rewrite bind_lift_raise.
Qed.

Lemma format_1f_ok v time : format_1f v = Ok time → time = v.
Proof.
  destruct v as [| |n| | | |]; cbn [format_1f]; try by intros [= <-].
  by destruct (float_range n); intros [= <-].
Qed.

Lemma status_loop results (models : list (text * text)) :
  ∃ o lines,
    for_each (λ _ m, status_line results m.1) models () = (o, lines)
    ∧ status_only lines
    ∧ ((∀ n r, results !! n = Some r → printable r) →
       o = Ok ()
       ∧ lines = omap (λ m : text * text,
                         r ← results !! m.1;
                         Some (StatusLine m.1 (res_elapsed r) (status_of r)))
                   models).
Proof.
  induction models as [|m models (o & lines & IH & Hs & Hp)].
  - exists (Ok ()), []. split; [done|]. split; [constructor|]. done.
  - cbn [for_each]. rewrite status_line_cases.
    destruct (results !! m.1) as [r|] eqn:R.
    + destruct (format_1f (res_elapsed r)) as [t|e] eqn:F.
      * exists o, (StatusLine m.1 t (status_of r) :: lines).
        split; [by rewrite bind_ok, IH|]. split.
        { constructor; [eauto|done]. }
        intros H. destruct (Hp H) as [-> ->]. split; [done|]. cbn.
        rewrite R. cbn. by rewrite (format_1f_ok _ _ F).
      * exists (Raise e), []. split; [done|]. split; [constructor|].
        intros H. destruct (H _ _ R) as [t Ht]. congruence.
    + exists o, lines. split; [by rewrite bind_ok, IH|]. split; [done|].
      intros H. destruct (Hp H) as [-> ->]. split; [done|]. cbn. by rewrite R.
Qed.

Lemma write_report_raises w doc e :
  write_report w doc = Raise e → e = UnicodeEncodeError.
Proof.
  unfold write_report. by destruct (forallb _ _); intros [= <-].
Qed.

(** The report and the summary: the page cannot be built or cannot be
    written, and nothing is done; or the page is written and the summary
    follows. *)
Lemma wrap_up_cases w results o evs :
  wrap_up w results = (o, evs) →
  (∃ e, o = Raise e ∧ evs = []
        ∧ (build_html results model_dates = Raise e
           ∨ ∃ doc, build_html results model_dates = Ok doc
                    ∧ write_report w doc = Raise e))
  ∨ (∃ doc lines,
       build_html results model_dates = Ok doc
       ∧ write_report w doc = Ok ()
       ∧ evs = ReportWritten doc
               :: Tally (success_count results) (size results) :: lines
       ∧ status_only lines
       ∧ ((∀ n r, results !! n = Some r → printable r) →
          o = Ok () ∧ lines = summary_lines results)).
Proof.
  unfold wrap_up. destruct (build_html results model_dates) as [doc|e].
  - rewrite bind_lift_ok. destruct (write_report w doc) as [[]|e] eqn:W.
    + rewrite bind_lift_ok, !bind_emit.
      destruct (status_loop results model_map) as (o' & lines & -> & Hs & Hp).
      intros [= <- <-]. right. exists doc, lines. done.
    + rewrite bind_lift_raise. intros [= <- <-]. left. exists e.
      split; [done|]. split; [done|]. right. by exists doc.
  - rewrite bind_lift_raise. intros [= <- <-]. left. exists e. auto.
Qed.

(** ** Writing the page (lines 336-338) *)

Lemma encodes_app w s t : encodes w (s ++ t) ↔ encodes w s ∧ encodes w t.
Proof. unfold encodes. rewrite forallb_app. apply andb_true_iff. Qed.

Lemma basic_latin_encodes w s : basic_latin s = true → encodes w s.
Proof.
  unfold basic_latin, encodes. induction s as [|c s IH]; [done|].
  cbn [forallb]. intros [Hc Hs]%andb_true_iff. unfold encodable at 1.
  rewrite Hc. cbn [orb andb]. by apply IH.
Qed.

Lemma categories_basic_latin :
  forallb (λ cat, basic_latin cat.1 && forallb basic_latin cat.2) CATEGORIES
  = true.
Proof. by vm_compute. Qed.

Lemma dates_basic_latin : forallb (λ m, basic_latin m.2) MODELS = true.
Proof. by vm_compute. Qed.

Lemma date_encodes w name : encodes w (default [] (model_dates !! name)).
Proof.
  destruct (model_dates !! name) as [d|] eqn:E; [|done]. cbn [default].
  apply basic_latin_encodes. unfold model_dates in E.
  apply elem_of_list_to_map_2, list_elem_of_fmap in E as (m & [= _ ->] & Hm).
  pose proof dates_basic_latin as H. rewrite forallb_forall in H.
  apply (H m). by apply list_elem_of_In.
Qed.

(** The cards of a category can be written exactly when the panels of
    its entries can. *)
Lemma cards_text w results names cs :
  forallb basic_latin names = true →
  cards_of results model_dates names = Ok cs →
  encodes w (flat_map (card_text w) cs)
  ↔ ∀ n r, n ∈ names → results !! n = Some r → legible w r.
Proof.
  revert cs. induction names as [|n names IH]; intros cs Hb.
  - intros [= <-]. split; [|done]. intros _ n r Hin. by apply elem_of_nil in Hin.
  - cbn [forallb] in Hb. apply andb_true_iff in Hb as [Hn Hb].
    cbn [cards_of]. destruct (results !! n) as [r|] eqn:R.
    + destruct (card_of model_dates n r) as [c|] eqn:C; [|done].
      destruct (cards_of results model_dates names) as [cs'|]; [|done].
      intros [= <-]. specialize (IH cs' Hb eq_refl).
      apply card_of_ok in C as (Hc1 & Hc2 & Hc3 & _).
      cbn [flat_map]. unfold card_text at 1.
      rewrite !encodes_app, Hc1, Hc2, Hc3, IH. split.
      * intros [(_ & _ & Hp) Hrest] n' r' [->|Hin]%elem_of_cons Hr'; [|eauto].
        rewrite R in Hr'. by injection Hr' as <-.
      * intros H. split.
        { split; [by apply basic_latin_encodes|]. split; [apply date_encodes|].
          apply (H n r); [apply list_elem_of_here | done]. }
        intros n' r' Hin. apply H. by apply list_elem_of_further.
    + intros H. rewrite (IH cs Hb H). split.
      * intros Hall n' r' [->|Hin]%elem_of_cons Hr'; [congruence|eauto].
      * intros Hall n' r' Hin. apply Hall. by apply list_elem_of_further.
Qed.

Lemma sections_text w categories results ss :
  forallb (λ cat, basic_latin cat.1 && forallb basic_latin cat.2) categories
  = true →
  sections_of categories results model_dates = Ok ss →
  encodes w (flat_map (λ s, sec_title s ++ flat_map (card_text w) (sec_cards s))
               ss)
  ↔ ∀ n r, n ∈ category_names categories → results !! n = Some r → legible w r.
Proof.
  revert ss. induction categories as [|[t names] cats IH]; intros ss Hb.
  - intros [= <-]. split; [|done]. intros _ n r Hin. by apply elem_of_nil in Hin.
  - cbn [forallb fst snd] in Hb.
    apply andb_true_iff in Hb as [[Ht Hns]%andb_true_iff Hb].
    cbn [sections_of].
    destruct (cards_of results model_dates names) as [cs|] eqn:C; [|done].
    destruct (sections_of cats results model_dates) as [ss'|] eqn:S; [|done].
    intros [= <-]. cbn [flat_map sec_title sec_cards]. rewrite !encodes_app.
    rewrite (IH ss' Hb eq_refl), (cards_text w results names cs Hns C).
    unfold category_names. cbn [fmap list_fmap concat snd]. split.
    + intros [[_ H1] H2] n r [Hin|Hin]%elem_of_app; eauto.
    + intros H. split; [split; [by apply basic_latin_encodes|]|].
      * intros n r Hin. apply H, elem_of_app. by left.
      * intros n r Hin. apply H, elem_of_app. by right.
Qed.

(** Line 338 goes through exactly when the encoding of the file has what
    the panels of the page show. *)
Lemma write_report_ok w results doc :
  build_html results model_dates = Ok doc →
  write_report w doc = Ok ()
  ↔ ∀ n r, n ∈ category_names CATEGORIES → results !! n = Some r → legible w r.
Proof.
  unfold build_html, build_page.
  destruct (sections_of CATEGORIES results model_dates) as [ss|] eqn:S; [|done].
  intros [= <-]. unfold write_report, page_text. cbn [doc_sections].
  rewrite <- (sections_text w CATEGORIES results ss categories_basic_latin S).
  unfold encodes. by destruct (forallb _ _).
Qed.

(** ** The whole of [main] *)

Lemma main_cases w cache o evs :
  main w cache = (o, evs) →
  ∃ used,
    Forall (λ n, is_hit cache n = true ∧ n ∈ model_map.*1) used
    ∧ ((∃ e, o = Raise e ∧ evs = UsedCache <$> used
             ∧ sort_models cache = (Raise e, evs))
       ∨ (∃ results0 o_d evs_d,
            used = filter (λ n, is_hit cache n) model_map.*1
            ∧ (∀ n, results0 !! n
                    = if decide (n ∈ used) then hit_value cache n else None)
            ∧ Forall (λ m, is_hit cache m.1 = true
                           → is_Some (hit_value cache m.1)) model_map
            ∧ dispatch w results0 cache (needs_call cache) = (o_d, evs_d)
            ∧ ((∃ e, o_d = Raise e ∧ o = Raise e
                     ∧ evs = (UsedCache <$> used) ++ evs_d)
               ∨ (∃ merged evs_w,
                    o_d = Ok merged
                    ∧ wrap_up w merged.1 = (o, evs_w)
                    ∧ evs = (UsedCache <$> used) ++ evs_d ++ evs_w)))).
Proof.
  unfold main, sort_models. intros H.
  apply bind_inv in H as [(e & H & ->)|(sorted & e1 & e2 & H & Hrest & ->)].
  - pose proof H as Hsort.
    apply sort_loop in H as (used & -> & Hused & _). exists used.
    split; [done|]. left. by exists e.
  - apply sort_loop in H as (used & -> & Hused & Hok). exists used.
    split; [done|]. right.
    destruct (Hok sorted eq_refl) as (Hu & H2 & Hv & H1).
    cbn [fst snd] in H1, H2. rewrite app_nil_l in H2.
    fold (needs_call cache) in H2. rewrite H2 in Hrest.
    exists sorted.1.
    apply bind_inv in Hrest
      as [(e & H & ->)|(merged & e3 & e4 & H & Hw & ->)].
    + exists (Raise e), e2. split; [done|].
      split; [intros n; by rewrite H1, lookup_empty|].
      split; [done|]. split; [done|]. left. by exists e.
    + exists (Ok merged), e3. split; [done|].
      split; [intros n; by rewrite H1, lookup_empty|].
      split; [done|]. split; [done|]. right. by exists merged, e4.
Qed.

(** The script: start-up, then [main]. *)
Lemma script_cases w st :
  (∃ e, API_KEY w = Raise e ∧ script w st = (Raise e, []))
  ∨ (∃ key e, API_KEY w = Ok key ∧ load_cache st = Raise e
              ∧ script w st = (Raise e, []))
  ∨ (∃ key cache, API_KEY w = Ok key ∧ load_cache st = Ok cache
                  ∧ script w st = main w cache).
Proof.
  unfold script. destruct (API_KEY w) as [key|e].
  - rewrite bind_lift_ok. destruct (load_cache st) as [cache|e].
    + rewrite bind_lift_ok. right. right. by exists key, cache.
    + rewrite bind_lift_raise. right. left. by exists key, e.
  - rewrite bind_lift_raise. left. by exists e.
Qed.

(** The shape of a run.  Start-up fails and nothing is done; or the
    sorting loop raises on an entry of the cache; or a call raises and the
    run ends at line 326; or the calls are collected, the cache is saved if
    there were calls, and the report and the summary follow. *)
Lemma run_shape w st o evs :
  script w st = (o, evs) →
  (evs = [] ∧ ∃ e, o = Raise e ∧ (API_KEY w = Raise e ∨ load_cache st = Raise e))
  ∨ ∃ cache,
      load_cache st = Ok cache
      ∧ is_Some (match API_KEY w with Ok k => Some k | Raise _ => None end)
      ∧ ((∃ used e, o = Raise e ∧ evs = UsedCache <$> used
                    ∧ Forall (λ n, is_hit cache n = true) used
                    ∧ sort_models cache = (Raise e, evs))
         ∨ ∃ results0 rs,
             from_cache cache results0
             ∧ Forall (λ m, is_hit cache m.1 = true
                            → is_Some (hit_value cache m.1)) model_map
             ∧ Forall2 (λ m r, call_of w m = Ok r)
                 (take (length rs) (as_completed w (needs_call cache))) rs
             ∧ ((∃ e m, o = Raise e
                        ∧ as_completed w (needs_call cache) !! length rs = Some m
                        ∧ call_of w m = Raise e
                        ∧ evs = (UsedCache <$> hits cache)
                                ++ submit_events cache ++ (Collected <$> rs))
                ∨ (length rs = length (needs_call cache)
                   ∧ ∃ evs_w,
                       wrap_up w (foldl record_result results0 rs) = (o, evs_w)
                       ∧ evs = (UsedCache <$> hits cache)
                               ++ submit_events cache ++ (Collected <$> rs)
                               ++ save_events cache rs ++ evs_w))).
Proof.
  intros H.
  destruct (script_cases w st)
    as [(e & Hk & Hs)|[(key & e & Hk & Hl & Hs)|(key & cache & Hk & Hl & Hs)]].
  - rewrite Hs in H. injection H as <- <-. left. split; [done|]. exists e. auto.
  - rewrite Hs in H. injection H as <- <-. left. split; [done|]. exists e. auto.
  - rewrite Hs in H. right. exists cache. split; [done|].
    split; [by rewrite Hk|].
    apply main_cases in H as (used & Hused & [(e & -> & -> & Hsort)|H]).
    { left. exists used, e. split; [done|]. split; [done|].
      split; [|done].
      eapply Forall_impl; [exact Hused|]. by intros n [? _]. }
    destruct H as (results0 & o_d & evs_d & -> & Hr0 & Hv & Hd & Hrest).
    fold (hits cache) in *. right. exists results0.
    apply dispatch_cases in Hd
      as [(Hn & -> & ->)|(Hn & rs & Hrs & [(e & m & -> & Hm & Hc & ->)|(Hlen & -> & ->)])].
    + exists []. split; [done|]. split; [done|]. split; [constructor|].
      right. split; [by rewrite Hn|].
      destruct Hrest as [(e & [=] & _)|(merged & evs_w & [= <-] & Hw & ->)].
      exists evs_w. split; [done|]. unfold submit_events, save_events.
      rewrite Hn. reflexivity.
    + exists rs. split; [done|]. split; [done|]. split; [done|]. left.
      destruct Hrest as [(e' & [= <-] & -> & ->)|(merged & evs_w & [=] & _)].
      by exists e, m.
    + exists rs. split; [done|]. split; [done|]. split; [done|]. right.
      split; [done|].
      destruct Hrest as [(e' & [=] & _)|(merged & evs_w & [= <-] & Hw & ->)].
      exists evs_w. split; [done|]. unfold submit_events, save_events.
      destruct (needs_call cache); [done|]. by rewrite <- !app_assoc.
Qed.

(** ** Facts about the calls of a run *)

Lemma calls_names w ms rs :
  Forall2 (λ m r, call_of w m = Ok r) ms rs → cr_name <$> rs = ms.*1.
Proof.
  induction 1 as [|m r ms rs H _ IH]; [done|]. cbn. rewrite IH. f_equal.
  unfold call_of in H. by apply call_model_ok in H as [? _].
Qed.

Lemma as_completed_perm w to_call : as_completed w to_call ≡ₚ to_call.
Proof. apply merge_sort_Permutation. Qed.

Lemma all_calls_collected w to_call rs :
  Forall2 (λ m r, call_of w m = Ok r)
    (take (length rs) (as_completed w to_call)) rs →
  length rs = length to_call →
  Forall2 (λ m r, call_of w m = Ok r) (as_completed w to_call) rs
  ∧ cr_name <$> rs ≡ₚ to_call.*1.
Proof.
  intros H Hlen. rewrite take_ge in H
    by (rewrite Hlen; apply Nat.eq_le_incl, Permutation_length, as_completed_perm).
  split; [done|]. rewrite (calls_names _ _ _ H). apply fmap_Permutation.
  apply as_completed_perm.
Qed.



Lemma wrap_up_quiet w results o evs :
  wrap_up w results = (o, evs) →
  used_caches evs = [] ∧ submitted evs = [] ∧ collected evs = []
  ∧ saved_caches evs = [].
Proof.
  intros H. apply wrap_up_cases in H
    as [(e & _ & -> & _)|(doc & lines & _ & _ & -> & Hs & _)]; [done|].
  by destruct (status_only_quiet _ Hs) as (? & ? & ? & ? & _).
Qed.


(** The events of each kind in the log of a run that got past its calls. *)
Lemma full_log_kinds cache rs evs_w :
  used_caches evs_w = [] → submitted evs_w = [] → collected evs_w = [] →
  saved_caches evs_w = [] →
  let log := (UsedCache <$> hits cache) ++ submit_events cache
             ++ (Collected <$> rs) ++ save_events cache rs ++ evs_w in
  used_caches log = hits cache
  ∧ submitted log = needs_call cache
  ∧ collected log = rs
  ∧ saved_caches log = saved_caches (save_events cache rs).
Proof.
  intros W1 W2 W3 W4 log. unfold log.
  destruct (only_used (hits cache)) as (U1 & U2 & U3 & U4 & _).
  destruct (only_submitted (needs_call cache)) as (S1 & S2 & S3 & S4 & _).
  destruct (only_collected rs) as (C1 & C2 & C3 & C4 & _).
  fold (submit_events cache) in S1, S2, S3, S4.
  assert (used_caches (save_events cache rs) = []
          ∧ submitted (save_events cache rs) = []
          ∧ collected (save_events cache rs) = []) as (V1 & V2 & V3).
  { unfold save_events. by destruct (needs_call cache). }
  rewrite !used_caches_app, !submitted_app, !collected_app, !saved_caches_app.
  rewrite U1, U2, U3, U4, S1, S2, S3, S4, C1, C2, C3, C4, V1, V2, V3.
  rewrite W1, W2, W3, W4. by rewrite !app_nil_r.
Qed.


(** ** Hits and misses *)

Lemma is_hit_truthy cache name :
  is_hit cache name = true
  ↔ ∃ entry svg, cache !! name = Some entry
                 ∧ get_method entry (cps "svg") = Ok svg
                 ∧ truthy svg = true.
Proof.
  unfold is_hit, cached. split.
  - destruct (cache !! name) as [entry|]; [|done].
    destruct (get_method entry (cps "svg")) as [svg|] eqn:G; [|done].
    cbn. destruct (truthy svg) eqn:T; [|done]. intros _. by exists entry, svg.
  - intros (entry & svg & -> & -> & T). cbn. by rewrite T.
Qed.

Lemma is_miss_falsy cache name entry svg :
  cache !! name = Some entry →
  get_method entry (cps "svg") = Ok svg →
  truthy svg = false →
  is_miss cache name = true ∧ is_hit cache name = false.
Proof.
  intros H1 H2 H3. unfold is_miss, is_hit, cached. rewrite H1, H2. cbn.
  by rewrite H3.
Qed.

Lemma hit_not_miss cache name :
  is_hit cache name = true → is_miss cache name = false.
Proof. unfold is_hit, is_miss. by destruct (cached cache name) as [[|]|]. Qed.

Lemma elem_of_needs_call cache m :
  m ∈ needs_call cache ↔ is_miss cache m.1 = true ∧ m ∈ model_map.
Proof.
  unfold needs_call. by rewrite list_elem_of_filter, Is_true_true.
Qed.

Lemma elem_of_hits cache n :
  n ∈ hits cache ↔ is_hit cache n = true ∧ n ∈ model_map.*1.
Proof.
  unfold hits. by rewrite list_elem_of_filter, Is_true_true.
Qed.

Lemma needs_call_names_NoDup cache : NoDup (needs_call cache).*1.
Proof.
  unfold needs_call. generalize model_names_NoDup.
  generalize model_map as l. induction l as [|m l IH]; [constructor|].
  rewrite fmap_cons. intros Hnd. apply NoDup_cons in Hnd as [Hm Hl].
  destruct (decide (is_miss cache m.1)) as [Hy|Hn].
  - rewrite filter_cons_True by done. rewrite fmap_cons. apply NoDup_cons.
    split; [|by apply IH]. intros Hin. apply Hm.
    apply list_elem_of_fmap in Hin as (m' & -> & Hin).
    apply list_elem_of_filter in Hin as [_ Hin].
    apply list_elem_of_fmap. by exists m'.
  - rewrite filter_cons_False by done. by apply IH.
Qed.

(** What a run with a loaded cache takes from it and what it submits. *)
Lemma run_kinds w st cache :
  load_cache st = Ok cache →
  let log := run_log (program w st) in
  Forall (λ n, is_hit cache n = true) (used_caches log)
  ∧ (submitted log = [] ∨ submitted log = needs_call cache)
  ∧ (∃ ms, ms ⊆ as_completed w (needs_call cache)
           ∧ Forall2 (λ m r, call_of w m = Ok r) ms (collected log))
  ∧ (run_exit (program w st) = 0%Z →
     used_caches log = hits cache
     ∧ submitted log = needs_call cache
     ∧ Forall2 (λ m r, call_of w m = Ok r)
         (as_completed w (needs_call cache)) (collected log)
     ∧ cr_name <$> collected log ≡ₚ (needs_call cache).*1).
Proof.
  intros Hl. unfold program. cbn [run_log run_exit].
  destruct (script w st) as [o evs] eqn:S. cbn [fst snd].
  apply run_shape in S
    as [(-> & e & -> & [Hk|Hl'])
       |(cache' & Hl' & _ & [(used & e & -> & -> & Hused & _)|S])].
  - split; [constructor|]. split; [by left|]. split; [|done].
    exists []. split; [by intros ? ?%elem_of_nil | constructor].
  - congruence.
  - destruct (only_used used) as (U1 & U2 & U3 & _).
    rewrite U1, U2, U3. rewrite Hl in Hl'. injection Hl' as <-.
    split; [done|]. split; [by left|]. split; [|done].
    exists []. split; [by intros ? ?%elem_of_nil | constructor].
  - rewrite Hl in Hl'. injection Hl' as <-.
    destruct S as (results0 & rs & _ & _ & Hrs & [(e & m & -> & _ & _ & ->)|S]).
    + destruct (only_used (hits cache)) as (U1 & U2 & U3 & _).
      destruct (only_submitted (needs_call cache)) as (S1 & S2 & S3 & _).
      destruct (only_collected rs) as (C1 & C2 & C3 & _).
      fold (submit_events cache) in S1, S2, S3.
      rewrite !used_caches_app, !submitted_app, !collected_app.
      rewrite U1, U2, U3, S1, S2, S3, C1, C2, C3. rewrite !app_nil_r.
      rewrite !app_nil_l.
      split.
      { apply Forall_forall. intros n Hn. by apply elem_of_hits in Hn as [? _]. }
      split; [by right|]. split; [|done].
      exists (take (length rs) (as_completed w (needs_call cache))).
      split; [apply subseteq_take | done].
    + destruct S as (Hlen & evs_w & Hw & ->).
      destruct (wrap_up_quiet _ _ _ _ Hw) as (W1 & W2 & W3 & W4).
      destruct (full_log_kinds cache rs evs_w W1 W2 W3 W4) as (K1 & K2 & K3 & K4).
      rewrite K1, K2, K3.
      destruct (all_calls_collected _ _ _ Hrs Hlen) as [Hall Hperm].
      split.
      { apply Forall_forall. intros n Hn. by apply elem_of_hits in Hn as [? _]. }
      split; [by right|]. split; [|done].
      exists (as_completed w (needs_call cache)). done.
Qed.

(** C10, as amended.  A model whose cache entry has no [svg], an empty one
    or any other falsy one is not taken from the cache: it is among the
    models that need a call, no run uses its entry, and every run that gets
    as far as submitting calls submits one for it (and, when the run
    reaches its end, has collected its result).  The entries that spare the
    call are those whose [svg] is truthy; for a text that means non-empty. *)
Theorem falsy_svg_is_called_again cache name model_id entry svg :
  (name, model_id) ∈ model_map →
  cache !! name = Some entry →
  get_method entry (cps "svg") = Ok svg →
  truthy svg = false →
  (name, model_id) ∈ needs_call cache
  ∧ (name ∉ hits cache)
  ∧ (∀ w st,
       load_cache st = Ok cache →
       (name ∉ used_caches (run_log (program w st)))
       ∧ ((submitted (run_log (program w st)) ≠ []
           ∨ run_exit (program w st) = 0%Z) →
          (name, model_id) ∈ submitted (run_log (program w st)))
       ∧ (run_exit (program w st) = 0%Z →
          ∃ r, r ∈ collected (run_log (program w st)) ∧ cr_name r = name))
  ∧ (∀ name',
       name' ∈ hits cache →
       ∃ entry' svg',
         cache !! name' = Some entry'
         ∧ get_method entry' (cps "svg") = Ok svg'
         ∧ truthy svg' = true
         ∧ ∀ s, svg' = VStr s → s ≠ []).
Proof.
  intros Hm He Hg Ht.
  destruct (is_miss_falsy _ _ _ _ He Hg Ht) as [Hmiss Hhit].
  assert ((name, model_id) ∈ needs_call cache) as Hin
    by by apply elem_of_needs_call.
  split; [done|]. split.
  { rewrite elem_of_hits. intros [? _]. congruence. }
  split.
  - intros w st Hl. destruct (run_kinds w st cache Hl) as (Hu & Hs & _ & Hend).
    split.
    { intros Hn. rewrite Forall_forall in Hu. specialize (Hu _ Hn). congruence. }
    split.
    + intros [Hne|Hz].
      * destruct Hs as [Hs|Hs]; [done | by rewrite Hs].
      * destruct (Hend Hz) as (_ & -> & _). done.
    + intros Hz. destruct (Hend Hz) as (_ & _ & _ & Hperm).
      assert (name ∈ cr_name <$> collected (run_log (program w st))) as Hc.
      { rewrite Hperm. apply list_elem_of_fmap. by exists (name, model_id). }
      apply list_elem_of_fmap in Hc as (r & -> & Hr). by exists r.
  - intros name' [Hh _]%elem_of_hits.
    apply is_hit_truthy in Hh as (entry' & svg' & H1 & H2 & H3).
    exists entry', svg'. split; [done|]. split; [done|]. split; [done|].
    intros s -> ->. done.
Qed.

Lemma falsy_svg_is_called_again_witness :
  (cps "GPT-5", cps "openai/gpt-5") ∈ needs_call stale_cache
  ∧ (cps "GPT-5", cps "openai/gpt-5")
    ∈ submitted (run_log (program example_world (Stored stale_cache))).
Proof.
  destruct (falsy_svg_is_called_again stale_cache (cps "GPT-5")
              (cps "openai/gpt-5")
              (VDict [(cps "svg", VStr []); (cps "elapsed", VFloat 2%float)])
              (VStr []))
    as (H1 & _ & H3 & _).
  - apply (bool_decide_unpack _). by vm_compute.
  - by vm_compute.
  - reflexivity.
  - reflexivity.
  - split; [exact H1|].
    destruct (H3 example_world (Stored stale_cache) eq_refl) as (_ & H & _).
    apply H. right. by vm_compute.
Defined.

(** C10, as stated, at a cache entry whose [svg] is the number 1: the
    entry is no text, and yet the model is taken from the cache and no call
    is submitted for it. *)
Lemma truthy_svg_need_not_be_text :
  odd_cache !! cps "GPT-5"
  = Some (VDict [(cps "svg", VInt 1); (cps "elapsed", VFloat 2%float)])
  ∧ is_hit odd_cache (cps "GPT-5") = true
  ∧ used_caches (run_log (program example_world (Stored odd_cache)))
    = [cps "GPT-5"]
  ∧ bool_decide
      (cps "GPT-5"
       ∈ (submitted (run_log (program example_world (Stored odd_cache)))).*1)
    = false
  ∧ run_exit (program example_world (Stored odd_cache)) = 0%Z.
Proof. by vm_compute. Qed.

(** ** The cache over the runs *)

Lemma load_cache_entry st cache n :
  load_cache st = Ok cache → cache !! n = stored_entry st n.
Proof. destruct st; intros [= <-]; [apply lookup_empty | done]. Qed.

(** A run either saves nothing, or it saves once, after all its calls. *)
Lemma run_saves w st :
  let log := run_log (program w st) in
  saved_caches log = []
  ∨ ∃ cache,
      load_cache st = Ok cache
      ∧ needs_call cache ≠ []
      ∧ saved_caches log = [foldl record_cache cache (collected log)]
      ∧ Forall2 (λ m r, call_of w m = Ok r)
          (as_completed w (needs_call cache)) (collected log)
      ∧ cr_name <$> collected log ≡ₚ (needs_call cache).*1.
Proof.
  unfold program. cbn [run_log run_exit].
  destruct (script w st) as [o evs] eqn:S. cbn [fst snd].
  apply run_shape in S
    as [(-> & _)|(cache & Hl & _ & [(used & e & -> & -> & _ & _)|S])].
  - by left.
  - left. by destruct (only_used used) as (_ & _ & _ & ? & _).
  - destruct S as (results0 & rs & _ & _ & Hrs & [(e & m & -> & _ & _ & ->)|S]).
    + left.
      destruct (only_used (hits cache)) as (_ & _ & _ & U4 & _).
      destruct (only_submitted (needs_call cache)) as (_ & _ & _ & S4 & _).
      destruct (only_collected rs) as (_ & _ & _ & C4 & _).
      fold (submit_events cache) in S4.
      by rewrite !saved_caches_app, U4, S4, C4.
    + destruct S as (Hlen & evs_w & Hw & ->).
      destruct (wrap_up_quiet _ _ _ _ Hw) as (W1 & W2 & W3 & W4).
      destruct (full_log_kinds cache rs evs_w W1 W2 W3 W4) as (K1 & K2 & K3 & K4).
      rewrite K3, K4. unfold save_events.
      destruct (all_calls_collected _ _ _ Hrs Hlen) as [Hall Hperm].
      destruct (needs_call cache) as [|m0 l] eqn:Hn; [by left|].
      right. exists cache. rewrite Hn. done.
Qed.

Lemma store_after_cases w st :
  store_after st (program w st) = st
  ∨ ∃ cache,
      load_cache st = Ok cache
      ∧ needs_call cache ≠ []
      ∧ store_after st (program w st)
        = Stored (foldl record_cache cache (collected (run_log (program w st))))
      ∧ Forall2 (λ m r, call_of w m = Ok r)
          (as_completed w (needs_call cache))
          (collected (run_log (program w st)))
      ∧ cr_name <$> collected (run_log (program w st))
        ≡ₚ (needs_call cache).*1.
Proof.
  unfold store_after.
  destruct (run_saves w st) as [->|(cache & Hl & Hn & -> & Hc & Hp)].
  - by left.
  - right. by exists cache.
Qed.

Lemma foldl_record_cache_lookup rs cache n entry :
  foldl record_cache cache rs !! n = Some entry →
  cache !! n = Some entry
  ∨ ∃ r, r ∈ rs ∧ worth_caching r = true ∧ cr_name r = n
         ∧ entry = cache_entry r.
Proof.
  revert cache. induction rs as [|r rs IH]; intros cache; [by left|].
  cbn. intros H. apply IH in H as [H|(r' & Hin & Hr')].
  - unfold record_cache in H. destruct (worth_caching r) eqn:W; [|by left].
    destruct (decide (cr_name r = n)) as [<-|Hne].
    + rewrite lookup_insert_eq in H. injection H as <-. right. exists r.
      split; [apply list_elem_of_here | done].
    + rewrite lookup_insert_ne in H by done. by left.
  - right. exists r'. split; [by apply list_elem_of_further | done].
Qed.

Lemma foldl_record_cache_other rs cache n :
  (∀ r, r ∈ rs → cr_name r = n → worth_caching r = false) →
  foldl record_cache cache rs !! n = cache !! n.
Proof.
  revert cache. induction rs as [|r rs IH]; intros cache H; [done|].
  cbn. rewrite IH by (intros r' Hin; apply H; by apply list_elem_of_further).
  unfold record_cache. destruct (worth_caching r) eqn:W; [|done].
  rewrite lookup_insert_ne; [done|]. intros Hn.
  rewrite (H r) in W; [done | apply list_elem_of_here | done].
Qed.

(** An output that a call returned was extracted from some reply. *)
Lemma call_model_svg wording name model_id a r svg :
  call_model wording name model_id a = Ok r →
  cr_svg r = Some svg →
  svg ≠ [] ∧ cr_error r = None ∧ ∃ content, extract_svg content = Some svg.
Proof.
  unfold call_model. destruct (happened a) as [data|code read|e].
  - unfold read_answer.
    destruct (content_of data) as [[| | | |content| |]|]; cbn [mbind outcome_bind];
      try (by intros [= <-]).
    destruct (extract_svg content) as [svg'|] eqn:E; intros [= <-]; [|done].
    cbn. intros [= <-]. split; [by eapply extract_svg_nonempty|].
    split; [done|]. by exists content.
  - destruct (error_body read); [|done]. by intros [= <-].
  - by intros [= <-].
Qed.

Lemma failed_call_not_cached wording name model_id a r :
  call_model wording name model_id a = Ok r →
  is_Some (cr_error r) → worth_caching r = false.
Proof.
  intros H [e He]. apply call_model_ok in H as [_ [[_ Hn]|[Hs _]]].
  - congruence.
  - unfold worth_caching. by rewrite Hs.
Qed.

Lemma cache_entry_is_hit cache name r :
  cache !! name = Some (cache_entry r) →
  worth_caching r = true →
  is_hit cache name = true.
Proof.
  intros H W. apply is_hit_truthy.
  exists (cache_entry r), (opt_value (cr_svg r)). split; [done|].
  split; [done|]. unfold worth_caching in W. by apply andb_true_iff in W as [? _].
Qed.

Lemma earned_later past more name entry :
  earned past name entry → earned (past ++ more) name entry.
Proof.
  intros (r & Hin & H). exists r. split; [|done].
  apply elem_of_app. by left.
Qed.

Lemma history_earned st past :
  history st past →
  ∀ name entry, stored_entry st name = Some entry → earned past name entry.
Proof.
  induction 1 as [|st past w Hh IH]; [done|].
  intros name entry He.
  destruct (store_after_cases w st)
    as [Hsame|(cache & Hl & Hn & Hst & Hcalls & Hperm)].
  - rewrite Hsame in He. by apply earned_later, IH.
  - rewrite Hst in He. cbn [stored_entry] in He.
    apply foldl_record_cache_lookup in He
      as [He|(r & Hin & Hw & Hname & ->)].
    + rewrite (load_cache_entry _ _ _ Hl) in He. by apply earned_later, IH.
    + exists r. split; [apply elem_of_app; by right|]. split; [done|].
      split; [done|]. split; [done|].
      assert (∃ m, call_of w m = Ok r) as [m Hm].
      { apply list_elem_of_lookup in Hin as [i Hi].
        destruct (Forall2_lookup_r _ _ _ _ _ Hcalls Hi) as (m & _ & Hm).
        by exists m. }
      split; [by exists w, m|].
      unfold worth_caching in Hw. apply andb_true_iff in Hw as [Hs _].
      destruct (cr_svg r) as [svg|] eqn:Es; [|done].
      unfold call_of in Hm.
      destruct (call_model_svg _ _ _ _ _ _ Hm Es) as (Hne & Herr & content & Hc).
      split; [|done]. by exists svg, content.
Qed.

(** C2.  Whatever runs came before, in whatever worlds: every entry of
    the cache file was made from the result of a past call for that model
    that returned an extracted output and no error; a model that has an
    entry is taken from the cache, so it is not among the models that need
    a call and no run submits it; and in any run, from any cache file, the
    entry of a model whose call failed is after the run what it was before,
    present or absent. *)
Theorem cache_holds_successes st past :
  history st past →
  (∀ name entry, stored_entry st name = Some entry → earned past name entry)
  ∧ (∀ cache name w,
       load_cache st = Ok cache →
       is_Some (cache !! name) →
       is_hit cache name = true
       ∧ (name ∉ (needs_call cache).*1)
       ∧ (name ∉ (submitted (run_log (program w st))).*1))
  ∧ (∀ st' w r,
       r ∈ collected (run_log (program w st')) →
       is_Some (cr_error r) →
       stored_entry (store_after st' (program w st')) (cr_name r)
       = stored_entry st' (cr_name r)).
Proof.
  intros Hh. pose proof (history_earned _ _ Hh) as Hearned.
  split; [done|]. split.
  - intros cache name w Hl [entry He].
    pose proof He as He'. rewrite (load_cache_entry _ _ _ Hl) in He'.
    destruct (Hearned _ _ He') as (r & _ & _ & -> & Hw & _).
    pose proof (cache_entry_is_hit _ _ _ He Hw) as Hhit.
    assert (name ∉ (needs_call cache).*1) as Hnot.
    { intros Hin. apply list_elem_of_fmap in Hin as (m & -> & Hin).
      apply elem_of_needs_call in Hin as [Hm _].
      rewrite (hit_not_miss _ _ Hhit) in Hm. done. }
    split; [done|]. split; [done|].
    destruct (run_kinds w st cache Hl) as (_ & [Hs|Hs] & _); rewrite Hs.
    + by intros ?%elem_of_nil.
    + done.
  - intros st' w r Hin Herr.
    destruct (store_after_cases w st')
      as [Hsame|(cache & Hl & Hn & Hst & Hcalls & Hperm)].
    + by rewrite Hsame.
    + rewrite Hst. cbn [stored_entry]. rewrite <- (load_cache_entry _ _ _ Hl).
      apply foldl_record_cache_other. intros r' Hin' Hname.
      assert (r' = r) as ->.
      { assert (NoDup (cr_name <$> collected (run_log (program w st')))) as Hnd.
        { rewrite Hperm. apply needs_call_names_NoDup. }
        apply list_elem_of_lookup in Hin as [i Hi].
        apply list_elem_of_lookup in Hin' as [j Hj].
        assert (i = j) as ->; [|congruence].
        eapply NoDup_lookup; [exact Hnd| |].
        - by rewrite list_lookup_fmap, Hi.
        - rewrite list_lookup_fmap, Hj. cbn [fmap option_fmap option_map].
          by rewrite Hname. }
      apply list_elem_of_lookup in Hin as [i Hi].
      destruct (Forall2_lookup_r _ _ _ _ _ Hcalls Hi) as (m & _ & Hm).
      unfold call_of in Hm. by eapply failed_call_not_cached.
Qed.

Lemma cache_holds_successes_witness :
  earned (collected (run_log (program example_world NoStore)))
    (cps "GPT-5")
    (VDict [(cps "svg", VStr (cps "<svg></svg>"));
            (cps "elapsed", VFloat (5 - 2)%float)])
  ∧ is_hit first_cache (cps "GPT-5") = true
  ∧ (cps "GPT-5" ∉ (submitted (run_log (program failing_world first_store))).*1).
Proof.
  destruct (cache_holds_successes first_store
              ([] ++ collected (run_log (program example_world NoStore))))
    as (H1 & H2 & _).
  - apply (history_run NoStore [] example_world). apply history_start.
  - split; [apply H1; by vm_compute|].
    destruct (H2 first_cache (cps "GPT-5") failing_world) as (Ha & _ & Hb).
    + unfold first_cache.
      destruct first_store as [| |c] eqn:E;
        [vm_compute in E; discriminate E
        |vm_compute in E; discriminate E
        |reflexivity].
    + apply (bool_decide_unpack _). by vm_compute.
    + by split.
Defined.

(** ** Runs that reach their end *)




Lemma foldl_record_result_lookup rs results n x :
  foldl record_result results rs !! n = Some x →
  results !! n = Some x ∨ ∃ r, r ∈ rs ∧ cr_name r = n ∧ x = result_of r.
Proof.
  revert results. induction rs as [|r rs IH]; intros results; [by left|].
  cbn. intros H. apply IH in H as [H|(r' & Hin & Hr')].
  - unfold record_result in H.
    destruct (decide (cr_name r = n)) as [<-|Hne].
    + rewrite lookup_insert_eq in H. injection H as <-. right. exists r.
      split; [apply list_elem_of_here | done].
    + rewrite lookup_insert_ne in H by done. by left.
  - right. exists r'. split; [by apply list_elem_of_further | done].
Qed.

Lemma foldl_record_result_other rs results n :
  n ∉ cr_name <$> rs → foldl record_result results rs !! n = results !! n.
Proof.
  revert results. induction rs as [|r rs IH]; intros results Hn; [done|].
  rewrite fmap_cons, not_elem_of_cons in Hn. destruct Hn as [Hne Hn].
  cbn. rewrite IH by done. unfold record_result.
  by rewrite lookup_insert_ne.
Qed.

Lemma foldl_record_result_own rs results r :
  NoDup (cr_name <$> rs) → r ∈ rs →
  foldl record_result results rs !! cr_name r = Some (result_of r).
Proof.
  revert results. induction rs as [|r' rs IH]; intros results Hnd Hin.
  - by apply elem_of_nil in Hin.
  - rewrite fmap_cons in Hnd. apply NoDup_cons in Hnd as [Hfresh Hnd].
    cbn. apply elem_of_cons in Hin as [->|Hin].
    + rewrite foldl_record_result_other by done.
      unfold record_result. by rewrite lookup_insert_eq.
    + by apply IH.
Qed.



Lemma summary_lines_elem results name model_id r :
  (name, model_id) ∈ model_map →
  results !! name = Some r →
  StatusLine name (res_elapsed r) (status_of r) ∈ summary_lines results.
Proof.
  intros Hm Hr. unfold summary_lines. apply list_elem_of_omap.
  exists (name, model_id). split; [done|]. cbn. by rewrite Hr.
Qed.

Lemma report_events_kinds doc s t lines :
  submitted (ReportWritten doc :: Tally s t :: lines) = submitted lines
  ∧ collected (ReportWritten doc :: Tally s t :: lines) = collected lines
  ∧ reports (ReportWritten doc :: Tally s t :: lines) = doc :: reports lines.
Proof. done. Qed.




(** ** The counts of a run *)

Lemma success_count_insert results k x :
  results !! k = None →
  success_count (<[k := x]> results)
  = (success_count results + if error_is_none x then 1 else 0)%nat.
Proof.
  intros Hk. unfold success_count, values.
  assert (∀ l l' : list result,
            l ≡ₚ l' →
            length (List.filter error_is_none l)
            = length (List.filter error_is_none l')) as Hperm.
  { induction 1 as [|y l l' _ IH|y z l|l1 l2 l3 _ IH1 _ IH2]; cbn.
    - done.
    - destruct (error_is_none y); cbn; by rewrite IH.
    - by destruct (error_is_none y), (error_is_none z).
    - by rewrite IH1. }
  rewrite (Hperm _ _ (fmap_Permutation snd _ _ (map_to_list_insert _ _ x Hk))).
  cbn. destruct (error_is_none x); cbn; lia.
Qed.

Lemma merged_counts rs results :
  NoDup (cr_name <$> rs) →
  (∀ r, r ∈ rs → results !! cr_name r = None) →
  size (foldl record_result results rs) = (size results + length rs)%nat
  ∧ success_count (foldl record_result results rs)
    = (success_count results
       + length (List.filter (λ r, error_is_none (result_of r)) rs))%nat.
Proof.
  revert results. induction rs as [|r rs IH]; intros results Hnd Hfresh.
  - cbn. split; lia.
  - rewrite fmap_cons in Hnd. apply NoDup_cons in Hnd as [Hr Hnd].
    assert (results !! cr_name r = None) as Hnone
      by apply Hfresh, list_elem_of_here.
    cbn [foldl]. destruct (IH (record_result results r) Hnd) as [H1 H2].
    { intros r' Hin. unfold record_result. rewrite lookup_insert_ne.
      - apply Hfresh. by apply list_elem_of_further.
      - intros Heq. apply Hr. rewrite Heq. apply list_elem_of_fmap. by exists r'. }
    rewrite H1, H2. unfold record_result.
    rewrite map_size_insert_None, success_count_insert by done. cbn.
    destruct (error_is_none (result_of r)); cbn; lia.
Qed.

Lemma hits_NoDup cache : NoDup (hits cache).
Proof. apply NoDup_filter, model_names_NoDup. Qed.

Lemma hit_value_error cache n r : hit_value cache n = Some r → res_error r = None.
Proof.
  unfold hit_value, cached_result. destruct (cache !! n) as [entry|]; [|done].
  destruct (getitem entry (VStr (cps "svg"))) as [svg|]; [|done].
  cbn [mbind outcome_bind].
  destruct (getitem entry (VStr (cps "elapsed"))) as [t|]; [|done].
  by intros [= <-].
Qed.

Lemma from_cache_counts cache results0 :
  from_cache cache results0 →
  Forall (λ m, is_hit cache m.1 = true → is_Some (hit_value cache m.1))
    model_map →
  size results0 = length (hits cache)
  ∧ success_count results0 = length (hits cache).
Proof.
  intros Hfrom Hv.
  assert (size results0 = length (hits cache)) as Hsize.
  { rewrite <- length_map_to_list, <- (length_fmap fst).
    apply Permutation_length, NoDup_Permutation.
    - apply NoDup_fst_map_to_list.
    - apply hits_NoDup.
    - intros n. rewrite list_elem_of_fmap. split.
      + intros ([n' r] & -> & Hin). apply elem_of_map_to_list in Hin.
        rewrite Hfrom in Hin. cbn [fst]. by destruct (decide (n' ∈ hits cache)).
      + intros Hin. pose proof Hin as [Hh Hm]%elem_of_hits.
        apply list_elem_of_fmap in Hm as (m & -> & Hm).
        rewrite Forall_forall in Hv. destruct (Hv m Hm Hh) as [r Hr].
        exists (m.1, r). split; [done|]. apply elem_of_map_to_list.
        rewrite Hfrom. by rewrite decide_True. }
  split; [done|]. rewrite <- Hsize, <- length_values. unfold success_count.
  f_equal. apply forallb_filter_id. apply forallb_forall. intros r Hin.
  apply list_elem_of_In in Hin. unfold values in Hin.
  apply list_elem_of_fmap in Hin as ([n r'] & -> & Hin).
  apply elem_of_map_to_list in Hin. rewrite Hfrom in Hin. cbn [snd].
  destruct (decide (n ∈ hits cache)); [|done].
  unfold error_is_none. by rewrite (hit_value_error _ _ _ Hin).
Qed.

(** The counts on the page of a run.  The total is the number of models
    taken from the cache plus the number of calls collected; the successes
    are the models taken from the cache plus the calls that returned no
    error.  With nothing in the cache and [K] failed calls out of [N], that
    is [N - K] out of [N]. *)
Theorem run_totals w st doc :
  reports (run_log (program w st)) = [doc] →
  doc_total doc
  = (length (used_caches (run_log (program w st)))
     + length (collected (run_log (program w st))))%nat
  ∧ doc_success doc
    = (length (used_caches (run_log (program w st)))
       + length (List.filter (λ r, bool_decide (cr_error r = None))
                   (collected (run_log (program w st)))))%nat.
Proof.
  unfold program. cbn [run_log run_exit].
  destruct (script w st) as [o evs] eqn:S. cbn [fst snd].
  apply run_shape in S
    as [(-> & _)|(cache & Hl & _ & [(used & e & _ & -> & _ & _)|S])].
  - done.
  - by destruct (only_used used) as (_ & _ & _ & _ & ->).
  - destruct S as (results0 & rs & Hfrom & Hv & Hrs & [(e & m & _ & _ & _ & ->)|S]).
    + destruct (only_used (hits cache)) as (_ & _ & _ & _ & U5).
      destruct (only_submitted (needs_call cache)) as (_ & _ & _ & _ & S5).
      destruct (only_collected rs) as (_ & _ & _ & _ & C5).
      fold (submit_events cache) in S5.
      by rewrite !reports_app, U5, S5, C5.
    + destruct S as (Hlen & evs_w & Hw & ->).
      destruct (wrap_up_quiet _ _ _ _ Hw) as (W1 & W2 & W3 & W4).
      destruct (full_log_kinds cache rs evs_w W1 W2 W3 W4) as (K1 & _ & K3 & _).
      rewrite K1, K3.
      destruct (only_used (hits cache)) as (_ & _ & _ & _ & U5).
      destruct (only_submitted (needs_call cache)) as (_ & _ & _ & _ & S5).
      destruct (only_collected rs) as (_ & _ & _ & _ & C5).
      fold (submit_events cache) in S5.
      assert (reports (save_events cache rs) = []) as V5.
      { unfold save_events. by destruct (needs_call cache). }
      rewrite !reports_app, U5, S5, C5, V5, !app_nil_l.
      apply wrap_up_cases in Hw
        as [(e & _ & -> & _)|(doc' & lines & Hb & _ & -> & Hs & _)]; [done|].
      destruct (status_only_quiet _ Hs) as (_ & _ & _ & _ & L5).
      destruct (report_events_kinds doc'
                  (success_count (foldl record_result results0 rs))
                  (size (foldl record_result results0 rs)) lines)
        as (_ & _ & R5).
      rewrite R5, L5. intros [= ->].
      apply build_html_ok in Hb as (_ & -> & ->).
      destruct (all_calls_collected _ _ _ Hrs Hlen) as [Hall Hperm].
      destruct (from_cache_counts _ _ Hfrom Hv) as [Hs0 Hc0].
      destruct (merged_counts rs results0) as [H1 H2].
      * rewrite Hperm. apply needs_call_names_NoDup.
      * intros r Hin. rewrite Hfrom.
        destruct (decide (cr_name r ∈ hits cache)) as [Hh|]; [|done].
        exfalso. apply elem_of_hits in Hh as [Hh _].
        assert (cr_name r ∈ (needs_call cache).*1) as Hn.
        { rewrite <- Hperm. apply list_elem_of_fmap. by exists r. }
        apply list_elem_of_fmap in Hn as (m & Hm & Hn).
        apply elem_of_needs_call in Hn as [Hmiss _].
        rewrite <- Hm, (hit_not_miss _ _ Hh) in Hmiss. done.
      * rewrite H1, H2, Hs0, Hc0. split; [done|]. f_equal. f_equal.
        apply List.filter_ext. intros r.
        unfold error_is_none, result_of, res_error. cbn [snd].
        by destruct (cr_error r).
Qed.

Lemma run_totals_witness :
  ∃ doc, reports (run_log (program failing_world NoStore)) = [doc]
         ∧ doc_total doc = 36%nat ∧ doc_success doc = 0%nat.
Proof.
  destruct (reports (run_log (program failing_world NoStore)))
    as [|doc [|]] eqn:E;
    [vm_compute in E; discriminate E| |vm_compute in E; discriminate E].
  exists doc. split; [done|].
  destruct (run_totals failing_world NoStore doc E) as [H1 H2].
  rewrite H1, H2. split; by vm_compute.
Defined.

(** The fences are removed before the search, so a reply in which a fence
    stands inside the opening tag has no such tag as it comes and has one
    once it is cleaned. *)
Example fence_inside_tag :
  find_ci open_tag (cps "<s```vg></svg>") = None
  ∧ extract_svg (cps "<s```vg></svg>") = Some (cps "<svg></svg>").
Proof. by vm_compute. Qed.

(** ** Extraction, once more *)

Lemma starts_with_take p (s : text) n :
  starts_with p (take n s) = true → starts_with p s = true.
Proof.
  revert s n. induction p as [|a p IH]; intros [|c s] [|n]; try done.
  cbn [take starts_with]. destruct (c =? a); [apply IH | done].
Qed.

Lemma ci_prefix_length pat s :
  ci_prefix pat s = true → (length pat ≤ length s)%nat.
Proof.
  revert s. induction pat as [|p pat IH]; intros [|c s]; cbn; try done; try lia.
  intros [_ H]%andb_prop. apply IH in H. lia.
Qed.

Lemma ci_prefix_take pat s n :
  (length pat ≤ n)%nat → ci_prefix pat (take n s) = ci_prefix pat s.
Proof.
  revert s n. induction pat as [|p pat IH]; intros [|c s] [|n] H; try done.
  - cbn in H. lia.
  - cbn [take ci_prefix]. rewrite IH; [done|]. cbn in H. lia.
Qed.

Lemma find_ci_unfold pat s :
  find_ci pat s
  = if ci_prefix pat s then Some 0%nat
    else match s with [] => None | _ :: s' => S <$> find_ci pat s' end.
Proof. by destruct s. Qed.

Lemma find_ci_take pat s j :
  find_ci pat s = Some j →
  find_ci pat (take (j + length pat) s) = Some j.
Proof.
  revert j. induction s as [|c s IH]; intros j.
  - destruct pat; cbn; [|done]. intros [= <-]. done.
  - cbn [find_ci]. destruct (ci_prefix pat (c :: s)) eqn:P.
    + intros [= <-]. cbn [Nat.add].
      by rewrite find_ci_unfold, ci_prefix_take, P.
    + destruct (find_ci pat s) as [j'|] eqn:F; [|done].
      intros [= <-]. cbn [Nat.add take find_ci].
      assert (ci_prefix pat (c :: take (j' + length pat) s) = false) as ->.
      { change (c :: take (j' + length pat) s)
          with (take (S (j' + length pat)) (c :: s)).
        rewrite ci_prefix_take; [done|lia]. }
      by rewrite (IH j' eq_refl).
Qed.

Lemma take_fence_free (s : text) n :
  (∀ i, starts_with fence (drop i s) = false) →
  ∀ i, starts_with fence (drop i (take n s)) = false.
Proof.
  intros H i. rewrite skipn_firstn_comm.
  destruct (starts_with fence (take (n - i) (drop i s))) eqn:E; [|done].
  apply starts_with_take in E. by rewrite H in E.
Qed.

Lemma drop_fence_free (s : text) k :
  (∀ i, starts_with fence (drop i s) = false) →
  ∀ i, starts_with fence (drop i (drop k s)) = false.
Proof. intros H i. rewrite drop_drop. apply H. Qed.

(** What a first fragment looks like, and that extraction gives it back. *)
Lemma fragment_stable (s : text) i j :
  (∀ k, starts_with fence (drop k s) = false) →
  find_ci open_tag s = Some i →
  find_ci close_tag (drop (i + 4) s) = Some j →
  let svg := take (4 + j + 6) (drop i s) in
  extract_svg svg = Some svg
  ∧ ci_prefix open_tag svg = true
  ∧ ci_prefix close_tag (drop (length svg - 6) svg) = true
  ∧ length svg = (4 + j + 6)%nat.
Proof.
  intros Hfree Ho Hc svg.
  apply find_ci_Some in Ho as [Ho _]. pose proof Hc as [Hc' _]%find_ci_Some.
  unfold occurs_ci in Ho, Hc'.
  assert (drop 4 (drop i s) = drop (i + 4) s) as Hdd by apply drop_drop.
  assert (length svg = (4 + j + 6)%nat) as Hlen.
  { unfold svg. rewrite length_take. apply ci_prefix_length in Hc'.
    rewrite !length_drop in Hc'. rewrite length_drop.
    change (length close_tag) with 6%nat in Hc'. lia. }
  assert (ci_prefix open_tag svg = true) as Hopen.
  { unfold svg. rewrite ci_prefix_take; [done|]. change (length open_tag) with 4%nat. lia. }
  assert (drop 4 svg = take (j + 6) (drop (i + 4) s)) as Hrest.
  { unfold svg. rewrite skipn_firstn_comm, Hdd. f_equal. lia. }
  split; [|split; [done|split; [|done]]].
  - rewrite extract_svg_span.
    rewrite strip_fences_fence_free
      by (apply take_fence_free, drop_fence_free, Hfree).
    unfold first_span.
    rewrite find_ci_unfold, Hopen. cbn [mbind option_bind Nat.add].
    pose proof (find_ci_take _ _ _ Hc) as Hft.
    change (length close_tag) with 6%nat in Hft.
    rewrite Hrest, Hft. cbn [mbind option_bind].
    change (Some (take (4 + j + 6) (drop 0 svg)) = Some svg).
    f_equal. apply take_ge. cbn [drop]. lia.
  - rewrite Hlen. replace (4 + j + 6 - 6)%nat with (4 + j)%nat by lia.
    rewrite <- drop_drop, Hrest, skipn_firstn_comm.
    replace (j + 6 - j)%nat with 6%nat by lia.
    by rewrite ci_prefix_take.
Qed.

(** No fence is left after lines 141-142: wherever one looks in the
    cleaned text, three back-quotes in a row are not there.  (The second
    pass takes its matches left to right; what it leaves of a run of
    back-quotes is shorter than three, and the pieces around a removed fence
    that come together are part of the same run.)  So cleaning a cleaned
    text changes nothing. *)
Theorem stripped_text_has_no_fence content :
  (∀ i, starts_with fence (drop i (strip_fences content)) = false)
  ∧ strip_fences (strip_fences content) = strip_fences content.
Proof.
  split; [apply strip_fences_clean|].
  apply strip_fences_fence_free, strip_fences_clean.
Qed.

(** The output of a call is stable under extraction: what lines 141-145
    take out of a reply is a text that the same lines give back as it is.
    It begins with an opening tag and ends with a closing tag, whatever the
    case of their letters, and no fence is left in it. *)
Theorem extracted_svg_is_stable content svg :
  extract_svg content = Some svg →
  extract_svg svg = Some svg
  ∧ ci_prefix open_tag svg = true
  ∧ ci_prefix close_tag (drop (length svg - 6) svg) = true
  ∧ (10 ≤ length svg)%nat
  ∧ ∀ i, starts_with fence (drop i svg) = false.
Proof.
  rewrite extract_svg_span. unfold first_span.
  destruct (find_ci open_tag (strip_fences content)) as [i|] eqn:Ho; [|done].
  cbn [mbind option_bind].
  destruct (find_ci close_tag (drop (i + 4) (strip_fences content)))
    as [j|] eqn:Hc; [|done].
  intros [= <-].
  change (take (i, (4 + j + 6)%nat).2 (drop (i, (4 + j + 6)%nat).1 (strip_fences content)))
    with (take (4 + j + 6) (drop i (strip_fences content))).
  destruct (fragment_stable _ i j (strip_fences_clean content) Ho Hc)
    as (H1 & H2 & H3 & H4).
  refine (conj H1 (conj H2 (conj H3 (conj _ _)))); [|].
  { change (S (S (S (S (j + 6))))) with (4 + j + 6)%nat. rewrite H4. lia. }
  apply take_fence_free, drop_fence_free, strip_fences_clean.
Qed.

Lemma extracted_svg_is_stable_witness :
  extract_svg example_reply = Some (cps "<svg><circle/></svg>")
  ∧ extract_svg (cps "<svg><circle/></svg>") = Some (cps "<svg><circle/></svg>").
Proof.
  assert (extract_svg example_reply = Some (cps "<svg><circle/></svg>")) as H
    by (by vm_compute).
  split; [exact H|].
  exact (proj1 (extracted_svg_is_stable _ _ H)).
Defined.

(** ** The key (lines 16-18) *)

Lemma lstrip_spec s :
  ∃ pre, s = pre ++ lstrip s
         ∧ Forall (λ c, is_space c = true) pre
         ∧ ∀ c, head (lstrip s) = Some c → is_space c = false.
Proof.
  induction s as [|c s (pre & Hs & Hpre & Hhead)].
  - exists []. by repeat split.
  - cbn [lstrip]. destruct (is_space c) eqn:E.
    + exists (c :: pre). split; [by rewrite Hs at 1|]. split; [by constructor|done].
    + exists []. split; [done|]. split; [constructor|]. by intros c' [= <-].
Qed.

Lemma strip_spec s :
  ∃ pre post,
    s = pre ++ strip s ++ post
    ∧ Forall (λ c, is_space c = true) pre
    ∧ Forall (λ c, is_space c = true) post
    ∧ (∀ c, head (strip s) = Some c → is_space c = false)
    ∧ (∀ c, last (strip s) = Some c → is_space c = false).
Proof.
  destruct (lstrip_spec s) as (pre & Hs & Hpre & Hhead).
  destruct (lstrip_spec (reverse (lstrip s))) as (q & Hr & Hq & Hlast).
  assert (lstrip s = strip s ++ reverse q) as Ht.
  { unfold strip. rewrite <- reverse_app, <- Hr. by rewrite reverse_involutive. }
  exists pre, (reverse q). split; [by rewrite <- Ht|].
  split; [done|]. split; [by apply Forall_reverse|]. split.
  - intros c Hc. apply Hhead. rewrite Ht.
    destruct (strip s); [done|]. exact Hc.
  - intros c Hc. apply Hlast. unfold strip in Hc. by rewrite last_reverse in Hc.
Qed.

(** Where the key comes from.  A value of the environment variable that is
    not empty is the key as it stands, white space and all, and the
    [secrets] command is not run.  Without one (the variable is not set, or
    it is empty) the key is what the command prints, less the white space
    before and after it: no white space begins or ends the key, and nothing
    inside it is touched.  The key is not looked at any further; it may be
    empty.  When the command fails, so does the script. *)
Theorem api_key_resolution w :
  match API_KEY w with
  | Ok key =>
      (environ_key w = Some key ∧ key ≠ [])
      ∨ ((environ_key w = None ∨ environ_key w = Some [])
         ∧ ∃ out pre post,
             secrets_get w = Ok out
             ∧ out = pre ++ key ++ post
             ∧ Forall (λ c, is_space c = true) pre
             ∧ Forall (λ c, is_space c = true) post
             ∧ (∀ c, head key = Some c → is_space c = false)
             ∧ (∀ c, last key = Some c → is_space c = false))
  | Raise e =>
      (environ_key w = None ∨ environ_key w = Some [])
      ∧ secrets_get w = Raise e
  end.
Proof.
  unfold API_KEY.
  assert (match out ← secrets_get w; Ok (strip out) with
          | Ok key =>
              ∃ out pre post,
                secrets_get w = Ok out
                ∧ out = pre ++ key ++ post
                ∧ Forall (λ c, is_space c = true) pre
                ∧ Forall (λ c, is_space c = true) post
                ∧ (∀ c, head key = Some c → is_space c = false)
                ∧ (∀ c, last key = Some c → is_space c = false)
          | Raise e => secrets_get w = Raise e
          end) as Hcmd.
  { destruct (secrets_get w) as [out|e]; [|done]. cbn [mbind outcome_bind].
    destruct (strip_spec out) as (pre & post & H). by exists out, pre, post. }
  destruct (environ_key w) as [[|c k]|].
  - destruct (out ← secrets_get w; Ok (strip out)); [right|]; auto.
  - left. done.
  - destruct (out ← secrets_get w; Ok (strip out)); [right|]; auto.
Qed.

(** ** What a call can raise *)

Lemma utf8_decode_raises n bs e :
  (length bs ≤ n)%nat → utf8_decode bs = Raise e → e = UnicodeDecodeError.
Proof.
  revert bs. induction n as [|n IH]; intros bs Hn.
  { destruct bs; [done|cbn in Hn; lia]. }
  assert (∀ t, (length t ≤ n)%nat →
               ∀ c, (t' ← utf8_decode t; Ok (c :: t')) = Raise e →
                    e = UnicodeDecodeError) as Hrest.
  { intros t Ht c. destruct (utf8_decode t) eqn:E; [done|].
    cbn. intros [= <-]. by apply (IH t). }
  destruct bs as [|b0 r0]; [done|]. cbn [utf8_decode]. cbn [length] in Hn.
  destruct (b0 <? 128); [apply Hrest; lia|].
  destruct ((192 <=? b0) && (b0 <? 224)).
  { destruct r0 as [|b1 r1]; [by intros [= <-]|]. cbn [length] in Hn.
    destruct (_ && _); [apply Hrest; lia|by intros [= <-]]. }
  destruct ((224 <=? b0) && (b0 <? 240)).
  { destruct r0 as [|b1 [|b2 r2]]; try by intros [= <-]. cbn [length] in Hn.
    destruct (_ && _); [apply Hrest; lia|by intros [= <-]]. }
  destruct ((240 <=? b0) && (b0 <? 248)).
  { destruct r0 as [|b1 [|b2 [|b3 r3]]]; try by intros [= <-]. cbn [length] in Hn.
    destruct (_ && _); [apply Hrest; lia|by intros [= <-]]. }
  by intros [= <-].
Qed.

Lemma decode_raises bytes e : decode bytes = Raise e → e = UnicodeDecodeError.
Proof. apply (utf8_decode_raises _ _ _ (le_n _)). Qed.

(** The one way out of [call_model] other than its [return]s is line 153,
    in the handler of an HTTP failure: reading the body raises, and the
    call raises what the read raised; or the body is read and is not UTF-8,
    and the call raises [UnicodeDecodeError].  An exchange that was
    answered, whatever the answer holds, one that failed otherwise, and an
    HTTP failure whose body is read and is UTF-8 give a tuple. *)
Theorem call_raises_only_at_line_153 wording name model_id a :
  (∀ e, call_model wording name model_id a = Raise e
        ↔ ∃ code read,
            happened a = HTTPError code read
            ∧ (read = Raise e
               ∨ ∃ bytes, read = Ok bytes ∧ decode bytes = Raise e
                          ∧ e = UnicodeDecodeError))
  ∧ (∀ data, happened a = Answered data →
             ∃ r, call_model wording name model_id a = Ok r)
  ∧ (∀ e, happened a = Failed e →
          ∃ r, call_model wording name model_id a = Ok r)
  ∧ (∀ code bytes body,
       happened a = HTTPError code (Ok bytes) → decode bytes = Ok body →
       ∃ r, call_model wording name model_id a = Ok r).
Proof.
  split; [|split; [|split]].
  - intros e. split.
    + intros (code & read & Hh & [Hr|(bytes & Hr & Hd)])%call_model_raises;
        exists code, read; (split; [done|]); [by left|right].
      exists bytes. split; [done|]. split; [done|]. by apply decode_raises in Hd.
    + intros (code & read & Hh & [->|(bytes & -> & Hd & _)]);
        unfold call_model, error_body; rewrite Hh; cbn [mbind outcome_bind];
        [done|by rewrite Hd].
  - intros data Hh. unfold call_model. rewrite Hh.
    destruct (read_answer _ _ _); eauto.
  - intros e Hh. unfold call_model. rewrite Hh. eauto.
  - intros code bytes body Hh Hd. unfold call_model, error_body. rewrite Hh.
    cbn [mbind outcome_bind]. rewrite Hd. eauto.
Qed.

(** A 2xx answer without a text where line 139 looks for one.  When one of
    the four subscripts of line 139 raises (a key is missing, [choices] is
    empty, a level has the wrong type), or when the content is there and is
    no [str] (a [null], say), line 156 catches the exception: the call
    returns no output and the wording of the exception as its message, with
    a time taken at line 157. *)
Theorem malformed_answer_is_an_error wording name model_id a data e :
  happened a = Answered data →
  content_of data = Raise e
  ∨ (∃ v, content_of data = Ok v ∧ (∀ s, v ≠ VStr s) ∧ e = TypeError) →
  call_model wording name model_id a
  = Ok {| cr_name := name; cr_svg := None;
          cr_elapsed := (t_late a - t_start a)%float;
          cr_error := Some (str_exn wording e) |}.
Proof.
  intros Hh H. unfold call_model, read_answer. rewrite Hh.
  destruct H as [->|(v & -> & Hv & ->)]; [done|].
  cbn [mbind outcome_bind]. destruct v; try done. by destruct (Hv s).
Qed.

Lemma malformed_answer_is_an_error_witness :
  let a data := {| t_start := 2%float; happened := Answered data;
                   t_end := 5%float; t_late := 6%float |} in
  let failed e := Ok {| cr_name := cps "GPT-5"; cr_svg := None;
                        cr_elapsed := (6 - 2)%float;
                        cr_error := Some (cps (match e with
                                               | KeyError _ => "'choices'"
                                               | IndexError => "list index out of range"
                                               | _ => "expected string or bytes-like object"
                                               end)) |} in
  let wording e := cps (match e with
                        | KeyError _ => "'choices'"
                        | IndexError => "list index out of range"
                        | _ => "expected string or bytes-like object"
                        end) in
  call_model wording (cps "GPT-5") (cps "openai/gpt-5") (a (VDict []))
  = failed (KeyError (VStr (cps "choices")))
  ∧ call_model wording (cps "GPT-5") (cps "openai/gpt-5")
      (a (VDict [(cps "choices", VList [])]))
    = failed IndexError
  ∧ call_model wording (cps "GPT-5") (cps "openai/gpt-5") (a (reply VNone))
    = failed TypeError.
Proof.
  intros a failed wording. split; [|split].
  - apply (malformed_answer_is_an_error wording _ _ (a (VDict []))
             (VDict []) (KeyError (VStr (cps "choices"))) eq_refl).
    left. reflexivity.
  - apply (malformed_answer_is_an_error wording _ _
             (a (VDict [(cps "choices", VList [])]))
             (VDict [(cps "choices", VList [])]) IndexError eq_refl).
    left. reflexivity.
  - apply (malformed_answer_is_an_error wording _ _ (a (reply VNone))
             (reply VNone) TypeError eq_refl).
    right. exists VNone. split; [reflexivity|]. split; [intros s; discriminate|reflexivity].
Defined.

(** ** Two corners of the report *)

Lemma success_count_delete results name r :
  results !! name = Some r →
  success_count results
  = (success_count (delete name results)
     + if error_is_none r then 1 else 0)%nat.
Proof.
  intros Hr. rewrite <- (insert_id results name r Hr) at 1.
  rewrite <- insert_delete_eq. apply success_count_insert, lookup_delete_eq.
Qed.

(** An error message that is empty.  Lines 173 and 346 test the message for
    truth and line 196 tests it for [None], so an entry whose message is the
    empty text falls between them: its card shows the output panel (with
    whatever [svg] is, [None] after a failed call), its line in the summary
    says OK, and it is not counted among the successes.  A call gives such
    an entry when an exception whose [str()] is empty stops the exchange;
    nothing of it goes to the cache. *)
Theorem empty_message_is_shown_as_success results dates name svg elapsed time :
  results !! name = Some (svg, elapsed, Some []) →
  format_1f elapsed = Ok time →
  card_of dates name (svg, elapsed, Some [])
  = Ok {| card_name := name; card_date := default [] (dates !! name);
          card_time := time; card_panel := SvgPanel svg |}
  ∧ status_line results name = (Ok (), [StatusLine name time StatusOK])
  ∧ success_count results = success_count (delete name results)
  ∧ (success_count results < size results)%nat
  ∧ (∀ wording model_id a,
       happened a = Failed (Raised []) →
       ∃ r, call_model wording name model_id a = Ok r
            ∧ result_of r = (VNone, VFloat (t_end a - t_start a), Some [])
            ∧ worth_caching r = false).
Proof.
  intros Hr Ht.
  assert (success_count results = success_count (delete name results)) as Hc.
  { rewrite (success_count_delete _ _ _ Hr). cbn. lia. }
  split; [|split; [|split; [done|split]]].
  - unfold card_of. cbn [res_elapsed res_error res_svg fst snd error_shown].
    by rewrite Ht.
  - rewrite status_line_cases, Hr. cbn [res_elapsed fst snd]. by rewrite Ht.
  - pose proof (success_count_split results) as Hs.
    assert (In (svg, elapsed, Some []) (List.filter error_is_some (values results)))
      as Hin.
    { apply filter_In. split; [|done]. apply list_elem_of_In.
      unfold values. apply list_elem_of_fmap.
      exists (name, (svg, elapsed, Some [])). split; [done|].
      by apply elem_of_map_to_list. }
    destruct (List.filter error_is_some (values results)); [done|].
    cbn [length] in Hs. lia.
  - intros wording model_id a Hh. unfold call_model. rewrite Hh.
    eexists. split; [reflexivity|]. done.
Qed.

Lemma empty_message_is_shown_as_success_witness :
  let results : gmap text result :=
    {[ cps "GPT-5" := (VNone, VFloat 3%float, Some []) ]} in
  status_line results (cps "GPT-5")
  = (Ok (), [StatusLine (cps "GPT-5") (VFloat 3%float) StatusOK])
  ∧ success_count results = 0%nat
  ∧ size results = 1%nat.
Proof.
  intros results.
  destruct (empty_message_is_shown_as_success results ∅ (cps "GPT-5")
              VNone (VFloat 3%float) (VFloat 3%float))
    as (_ & H2 & H3 & _).
  - by vm_compute.
  - reflexivity.
  - split; [exact H2|]. split; [rewrite H3|]; by vm_compute.
Defined.

(** A name outside the categories.  [build_html] walks the categories, not
    the entries, so an entry whose name no category lists gets no card, and
    yet lines 195-196 count it: the page then shows fewer cards than the
    total in its subtitle. *)
Theorem uncategorised_entry_has_no_card results dates doc name :
  build_html results dates = Ok doc →
  name ∉ category_names CATEGORIES →
  (name ∉ card_name <$> cards doc)
  ∧ doc_total doc = size results
  ∧ (is_Some (results !! name) → (length (cards doc) < doc_total doc)%nat).
Proof.
  intros Hb Hout. apply build_html_ok in Hb as (Hs & Ht & _).
  pose proof (sections_card_names _ _ _ _ Hs) as Hnames.
  fold (cards doc) in Hnames.
  split; [|split; [done|]].
  - rewrite Hnames. intros [_ Hin]%list_elem_of_filter. done.
  - intros Hsome. rewrite Ht, <- (length_fmap card_name), Hnames.
    rewrite <- length_map_to_list, <- (length_fmap fst).
    set (shown := filter (λ n, is_Some (results !! n)) (category_names CATEGORIES)).
    assert (name :: shown ⊆+ (map_to_list results).*1) as Hsub.
    { apply NoDup_submseteq.
      - apply NoDup_cons. split.
        + intros [_ Hin]%list_elem_of_filter. done.
        + apply NoDup_filter, category_names_NoDup.
      - intros n [->|[Hn _]%list_elem_of_filter]%elem_of_cons.
        + destruct Hsome as [r Hr]. apply list_elem_of_fmap.
          exists (name, r). split; [done|]. by apply elem_of_map_to_list.
        + destruct Hn as [r Hr]. apply list_elem_of_fmap.
          exists (n, r). split; [done|]. by apply elem_of_map_to_list. }
    apply submseteq_length in Hsub. cbn [length] in Hsub. lia.
Qed.

Lemma uncategorised_entry_has_no_card_witness :
  let results : gmap text result :=
    {[ cps "GPT-6" := (VStr (cps "<svg></svg>"), VFloat 3%float, None) ]} in
  ∃ doc, build_html results model_dates = Ok doc
         ∧ cards doc = [] ∧ doc_total doc = 1%nat.
Proof.
  intros results.
  destruct (build_html results model_dates) as [doc|] eqn:E;
    [|vm_compute in E; discriminate E].
  exists doc. split; [done|].
  destruct (uncategorised_entry_has_no_card results model_dates doc
              (cps "GPT-6") E) as (_ & H2 & _).
  - apply (bool_decide_unpack _). by vm_compute.
  - split; [|rewrite H2; by vm_compute].
    revert E. vm_compute. by intros [= <-].
Defined.

(** ** More on the loops of [main] *)

Lemma sort_loop_sortable cache models acc acc' evs :
  for_each (sort_model cache) models acc = (Ok acc', evs) →
  Forall (λ m, is_hit cache m.1 = true ∨ is_miss cache m.1 = true) models.
Proof.
  revert acc evs. induction models as [|m models IH]; intros acc evs H;
    [constructor|].
  cbn [for_each] in H.
  apply bind_inv in H as [(e & _ & [=])|(a & e1 & e2 & Hm & Hrest & ->)].
  constructor; [|by eapply IH].
  rewrite sort_model_cases in Hm. unfold is_hit, is_miss.
  destruct (cached cache m.1) as [[|]|]; [by left | by right | done].
Qed.

Lemma sort_models_sortable cache sorted evs :
  sort_models cache = (Ok sorted, evs) →
  ∀ m, m ∈ model_map → sortable cache m.1.
Proof.
  unfold sort_models. intros H m Hm.
  pose proof (sort_loop_sortable _ _ _ _ _ H) as Hs.
  apply sort_loop in H as (used & _ & _ & Hok).
  destruct (Hok sorted eq_refl) as (_ & _ & Hv & _).
  rewrite Forall_forall in Hs, Hv.
  destruct (Hs m Hm) as [Hh|Hmiss]; [right|by left].
  split; [done|]. by apply Hv.
Qed.

Lemma main_sort_raise w cache e evs :
  sort_models cache = (Raise e, evs) → main w cache = (Raise e, evs).
Proof. intros H. unfold main. by rewrite H. Qed.

Lemma from_cache_unique cache r1 r2 :
  from_cache cache r1 → from_cache cache r2 → r1 = r2.
Proof. intros H1 H2. apply map_eq. intros n. by rewrite H1, H2. Qed.

(** The order of the calls does not tell on the two dictionaries. *)
Lemma foldl_record_result_perm rs rs' results :
  rs ≡ₚ rs' → NoDup (cr_name <$> rs) →
  foldl record_result results rs = foldl record_result results rs'.
Proof.
  intros Hp Hnd. apply map_eq. intros n.
  assert (NoDup (cr_name <$> rs')) as Hnd' by by rewrite <- Hp.
  destruct (decide (n ∈ cr_name <$> rs)) as [Hin|Hout].
  - apply list_elem_of_fmap in Hin as (r & -> & Hr).
    rewrite (foldl_record_result_own rs results r Hnd Hr).
    rewrite Hp in Hr.
    by rewrite (foldl_record_result_own rs' results r Hnd' Hr).
  - rewrite foldl_record_result_other by done.
    rewrite Hp in Hout. by rewrite foldl_record_result_other.
Qed.

Lemma foldl_record_cache_own rs cache r :
  NoDup (cr_name <$> rs) → r ∈ rs →
  foldl record_cache cache rs !! cr_name r
  = if worth_caching r then Some (cache_entry r) else cache !! cr_name r.
Proof.
  revert cache. induction rs as [|r' rs IH]; intros cache Hnd Hin.
  - by apply elem_of_nil in Hin.
  - rewrite fmap_cons in Hnd. apply NoDup_cons in Hnd as [Hfresh Hnd].
    cbn [foldl]. apply elem_of_cons in Hin as [->|Hin].
    + rewrite foldl_record_cache_other.
      * unfold record_cache. destruct (worth_caching r'); [|done].
        by rewrite lookup_insert_eq.
      * intros r Hr Hname. exfalso. apply Hfresh. rewrite <- Hname.
        apply list_elem_of_fmap. by exists r.
    + rewrite IH by done. destruct (worth_caching r); [done|].
      unfold record_cache. destruct (worth_caching r'); [|done].
      rewrite lookup_insert_ne; [done|]. intros Heq. apply Hfresh.
      rewrite Heq. apply list_elem_of_fmap. by exists r.
Qed.

Lemma foldl_record_cache_perm rs rs' cache :
  rs ≡ₚ rs' → NoDup (cr_name <$> rs) →
  foldl record_cache cache rs = foldl record_cache cache rs'.
Proof.
  intros Hp Hnd. apply map_eq. intros n.
  assert (NoDup (cr_name <$> rs')) as Hnd' by by rewrite <- Hp.
  destruct (decide (n ∈ cr_name <$> rs)) as [Hin|Hout].
  - apply list_elem_of_fmap in Hin as (r & -> & Hr).
    rewrite (foldl_record_cache_own rs cache r Hnd Hr).
    rewrite Hp in Hr.
    by rewrite (foldl_record_cache_own rs' cache r Hnd' Hr).
  - assert (∀ l, n ∉ cr_name <$> l →
                 foldl record_cache cache l !! n = cache !! n) as Hother.
    { intros l Hl. apply foldl_record_cache_other. intros r Hr Hname.
      exfalso. apply Hl. rewrite <- Hname. apply list_elem_of_fmap. by exists r. }
    rewrite Hother by done. rewrite Hp in Hout. by rewrite Hother.
Qed.

(** The calls of a run, whatever their order, are the calls of the table. *)
Lemma calls_table_results w cache order rs :
  order ≡ₚ needs_call cache →
  Forall2 (λ m r, call_of w m = Ok r) order rs →
  rs ≡ₚ table_results w cache ∧ all_return w cache.
Proof.
  intros Hp H2. split.
  - unfold table_results. rewrite <- Hp. clear Hp.
    induction H2 as [|m r order rs Hm _ IH]; [done|].
    cbn [omap list_omap]. rewrite Hm. by constructor.
  - intros m Hm. rewrite <- Hp in Hm.
    apply list_elem_of_lookup in Hm as [i Hi].
    destruct (Forall2_lookup_l _ _ _ _ _ H2 Hi) as (r & _ & Hr). by exists r.
Qed.

Lemma table_results_calls w cache :
  all_return w cache →
  Forall2 (λ m r, call_of w m = Ok r) (needs_call cache) (table_results w cache).
Proof.
  unfold all_return, table_results.
  induction (needs_call cache) as [|m l IH]; intros H; [constructor|].
  destruct (H m) as [r Hr]; [apply list_elem_of_here|].
  cbn [omap list_omap]. rewrite Hr. constructor; [done|].
  apply IH. intros m' Hm'. apply H. by apply list_elem_of_further.
Qed.

Lemma table_results_NoDup w cache :
  all_return w cache → NoDup (cr_name <$> table_results w cache).
Proof.
  intros H. rewrite (calls_names w _ _ (table_results_calls w cache H)).
  apply needs_call_names_NoDup.
Qed.

(** What [build_html] returned, it could print. *)
Lemma built_printable results dates doc n r :
  build_html results dates = Ok doc →
  n ∈ category_names CATEGORIES →
  results !! n = Some r → printable r.
Proof.
  intros Hb Hn Hr. apply build_html_ok in Hb as (Hs & _ & _).
  pose proof (sections_card_names _ _ _ _ Hs) as Hnames.
  pose proof (sections_cards_ok _ _ _ _ Hs) as Hcards.
  assert (n ∈ card_name <$> concat (sec_cards <$> doc_sections doc)) as Hin.
  { rewrite Hnames. apply list_elem_of_filter. split; [by exists r|done]. }
  apply list_elem_of_fmap in Hin as (c & -> & Hc).
  rewrite Forall_forall in Hcards.
  destruct (Hcards c Hc) as (r' & Hr' & Hcard).
  rewrite Hr in Hr'. injection Hr' as <-.
  apply card_of_ok in Hcard as (_ & _ & _ & Hf). by exists (card_time c).
Qed.

(** ** A run that writes its report *)

Lemma hit_not_called cache rs n :
  cr_name <$> rs ≡ₚ (needs_call cache).*1 →
  is_hit cache n = true → n ∉ cr_name <$> rs.
Proof.
  intros Hperm Hh Hin. rewrite Hperm in Hin.
  apply list_elem_of_fmap in Hin as (m & -> & Hm).
  apply elem_of_needs_call in Hm as [Hmiss _].
  by rewrite (hit_not_miss _ _ Hh) in Hmiss.
Qed.

(** The run of a script that wrote its report, or that came to its end:
    the one is the other.  Every model of the table went through lines
    315-317 and has its entry in [results], from the cache or from its
    call; the page was built from these entries; the log is the log of a
    whole run. *)
Lemma run_ends w st :
  run_exit (program w st) = 0%Z ∨ reports (run_log (program w st)) ≠ [] →
  ∃ cache results0 rs doc,
    load_cache st = Ok cache
    ∧ is_Some (match API_KEY w with Ok k => Some k | Raise _ => None end)
    ∧ from_cache cache results0
    ∧ (∀ m, m ∈ model_map → sortable cache m.1)
    ∧ Forall2 (λ m r, call_of w m = Ok r) (as_completed w (needs_call cache)) rs
    ∧ cr_name <$> rs ≡ₚ (needs_call cache).*1
    ∧ build_html (foldl record_result results0 rs) model_dates = Ok doc
    ∧ write_report w doc = Ok ()
    ∧ (∀ m, m ∈ model_map →
            ∃ r, foldl record_result results0 rs !! m.1 = Some r ∧ printable r)
    ∧ (∀ n, is_Some (foldl record_result results0 rs !! n) → n ∈ model_map.*1)
    ∧ script w st
      = (Ok (),
         (UsedCache <$> hits cache) ++ submit_events cache
         ++ (Collected <$> rs) ++ save_events cache rs
         ++ ReportWritten doc
            :: Tally (success_count (foldl record_result results0 rs))
                 (size (foldl record_result results0 rs))
            :: summary_lines (foldl record_result results0 rs)).
Proof.
  unfold program. cbn [run_log run_exit].
  destruct (script w st) as [o evs] eqn:S. cbn [fst snd]. intros H.
  pose proof S as S'.
  apply run_shape in S'
    as [(-> & e & -> & _)
       |(cache & Hl & Hk & [(used & e & -> & -> & _ & _)|S'])].
  { by destruct H. }
  { destruct (only_used used) as (_ & _ & _ & _ & U5). rewrite U5 in H.
    by destruct H. }
  destruct S' as (results0 & rs & Hfrom & Hv & Hrs & [(e & m & -> & _ & _ & ->)|S']).
  { destruct (only_used (hits cache)) as (_ & _ & _ & _ & U5).
    destruct (only_submitted (needs_call cache)) as (_ & _ & _ & _ & S5).
    destruct (only_collected rs) as (_ & _ & _ & _ & C5).
    fold (submit_events cache) in S5.
    rewrite !reports_app, U5, S5, C5 in H. by destruct H. }
  destruct S' as (Hlen & evs_w & Hw & ->).
  destruct (all_calls_collected _ _ _ Hrs Hlen) as [Hall Hperm].
  assert (NoDup (cr_name <$> rs)) as Hnd
    by (rewrite Hperm; apply needs_call_names_NoDup).
  set (merged := foldl record_result results0 rs) in *.
  destruct (only_used (hits cache)) as (_ & _ & _ & _ & U5).
  destruct (only_submitted (needs_call cache)) as (_ & _ & _ & _ & S5).
  destruct (only_collected rs) as (_ & _ & _ & _ & C5).
  fold (submit_events cache) in S5.
  assert (reports (save_events cache rs) = []) as V5.
  { unfold save_events. by destruct (needs_call cache). }
  apply wrap_up_cases in Hw
    as [(e & -> & -> & _)|(doc & lines & Hb & Hwr & -> & Hs & Hend)].
  { rewrite !reports_app, U5, S5, C5, V5 in H. by destruct H. }
  assert (∃ l, reports ((UsedCache <$> hits cache) ++ submit_events cache
                        ++ (Collected <$> rs) ++ save_events cache rs
                        ++ ReportWritten doc
                           :: Tally (success_count merged) (size merged) :: lines)
               = doc :: l) as [l Hrep].
  { exists (reports lines). by rewrite !reports_app, U5, S5, C5, V5. }
  assert (∀ m, m ∈ model_map → sortable cache m.1) as Hsortable.
  { destruct (sort_models cache) as [[sorted|e] evs0] eqn:Hsort.
    - by apply (sort_models_sortable _ _ _ Hsort).
    - exfalso.
      destruct (script_cases w st)
        as [(e' & _ & Hs')|[(key & e' & _ & _ & Hs')|(key & cache' & _ & Hl' & Hs')]];
        rewrite S in Hs'.
      + injection Hs' as _ Hs'. by rewrite Hs' in Hrep.
      + injection Hs' as _ Hs'. by rewrite Hs' in Hrep.
      + rewrite Hl in Hl'. injection Hl' as <-.
        rewrite (main_sort_raise w cache e evs0 Hsort) in Hs'.
        injection Hs' as _ Hs'. unfold sort_models in Hsort.
        apply sort_loop in Hsort as (used & -> & _).
        destruct (only_used used) as (_ & _ & _ & _ & U5').
        rewrite Hs', U5' in Hrep. done. }
  assert (∀ n, is_Some (merged !! n) → n ∈ model_map.*1) as Hnames.
  { intros n [x Hx]. apply foldl_record_result_lookup in Hx
      as [Hx|(r & Hr & <- & _)].
    - rewrite Hfrom in Hx. destruct (decide (n ∈ hits cache)) as [Hh|]; [|done].
      by apply elem_of_hits in Hh as [_ Hh].
    - assert (cr_name r ∈ (needs_call cache).*1) as Hin.
      { rewrite <- Hperm. apply list_elem_of_fmap. by exists r. }
      apply list_elem_of_fmap in Hin as (m & -> & Hm).
      apply elem_of_needs_call in Hm as [_ Hm].
      apply list_elem_of_fmap. by exists m. }
  assert (∀ n x, merged !! n = Some x → printable x) as Hprint.
  { intros n x Hx. apply (built_printable merged model_dates doc n x Hb); [|done].
    apply model_in_category, Hnames. by exists x. }
  destruct (Hend Hprint) as [-> ->].
  exists cache, results0, rs, doc.
  split; [done|]. split; [done|]. split; [done|]. split; [done|].
  split; [done|]. split; [done|]. split; [done|]. split; [done|].
  split; [|split; [done|]].
  - intros m Hm.
    assert (is_Some (merged !! m.1)) as [x Hx]; [|exists x; split; [done|by eapply Hprint]].
    destruct (Hsortable m Hm) as [Hmiss|[Hh [r0 Hr0]]].
    + assert (m ∈ as_completed w (needs_call cache)) as Hin.
      { rewrite (as_completed_perm w (needs_call cache)).
        by apply elem_of_needs_call. }
      apply list_elem_of_lookup in Hin as [i Hi].
      destruct (Forall2_lookup_l _ _ _ _ _ Hall Hi) as (r & Hri & Hr).
      apply list_elem_of_lookup_2 in Hri.
      unfold call_of in Hr. apply call_model_ok in Hr as [Hname _].
      exists (result_of r). rewrite <- Hname.
      by apply foldl_record_result_own.
    + exists r0. unfold merged.
      rewrite foldl_record_result_other by by apply (hit_not_called cache).
      rewrite Hfrom. rewrite decide_True; [done|].
      apply elem_of_hits. split; [done|]. apply list_elem_of_fmap. by exists m.
  - reflexivity.
Qed.

Lemma category_in_model name :
  name ∈ category_names CATEGORIES → name ∈ model_map.*1.
Proof.
  revert name. apply Forall_forall. apply (bool_decide_unpack _). by vm_compute.
Qed.

Lemma tables_agree : category_names CATEGORIES ≡ₚ model_map.*1.
Proof.
  apply NoDup_Permutation.
  - apply category_names_NoDup.
  - apply model_names_NoDup.
  - intros n. split; [apply category_in_model | apply model_in_category].
Qed.

Lemma status_names_app e1 e2 :
  status_names (e1 ++ e2) = status_names e1 ++ status_names e2.
Proof. apply omap_app. Qed.

Lemma summary_lines_names results :
  (∀ m, m ∈ model_map → is_Some (results !! m.1)) →
  status_names (summary_lines results) = model_map.*1
  ∧ reports (summary_lines results) = []
  ∧ saved_caches (summary_lines results) = [].
Proof.
  unfold summary_lines. induction model_map as [|m l IH]; intros H; [done|].
  destruct (H m) as [r Hr]; [apply list_elem_of_here|].
  destruct IH as (I1 & I2 & I3).
  { intros m' Hm'. apply H. by apply list_elem_of_further. }
  cbn [omap list_omap]. rewrite Hr. cbn [mbind option_bind].
  cbn [status_names reports saved_caches omap list_omap fmap list_fmap].
  fold (status_names) (reports) (saved_caches). unfold status_names, reports, saved_caches in *.
  by rewrite I1, I2, I3.
Qed.

Lemma quiet_status_names cache rs :
  status_names (UsedCache <$> hits cache) = []
  ∧ status_names (submit_events cache) = []
  ∧ status_names (Collected <$> rs) = []
  ∧ status_names (save_events cache rs) = [].
Proof.
  unfold submit_events, save_events.
  split; [by induction (hits cache)|].
  split; [by induction (needs_call cache)|].
  split; [by induction rs|]. by destruct (needs_call cache).
Qed.

(** ** The log of a run that comes to its end *)

(** What a run prints and writes, in order, when it exits with status 0:
    the models taken from the cache, in the order of the table; the calls
    submitted, in the order of the table; their results, in the order in
    which they complete; the cache, once, if there was a call; the report;
    the count of successes and the total, which are those of the page; one
    summary line for every model, in the order of the table. *)
Theorem run_log_layout w st :
  run_exit (program w st) = 0%Z →
  ∃ cache rs results doc,
    load_cache st = Ok cache
    ∧ Forall2 (λ m r, call_of w m = Ok r) (as_completed w (needs_call cache)) rs
    ∧ (∀ n, n ∈ hits cache → results !! n = hit_value cache n)
    ∧ (∀ r, r ∈ rs → results !! cr_name r = Some (result_of r))
    ∧ (∀ n, is_Some (results !! n) ↔ n ∈ model_map.*1)
    ∧ build_html results model_dates = Ok doc
    ∧ run_log (program w st)
      = (UsedCache <$> hits cache)
        ++ ((λ m, Submitted m.1 m.2) <$> needs_call cache)
        ++ (Collected <$> rs)
        ++ match needs_call cache with
           | [] => []
           | _ :: _ => [CacheSaved (foldl record_cache cache rs)]
           end
        ++ [ReportWritten doc; Tally (doc_success doc) (doc_total doc)]
        ++ summary_lines results
    ∧ status_names (summary_lines results) = model_map.*1.
Proof.
  intros H.
  destruct (run_ends w st (or_introl H))
    as (cache & results0 & rs & doc & Hl & _ & Hfrom & Hsort & Hrs & Hperm
        & Hb & Hwr & Hall & Hnames & Hlog).
  exists cache, rs, (foldl record_result results0 rs), doc.
  assert (NoDup (cr_name <$> rs)) as Hnd
    by (rewrite Hperm; apply needs_call_names_NoDup).
  split; [done|]. split; [done|]. split; [|split; [|split; [|split; [done|split]]]].
  - intros n Hn. pose proof Hn as [Hh _]%elem_of_hits.
    rewrite foldl_record_result_other by by apply (hit_not_called cache).
    rewrite Hfrom. by rewrite decide_True.
  - intros r Hr. by apply foldl_record_result_own.
  - intros n. split; [apply Hnames|].
    intros (m & -> & Hm)%list_elem_of_fmap.
    destruct (Hall m Hm) as (r & Hr & _). by exists r.
  - unfold program. cbn [run_log]. rewrite Hlog. cbn [snd].
    apply build_html_ok in Hb as (_ & -> & ->). reflexivity.
  - apply summary_lines_names. intros m Hm.
    destruct (Hall m Hm) as (r & Hr & _). by exists r.
Qed.

Lemma run_log_layout_witness :
  run_exit (program failing_world NoStore) = 0%Z
  ∧ ∃ cache results doc,
      load_cache NoStore = Ok cache
      ∧ build_html results model_dates = Ok doc
      ∧ status_names (summary_lines results) = model_map.*1.
Proof.
  assert (run_exit (program failing_world NoStore) = 0%Z) as H by (by vm_compute).
  split; [exact H|].
  destruct (run_log_layout failing_world NoStore H)
    as (cache & rs & results & doc & H1 & _ & _ & _ & _ & H6 & _ & H8).
  exists cache, results, doc. split; [exact H1|]. split; [exact H6|exact H8].
Defined.

Lemma filter_all {A} (P : A → Prop) `{∀ x, Decision (P x)} (l : list A) :
  Forall P l → filter P l = l.
Proof.
  induction 1 as [|x l Hx _ IH]; [done|].
  rewrite filter_cons_True by done. by rewrite IH.
Qed.

Lemma status_names_report doc s t lines :
  status_names (ReportWritten doc :: Tally s t :: lines) = status_names lines.
Proof. reflexivity. Qed.

(** Every model has its place in the report.  A run that writes its
    report ends with status 0, and its page has one card for every model of
    the table, in the order of the categories; the subtitle counts them all;
    the summary has one line for every model, in the order of the table. *)
Theorem report_covers_every_model w st doc :
  reports (run_log (program w st)) = [doc] →
  run_exit (program w st) = 0%Z
  ∧ card_name <$> cards doc = category_names CATEGORIES
  ∧ card_name <$> cards doc ≡ₚ model_map.*1
  ∧ doc_total doc = length MODELS
  ∧ length (cards doc) = length MODELS
  ∧ status_names (run_log (program w st)) = model_map.*1.
Proof.
  intros Hrep.
  destruct (run_ends w st) as (cache & results0 & rs & doc' & Hl & _ & Hfrom
                               & Hsort & Hrs & Hperm & Hb & Hwr & Hall & Hnames & Hlog).
  { right. by rewrite Hrep. }
  set (merged := foldl record_result results0 rs) in *.
  assert (∀ m, m ∈ model_map → is_Some (merged !! m.1)) as Hsome.
  { intros m Hm. destruct (Hall m Hm) as (r & Hr & _). by exists r. }
  destruct (summary_lines_names merged Hsome) as (L1 & L2 & _).
  destruct (quiet_status_names cache rs) as (Q1 & Q2 & Q3 & Q4).
  destruct (only_used (hits cache)) as (_ & _ & _ & _ & U5).
  destruct (only_submitted (needs_call cache)) as (_ & _ & _ & _ & S5).
  destruct (only_collected rs) as (_ & _ & _ & _ & C5).
  fold (submit_events cache) in S5.
  assert (reports (save_events cache rs) = []) as V5.
  { unfold save_events. by destruct (needs_call cache). }
  unfold program in Hrep |- *. cbn [run_log run_exit] in Hrep |- *.
  rewrite Hlog in Hrep |- *. cbn [fst snd] in Hrep |- *.
  rewrite !reports_app, U5, S5, C5, V5 in Hrep.
  destruct (report_events_kinds doc' (success_count merged) (size merged)
              (summary_lines merged)) as (_ & _ & R5).
  rewrite !app_nil_l, R5, L2 in Hrep. injection Hrep as ->.
  assert (card_name <$> cards doc = category_names CATEGORIES) as Hcards.
  { pose proof Hb as (Hs & _ & _)%build_html_ok.
    unfold cards. rewrite (sections_card_names _ _ _ _ Hs).
    apply filter_all, Forall_forall. intros n Hn.
    apply category_in_model in Hn. apply list_elem_of_fmap in Hn as (m & -> & Hm).
    by apply Hsome. }
  split; [done|]. split; [done|]. split; [by rewrite Hcards, tables_agree|].
  assert (length (cards doc) = length MODELS) as Hlen.
  { rewrite <- (length_fmap card_name), Hcards, tables_agree.
    unfold model_map. by rewrite !length_fmap. }
  split; [|split; [done|]].
  - rewrite <- Hlen, (card_count merged model_dates doc Hb Hnames).
    apply build_html_ok in Hb as (_ & Ht & _). exact Ht.
  - rewrite !status_names_app, Q1, Q2, Q3, Q4, !app_nil_l.
    rewrite status_names_report. exact L1.
Qed.

Lemma report_covers_every_model_witness :
  ∃ doc, reports (run_log (program failing_world NoStore)) = [doc]
         ∧ length (cards doc) = 36%nat
         ∧ status_names (run_log (program failing_world NoStore)) = model_map.*1.
Proof.
  destruct (reports (run_log (program failing_world NoStore)))
    as [|doc [|]] eqn:E;
    [vm_compute in E; discriminate E| |vm_compute in E; discriminate E].
  exists doc. split; [done|].
  destruct (report_covers_every_model failing_world NoStore doc E)
    as (_ & _ & _ & _ & H5 & H6).
  split; [exact H5|exact H6].
Defined.

(** ** When a run exits with status 0 *)



Lemma sort_loop_total cache models acc :
  (∀ m, m ∈ models → sortable cache m.1) →
  ∃ acc' evs, for_each (sort_model cache) models acc = (Ok acc', evs).
Proof.
  revert acc. induction models as [|m models IH]; intros acc H.
  - by exists acc, [].
  - cbn [for_each]. rewrite sort_model_cases.
    assert (∀ m', m' ∈ models → sortable cache m'.1) as H'
      by (intros m' Hm'; apply H; by apply list_elem_of_further).
    destruct (H m (list_elem_of_here _ _)) as [Hm|(Hh & r & Hr)].
    + unfold is_miss in Hm. destruct (cached cache m.1) as [[|]|]; try done.
      destruct (IH (acc.1, acc.2 ++ [m]) H') as (acc' & evs & Hrest).
      exists acc', ([] ++ evs). by rewrite bind_ok, Hrest.
    + unfold is_hit in Hh. destruct (cached cache m.1) as [[|]|]; try done.
      unfold hit_value in Hr.
      destruct (cached_result cache m.1) as [r'|]; [|done].
      destruct (IH (<[m.1 := r']> acc.1, acc.2) H') as (acc' & evs & Hrest).
      exists acc', ([UsedCache m.1] ++ evs). by rewrite bind_ok, Hrest.
Qed.


(** What the page of a run that ends shows, the file could take. *)
Lemma run_ends_legible w st cache :
  run_exit (program w st) = 0%Z ∨ reports (run_log (program w st)) ≠ [] →
  load_cache st = Ok cache →
  (∀ n r, n ∈ hits cache → hit_value cache n = Some r → legible w r)
  ∧ (∀ m r, m ∈ needs_call cache → call_of w m = Ok r → legible w (result_of r)).
Proof.
  intros H Hl.
  destruct (run_ends w st H)
    as (cache' & results0 & rs & doc & Hl' & _ & Hfrom & _ & Hrs & Hperm
        & Hb & Hwr & _).
  rewrite Hl in Hl'. injection Hl' as <-.
  pose proof (proj1 (write_report_ok w _ doc Hb) Hwr) as Hleg.
  assert (NoDup (cr_name <$> rs)) as Hnd
    by (rewrite Hperm; apply needs_call_names_NoDup).
  split.
  - intros n r Hn Hr. pose proof Hn as [Hh Hm]%elem_of_hits.
    apply (Hleg n r); [by apply model_in_category|].
    rewrite foldl_record_result_other by by apply (hit_not_called cache).
    rewrite Hfrom. by rewrite decide_True.
  - intros m r Hm Hr. pose proof Hm as [_ Hmodel]%elem_of_needs_call.
    rewrite <- (as_completed_perm w (needs_call cache)) in Hm.
    apply list_elem_of_lookup in Hm as [i Hi].
    destruct (Forall2_lookup_l _ _ _ _ _ Hrs Hi) as (r' & Hri & Hr').
    rewrite Hr in Hr'. injection Hr' as <-.
    apply list_elem_of_lookup_2 in Hri.
    unfold call_of in Hr. apply call_model_ok in Hr as [Hname _].
    apply (Hleg m.1 (result_of r)).
    + apply model_in_category, list_elem_of_fmap. by exists m.
    + rewrite <- Hname. by apply foldl_record_result_own.
Qed.


(** ** A run seen through the calls of the table *)

Lemma run_observed w st key cache :
  API_KEY w = Ok key →
  load_cache st = Ok cache →
  (∀ m, m ∈ model_map → sortable cache m.1) →
  ∃ results0 rs,
    from_cache cache results0
    ∧ Forall2 (λ m r, call_of w m = Ok r)
        (take (length rs) (as_completed w (needs_call cache))) rs
    ∧ ((¬ all_return w cache
        ∧ (length rs < length (needs_call cache))%nat
        ∧ ∃ e, script w st
               = (Raise e,
                  (UsedCache <$> hits cache) ++ submit_events cache
                  ++ (Collected <$> rs)))
       ∨ (all_return w cache
          ∧ rs ≡ₚ table_results w cache
          ∧ script w st
            = ((wrap_up w (foldl record_result results0 (table_results w cache))).1,
               (UsedCache <$> hits cache) ++ submit_events cache
               ++ (Collected <$> rs)
               ++ save_events cache (table_results w cache)
               ++ (wrap_up w (foldl record_result results0
                              (table_results w cache))).2))).
Proof.
  intros Hk Hl Hsortable.
  destruct (script w st) as [o evs] eqn:S.
  apply run_shape in S
    as [(_ & e & _ & [Hk'|Hl'])
       |(cache' & Hl' & _ & [(used & e & _ & _ & _ & Hsort)|S])];
    [congruence | congruence | |].
  { rewrite Hl in Hl'. injection Hl' as <-. unfold sort_models in Hsort.
    destruct (sort_loop_total cache model_map (∅, []) Hsortable)
      as (acc' & evs' & Hs).
    congruence. }
  rewrite Hl in Hl'. injection Hl' as <-.
  destruct S as (results0 & rs & Hfrom & _ & Hrs & [(e & m & -> & Hm & Hc & ->)|S]).
  - exists results0, rs. split; [done|]. split; [done|]. left.
    split; [|split; [|by exists e]].
    + intros Hall. apply list_elem_of_lookup_2 in Hm as Hin.
      rewrite (as_completed_perm w (needs_call cache)) in Hin.
      destruct (Hall m Hin) as [r Hr]. congruence.
    + apply lookup_lt_Some in Hm.
      by rewrite (Permutation_length (as_completed_perm w (needs_call cache))) in Hm.
  - destruct S as (Hlen & evs_w & Hw & ->).
    destruct (all_calls_collected _ _ _ Hrs Hlen) as [Hall Hperm].
    destruct (calls_table_results w cache _ rs
                (as_completed_perm w (needs_call cache)) Hall) as [HT Hret].
    assert (NoDup (cr_name <$> rs)) as Hnd
      by (rewrite Hperm; apply needs_call_names_NoDup).
    exists results0, rs. split; [done|]. split; [done|]. right.
    split; [done|]. split; [done|].
    rewrite <- (foldl_record_result_perm rs _ results0 HT Hnd), Hw.
    cbn [fst snd]. do 4 f_equal. unfold save_events.
    by rewrite (foldl_record_cache_perm rs _ cache HT Hnd).
Qed.

Lemma apart_app e1 e2 :
  apart_from_collected (e1 ++ e2)
  = apart_from_collected e1 ++ apart_from_collected e2.
Proof. apply List.filter_app. Qed.

Lemma apart_quiet evs : collected evs = [] → apart_from_collected evs = evs.
Proof.
  unfold apart_from_collected.
  induction evs as [|ev evs IH]; [done|].
  destruct ev; intros H;
    try (change (collected evs = []) in H; cbn [List.filter]; by rewrite (IH H)).
  discriminate H.
Qed.

Lemma apart_collected rs : apart_from_collected (Collected <$> rs) = [].
Proof. unfold apart_from_collected. by induction rs. Qed.

Lemma apart_kinds evs :
  used_caches (apart_from_collected evs) = used_caches evs
  ∧ submitted (apart_from_collected evs) = submitted evs
  ∧ saved_caches (apart_from_collected evs) = saved_caches evs
  ∧ reports (apart_from_collected evs) = reports evs
  ∧ status_names (apart_from_collected evs) = status_names evs.
Proof.
  unfold apart_from_collected, used_caches, submitted, saved_caches, reports,
    status_names.
  induction evs as [|ev evs (I1 & I2 & I3 & I4 & I5)]; [done|].
  destruct ev; cbn [List.filter omap list_omap];
    by rewrite ?I1, ?I2, ?I3, ?I4, ?I5.
Qed.

Lemma save_events_quiet cache rs :
  used_caches (save_events cache rs) = []
  ∧ submitted (save_events cache rs) = []
  ∧ collected (save_events cache rs) = []
  ∧ reports (save_events cache rs) = [].
Proof. unfold save_events. by destruct (needs_call cache). Qed.

(** The log of a run, with the collected results set apart. *)
Lemma run_apart w st key cache :
  API_KEY w = Ok key →
  load_cache st = Ok cache →
  (∀ m, m ∈ model_map → sortable cache m.1) →
  ∃ results0,
    from_cache cache results0
    ∧ ((¬ all_return w cache
        ∧ run_exit (program w st) = 1%Z
        ∧ (length (collected (run_log (program w st)))
           < length (needs_call cache))%nat
        ∧ apart_from_collected (run_log (program w st))
          = (UsedCache <$> hits cache) ++ submit_events cache)
       ∨ (all_return w cache
          ∧ collected (run_log (program w st)) ≡ₚ table_results w cache
          ∧ run_exit (program w st)
            = match (wrap_up w (foldl record_result results0
                                (table_results w cache))).1 with
              | Ok _ => 0%Z
              | Raise _ => 1%Z
              end
          ∧ apart_from_collected (run_log (program w st))
            = (UsedCache <$> hits cache) ++ submit_events cache
              ++ save_events cache (table_results w cache)
              ++ (wrap_up w (foldl record_result results0
                             (table_results w cache))).2)).
Proof.
  intros Hk Hl Hsortable.
  destruct (run_observed w st key cache Hk Hl Hsortable)
    as (results0 & rs & Hfrom & Hrs & H).
  exists results0. split; [done|].
  destruct (only_used (hits cache)) as (_ & _ & U3 & _).
  destruct (only_submitted (needs_call cache)) as (_ & _ & S3 & _).
  destruct (only_collected rs) as (_ & _ & C3 & _).
  fold (submit_events cache) in S3.
  unfold program. cbn [run_log run_exit].
  destruct H as [(Hno & Hlen & e & ->)|(Hall & HT & ->)]; cbn [fst snd].
  - left. split; [done|]. split; [done|].
    rewrite !collected_app, U3, S3, C3, !app_nil_l.
    split; [done|].
    rewrite !apart_app, apart_collected, app_nil_r.
    by rewrite !apart_quiet.
  - right. split; [done|].
    destruct (wrap_up w (foldl record_result results0 (table_results w cache)))
      as [o evs_w] eqn:Hw.
    destruct (wrap_up_quiet _ _ _ _ Hw) as (_ & _ & W3 & _).
    destruct (save_events_quiet cache (table_results w cache)) as (_ & _ & V3 & _).
    cbn [fst snd].
    rewrite !collected_app, U3, S3, C3, V3, W3, !app_nil_l, !app_nil_r.
    split; [done|]. split; [done|].
    rewrite !apart_app, apart_collected, app_nil_l.
    by rewrite !apart_quiet.
Qed.

Lemma ended_all_return w st cache :
  run_exit (program w st) = 0%Z ∨ reports (run_log (program w st)) ≠ [] →
  load_cache st = Ok cache →
  all_return w cache.
Proof.
  intros H Hl.
  destruct (run_ends w st H)
    as (cache' & results0 & rs & doc & Hl' & _ & _ & _ & Hrs & _).
  rewrite Hl in Hl'. injection Hl' as <-.
  by destruct (calls_table_results w cache _ rs
                 (as_completed_perm w (needs_call cache)) Hrs).
Qed.

(** ** The order in which the calls complete *)

Lemma wrap_up_world w w' results :
  shown w = shown w' → file_has w = file_has w' →
  wrap_up w results = wrap_up w' results.
Proof.
  intros Hs Hf.
  unfold wrap_up, write_report, page_text, card_text, panel_text, encodable.
  by rewrite Hs, Hf.
Qed.

(** Two worlds that differ in nothing but the times at which the calls
    complete.  Their runs exit with the same status and do the same things
    in the same order, the results collected at line 326 apart: the same
    models are taken from the cache, the same calls are submitted, the same
    cache is saved, the same report is written, the same summary is
    printed.  When the runs come to their end, the results collected are the
    same up to their order. *)
Theorem completion_order_is_irrelevant w w' st :
  environ_key w = environ_key w' →
  secrets_get w = secrets_get w' →
  wording w = wording w' →
  shown w = shown w' →
  file_has w = file_has w' →
  net w = net w' →
  run_exit (program w st) = run_exit (program w' st)
  ∧ apart_from_collected (run_log (program w st))
    = apart_from_collected (run_log (program w' st))
  ∧ reports (run_log (program w st)) = reports (run_log (program w' st))
  ∧ saved_caches (run_log (program w st)) = saved_caches (run_log (program w' st))
  ∧ store_after st (program w st) = store_after st (program w' st)
  ∧ (run_exit (program w st) = 0%Z →
     collected (run_log (program w st)) ≡ₚ collected (run_log (program w' st))).
Proof.
  intros He Hs Hw Hsh Hfh Hn.
  assert (API_KEY w = API_KEY w') as HK by (unfold API_KEY; by rewrite He, Hs).
  pose proof (wrap_up_world w w') as HW.
  assert (∀ cache, table_results w cache = table_results w' cache) as HT
    by (intros cache; unfold table_results, call_of; by rewrite Hw, Hn).
  assert (∀ cache, all_return w cache ↔ all_return w' cache) as HA
    by (intros cache; unfold all_return, call_of; by rewrite Hw, Hn).
  assert (run_exit (program w st) = run_exit (program w' st)
          ∧ apart_from_collected (run_log (program w st))
            = apart_from_collected (run_log (program w' st))
          ∧ (run_exit (program w st) = 0%Z →
             collected (run_log (program w st))
             ≡ₚ collected (run_log (program w' st)))) as (H1 & H2 & H3).
  { destruct (script_cases w st)
      as [(e & Hk & S)|[(key & e & Hk & Hl & S)|(key & cache & Hk & Hl & S)]];
    destruct (script_cases w' st)
      as [(e' & Hk' & S')|[(key' & e' & Hk' & Hl' & S')|(key' & cache' & Hk' & Hl' & S')]];
    rewrite HK in Hk; try congruence.
    - unfold program. by rewrite S, S'.
    - unfold program. by rewrite S, S'.
    - rewrite Hl in Hl'. injection Hl' as <-.
      destruct (sort_models cache) as [[sorted|e] evs0] eqn:Hsort.
      + pose proof (sort_models_sortable _ _ _ Hsort) as Hsortable.
        rewrite <- HK in Hk.
        destruct (run_apart w st key cache Hk Hl Hsortable)
          as (r0 & Hf & [(Hno & X1 & _ & X2)|(Hall & X0 & X1 & X2)]);
        destruct (run_apart w' st key' cache Hk' Hl Hsortable)
          as (r0' & Hf' & [(Hno' & Y1 & _ & Y2)|(Hall' & Y0 & Y1 & Y2)]).
        * rewrite X1, Y1, X2, Y2. split; [done|]. split; [done|]. done.
        * by apply HA in Hall'.
        * by apply HA in Hall.
        * rewrite (from_cache_unique _ _ _ Hf' Hf), <- HT in Y1, Y2.
          rewrite <- (HW _ Hsh Hfh) in Y1, Y2.
          rewrite X1, Y1, X2, Y2, X0, Y0, HT. done.
      + unfold program.
        rewrite S, S', (main_sort_raise w cache e evs0 Hsort),
          (main_sort_raise w' cache e evs0 Hsort). done. }
  destruct (apart_kinds (run_log (program w st))) as (_ & _ & K3 & K4 & _).
  destruct (apart_kinds (run_log (program w' st))) as (_ & _ & K3' & K4' & _).
  assert (saved_caches (run_log (program w st))
          = saved_caches (run_log (program w' st))) as Hsaved
    by (by rewrite <- K3, <- K3', H2).
  split; [done|]. split; [done|].
  split; [by rewrite <- K4, <- K4', H2|].
  split; [done|]. split; [|done].
  unfold store_after. by rewrite Hsaved.
Qed.

Lemma completion_order_is_irrelevant_witness :
  run_exit (program example_world NoStore)
  = run_exit (program reversed_world NoStore)
  ∧ reports (run_log (program example_world NoStore))
    = reports (run_log (program reversed_world NoStore))
  ∧ store_after NoStore (program example_world NoStore)
    = store_after NoStore (program reversed_world NoStore).
Proof.
  destruct (completion_order_is_irrelevant example_world reversed_world NoStore
              eq_refl eq_refl eq_refl eq_refl eq_refl eq_refl)
    as (H1 & _ & H3 & _ & H5 & _).
  split; [exact H1|]. split; [exact H3|exact H5].
Defined.

(** ** A call that raises *)

(** A call that raises takes the run with it.  [future.result()] raises
    at line 326 what the call raised, nothing catches it, and the script
    ends there: with status 1, with no report, and with the cache file as
    it was, whatever the other calls returned, those collected before
    included.  When the run got as far as the calls, every one of them had
    been submitted. *)
Theorem raising_call_loses_the_run w st cache m e :
  load_cache st = Ok cache →
  m ∈ needs_call cache →
  call_of w m = Raise e →
  run_exit (program w st) = 1%Z
  ∧ reports (run_log (program w st)) = []
  ∧ saved_caches (run_log (program w st)) = []
  ∧ store_after st (program w st) = st
  ∧ (∀ key,
       API_KEY w = Ok key →
       (∀ m', m' ∈ model_map → sortable cache m'.1) →
       submitted (run_log (program w st)) = needs_call cache
       ∧ (length (collected (run_log (program w st)))
          < length (needs_call cache))%nat).
Proof.
  intros Hl Hm Hc.
  assert (¬ all_return w cache) as Hno.
  { intros Hall. destruct (Hall m Hm) as [r Hr]. congruence. }
  assert (¬ (run_exit (program w st) = 0%Z
             ∨ reports (run_log (program w st)) ≠ [])) as Hends.
  { intros H. apply Hno. by apply (ended_all_return w st). }
  assert (saved_caches (run_log (program w st)) = []) as Hsaved.
  { destruct (run_saves w st) as [H|(cache' & Hl' & _ & _ & Hall & _)]; [done|].
    rewrite Hl in Hl'. injection Hl' as <-. exfalso. apply Hno.
    by destruct (calls_table_results w cache _ _
                   (as_completed_perm w (needs_call cache)) Hall). }
  split; [|split; [|split; [done|split]]].
  - assert (run_exit (program w st) = 0%Z ∨ run_exit (program w st) = 1%Z)
      as [H|H]; [|by destruct Hends; left|done].
    unfold program. cbn [run_exit]. destruct (script w st).1; auto.
  - destruct (reports (run_log (program w st))) eqn:E; [done|].
    destruct Hends. right. by rewrite ?E.
  - unfold store_after. by rewrite Hsaved.
  - intros key Hk Hsortable.
    destruct (run_apart w st key cache Hk Hl Hsortable)
      as (r0 & _ & [(_ & _ & X1 & X2)|(Hall & _)]); [|done].
    split; [|done].
    destruct (apart_kinds (run_log (program w st))) as (_ & <- & _).
    rewrite X2, submitted_app.
    destruct (only_used (hits cache)) as (_ & -> & _).
    destruct (only_submitted (needs_call cache)) as (_ & S2 & _).
    fold (submit_events cache) in S2. by rewrite S2.
Qed.

Lemma raising_call_loses_the_run_witness :
  run_exit (program garbled_world NoStore) = 1%Z
  ∧ reports (run_log (program garbled_world NoStore)) = []
  ∧ store_after NoStore (program garbled_world NoStore) = NoStore
  ∧ length (submitted (run_log (program garbled_world NoStore))) = 36%nat.
Proof.
  destruct (raising_call_loses_the_run garbled_world NoStore ∅
              (cps "GPT-5", cps "openai/gpt-5") UnicodeDecodeError)
    as (H1 & H2 & _ & H4 & H5).
  - reflexivity.
  - apply (bool_decide_unpack _). by vm_compute.
  - reflexivity.
  - split; [exact H1|]. split; [exact H2|]. split; [exact H4|].
    destruct (H5 (cps "sk-test") eq_refl) as [H6 _].
    + intros m' Hm'. left. unfold is_miss, cached. by rewrite lookup_empty.
    + rewrite H6. by vm_compute.
Defined.

(** ** The cache from one run to the next *)

Lemma summary_lines_quiet results :
  used_caches (summary_lines results) = []
  ∧ submitted (summary_lines results) = []
  ∧ collected (summary_lines results) = []
  ∧ saved_caches (summary_lines results) = []
  ∧ reports (summary_lines results) = [].
Proof.
  apply status_only_quiet. unfold status_only, summary_lines.
  induction model_map as [|m l IH]; [constructor|].
  cbn [omap list_omap]. destruct (results !! m.1) as [r|]; [|exact IH].
  cbn [mbind option_bind]. constructor; [|exact IH]. by eexists _, _, _.
Qed.

Lemma report_events_quiet doc s t lines :
  used_caches (ReportWritten doc :: Tally s t :: lines) = used_caches lines
  ∧ saved_caches (ReportWritten doc :: Tally s t :: lines) = saved_caches lines.
Proof. done. Qed.

Lemma ended_log_kinds cache rs doc s t results :
  let log := (UsedCache <$> hits cache) ++ submit_events cache
             ++ (Collected <$> rs) ++ save_events cache rs
             ++ ReportWritten doc :: Tally s t :: summary_lines results in
  used_caches log = hits cache
  ∧ submitted log = needs_call cache
  ∧ collected log = rs
  ∧ saved_caches log = saved_caches (save_events cache rs)
  ∧ reports log = [doc].
Proof.
  destruct (summary_lines_quiet results) as (L1 & L2 & L3 & L4 & L5).
  destruct (report_events_kinds doc s t (summary_lines results))
    as (R2 & R3 & R5).
  destruct (report_events_quiet doc s t (summary_lines results)) as (R1 & R4).
  rewrite L1 in R1. rewrite L2 in R2. rewrite L3 in R3. rewrite L4 in R4.
  rewrite L5 in R5.
  intros log.
  destruct (full_log_kinds cache rs
              (ReportWritten doc :: Tally s t :: summary_lines results)
              R1 R2 R3 R4)
    as (K1 & K2 & K3 & K4).
  split; [exact K1|]. split; [exact K2|]. split; [exact K3|]. split; [exact K4|].
  unfold log.
  destruct (only_used (hits cache)) as (_ & _ & _ & _ & U5).
  destruct (only_submitted (needs_call cache)) as (_ & _ & _ & _ & S5).
  destruct (only_collected rs) as (_ & _ & _ & _ & C5).
  destruct (save_events_quiet cache rs) as (_ & _ & _ & V5).
  fold (submit_events cache) in S5.
  rewrite !reports_app, U5, S5, C5, V5, !app_nil_l. exact R5.
Qed.

Lemma worth_caching_call wording name model_id a r :
  call_model wording name model_id a = Ok r →
  worth_caching r = true ↔ cr_error r = None.
Proof.
  intros H. pose proof (call_model_ok _ _ _ _ _ H) as [_ Hone].
  destruct Hone as [[[svg Hs] He]|[Hs [e He]]].
  - destruct (call_model_svg _ _ _ _ _ _ H Hs) as (Hne & _ & _).
    unfold worth_caching. rewrite Hs, He. cbn. split; [done|]. intros _.
    by destruct svg.
  - unfold worth_caching. rewrite Hs, He. by cbn.
Qed.

Lemma cached_lookup cache cache' n :
  cache' !! n = cache !! n →
  is_hit cache' n = is_hit cache n ∧ is_miss cache' n = is_miss cache n.
Proof. intros H. unfold is_hit, is_miss, cached. by rewrite H. Qed.

Lemma foldl_record_cache_fresh rs cache n :
  n ∉ cr_name <$> rs → foldl record_cache cache rs !! n = cache !! n.
Proof.
  intros Hn. apply foldl_record_cache_other. intros r Hr Hname.
  exfalso. apply Hn. rewrite <- Hname. apply list_elem_of_fmap. by exists r.
Qed.

(** The cache file after a run that came to its end, and the run after
    it.  The file holds what it held, entry for entry, and on top of that
    the entry of every call that returned without an error.  So the models
    that the next run calls are the models whose call failed in this one, no
    more and no fewer; the models taken from the cache in this run are taken
    from it in the next; and once no call has failed, a further run, in
    whatever world, submits nothing and saves nothing. *)
Theorem next_run_calls_the_failures w st cache :
  load_cache st = Ok cache →
  run_exit (program w st) = 0%Z →
  ∃ cache',
    load_cache (store_after st (program w st)) = Ok cache'
    ∧ (∀ m, m ∈ needs_call cache'
            ↔ m ∈ model_map
              ∧ ∃ r, r ∈ collected (run_log (program w st))
                     ∧ cr_name r = m.1 ∧ is_Some (cr_error r))
    ∧ (∀ n, n ∈ hits cache → n ∈ hits cache' ∧ cache' !! n = cache !! n)
    ∧ (∀ r, r ∈ collected (run_log (program w st)) →
            cr_error r = None →
            cr_name r ∈ hits cache'
            ∧ cache' !! cr_name r = Some (cache_entry r))
    ∧ (∀ n, n ∉ model_map.*1 → cache' !! n = cache !! n)
    ∧ ((∀ r, r ∈ collected (run_log (program w st)) → cr_error r = None) →
       needs_call cache' = []
       ∧ ∀ w',
           let log' := run_log (program w' (store_after st (program w st))) in
           submitted log' = [] ∧ collected log' = [] ∧ saved_caches log' = []).
Proof.
  intros Hl H.
  destruct (run_ends w st (or_introl H))
    as (cache0 & results0 & rs & doc & Hl' & _ & Hfrom & Hsort & Hrs & Hperm
        & Hb & Hwr & Hall & Hnames & Hlog).
  rewrite Hl in Hl'. injection Hl' as <-.
  assert (NoDup (cr_name <$> rs)) as Hnd
    by (rewrite Hperm; apply needs_call_names_NoDup).
  assert (run_log (program w st) = (script w st).2) as Hrun by done.
  rewrite Hlog in Hrun. cbn [snd] in Hrun.
  destruct (ended_log_kinds cache rs doc
              (success_count (foldl record_result results0 rs))
              (size (foldl record_result results0 rs))
              (foldl record_result results0 rs)) as (_ & _ & K3 & K4 & _).
  rewrite <- Hrun in K3, K4. rewrite K3. clear Hrun Hlog.
  set (cache' := foldl record_cache cache rs).
  assert (load_cache (store_after st (program w st)) = Ok cache') as Hload.
  { unfold store_after. rewrite K4. unfold save_events, cache'.
    destruct (needs_call cache) as [|m0 l] eqn:E; [|done].
    cbn [saved_caches omap list_omap last]. rewrite Hl.
    apply Permutation_nil_r in Hperm. by destruct rs. }
  assert (∀ r, r ∈ rs → ∃ m, m ∈ needs_call cache ∧ call_of w m = Ok r
                            ∧ cr_name r = m.1) as Hcall.
  { intros r Hr. apply list_elem_of_lookup in Hr as [i Hi].
    destruct (Forall2_lookup_r _ _ _ _ _ Hrs Hi) as (m & Hmi & Hm).
    apply list_elem_of_lookup_2 in Hmi.
    rewrite (as_completed_perm w (needs_call cache)) in Hmi.
    exists m. split; [done|]. split; [done|].
    unfold call_of in Hm. by apply call_model_ok in Hm as [? _]. }
  assert (∀ r, r ∈ rs →
               cache' !! cr_name r
               = if worth_caching r then Some (cache_entry r)
                 else cache !! cr_name r) as Hown
    by (intros r Hr; by apply foldl_record_cache_own).
  assert (∀ n, is_hit cache n = true → cache' !! n = cache !! n) as Hkeep.
  { intros n Hh. apply foldl_record_cache_fresh.
    by apply (hit_not_called cache). }
  assert (∀ r, r ∈ rs → (worth_caching r = true ↔ cr_error r = None)) as Hworth.
  { intros r Hr. destruct (Hcall r Hr) as (m & _ & Hm & _).
    unfold call_of in Hm. by apply worth_caching_call in Hm. }
  assert (∀ m, m ∈ needs_call cache'
               ↔ m ∈ model_map
                 ∧ ∃ r, r ∈ rs ∧ cr_name r = m.1 ∧ is_Some (cr_error r)) as Hneeds.
  { intros m. rewrite elem_of_needs_call. split.
    - intros [Hmiss Hm]. split; [done|].
      destruct (Hsort m Hm) as [Hmiss0|[Hh _]].
      + assert (m.1 ∈ cr_name <$> rs) as Hin.
        { rewrite Hperm. apply list_elem_of_fmap. exists m. split; [done|].
          by apply elem_of_needs_call. }
        apply list_elem_of_fmap in Hin as (r & Hname & Hr).
        exists r. split; [done|]. split; [done|].
        destruct (cr_error r) as [e|] eqn:He; [by exists e|].
        exfalso. apply (Hworth r Hr) in He.
        pose proof (Hown r Hr) as Hc. rewrite He, <- Hname in Hc.
        pose proof (cache_entry_is_hit cache' m.1 r Hc He) as Hh.
        by rewrite (hit_not_miss _ _ Hh) in Hmiss.
      + destruct (cached_lookup cache cache' m.1 (Hkeep _ Hh)) as [_ Heq].
        by rewrite Heq, (hit_not_miss _ _ Hh) in Hmiss.
    - intros (Hm & r & Hr & Hname & He). split; [|done].
      assert (worth_caching r = false) as Hw.
      { destruct (worth_caching r) eqn:W; [|done].
        apply (Hworth r Hr) in W. rewrite W in He. by destruct He. }
      pose proof (Hown r Hr) as Hc. rewrite Hw, Hname in Hc.
      destruct (cached_lookup cache cache' m.1 Hc) as [_ ->].
      destruct (Hcall r Hr) as (m0 & Hm0 & _ & Hn0).
      apply elem_of_needs_call in Hm0 as [Hmiss _]. by rewrite <- Hname, Hn0. }
  exists cache'. split; [done|]. split; [done|].
  split; [|split; [|split]].
  - intros n Hn. pose proof Hn as [Hh Hm]%elem_of_hits.
    split; [|by apply Hkeep]. apply elem_of_hits. split; [|done].
    by destruct (cached_lookup cache cache' n (Hkeep _ Hh)) as [-> _].
  - intros r Hr He. apply (Hworth r Hr) in He.
    pose proof (Hown r Hr) as Hc. rewrite He in Hc. split; [|done].
    apply elem_of_hits. split; [by apply (cache_entry_is_hit cache' _ r)|].
    destruct (Hcall r Hr) as (m & Hm & _ & ->).
    apply elem_of_needs_call in Hm as [_ Hm]. apply list_elem_of_fmap. by exists m.
  - intros n Hn. apply foldl_record_cache_fresh. intros Hin. apply Hn.
    apply Hnames. apply list_elem_of_fmap in Hin as (r & -> & Hr).
    exists (result_of r). by apply foldl_record_result_own.
  - intros Hgood.
    assert (needs_call cache' = []) as Hnone.
    { apply elem_of_nil_inv. intros m (_ & r & Hr & _ & He)%Hneeds.
      rewrite (Hgood r Hr) in He. by destruct He. }
    split; [done|]. intros w' log'. unfold log'.
    destruct (run_kinds w' _ cache' Hload) as (_ & Hsub & (ms & Hms & Hcol) & _).
    rewrite Hnone in Hsub, Hms.
    split; [by destruct Hsub|]. split.
    + assert (ms = []) as ->.
      { destruct ms as [|m ms]; [done|].
        assert (m ∈ as_completed w' []) as Hin by (apply Hms, list_elem_of_here).
        rewrite (as_completed_perm w' []) in Hin. by apply elem_of_nil in Hin. }
      by apply Forall2_nil_inv_l in Hcol.
    + destruct (run_saves w' (store_after st (program w st)))
        as [Hs|(c & Hc & Hne & _)]; [done|].
      rewrite Hload in Hc. injection Hc as <-. done.
Qed.

Lemma next_run_calls_the_failures_witness :
  ∃ cache',
    load_cache first_store = Ok cache'
    ∧ needs_call cache' = []
    ∧ submitted (run_log (program failing_world first_store)) = [].
Proof.
  destruct (next_run_calls_the_failures example_world NoStore ∅)
    as (cache' & H1 & _ & _ & _ & _ & H6).
  - reflexivity.
  - by vm_compute.
  - exists cache'. split; [exact H1|].
    assert (∀ r, r ∈ collected (run_log (program example_world NoStore)) →
                 cr_error r = None) as Hgood.
    { apply Forall_forall. apply (bool_decide_unpack _). by vm_compute. }
    destruct (H6 Hgood) as [H7 H8].
    split; [exact H7|]. exact (proj1 (H8 failing_world)).
Defined.

(** ** Entries of the cache file in the report *)

Lemma hit_entry cache name d svg :
  cache !! name = Some (VDict d) →
  dict_get (cps "svg") d = Some svg →
  truthy svg = true →
  is_hit cache name = true
  ∧ hit_value cache name
    = (λ elapsed, (svg, elapsed, None)) <$> dict_get (cps "elapsed") d.
Proof.
  intros E Hs Ht. unfold is_hit, hit_value, cached, cached_result. rewrite E.
  cbn [get_method getitem mbind outcome_bind]. rewrite Hs.
  cbn [default id mbind outcome_bind].
  rewrite Ht. split; [done|].
  by destruct (dict_get (cps "elapsed") d).
Qed.

(** A model taken from the cache.  Its card shows what the file holds:
    the stored [svg] in the output panel, never an error, and the stored
    [elapsed], which is the time of the call that was cached and not of
    this run.  Its line in the summary says OK with the same time, and no
    call is made for it. *)
Theorem cached_entry_is_shown_as_stored w st cache doc m d svg :
  load_cache st = Ok cache →
  reports (run_log (program w st)) = [doc] →
  m ∈ model_map →
  cache !! m.1 = Some (VDict d) →
  dict_get (cps "svg") d = Some svg →
  truthy svg = true →
  ∃ elapsed c,
    dict_get (cps "elapsed") d = Some elapsed
    ∧ c ∈ cards doc
    ∧ card_name c = m.1
    ∧ card_panel c = SvgPanel svg
    ∧ card_time c = elapsed
    ∧ StatusLine m.1 elapsed StatusOK ∈ run_log (program w st)
    ∧ (m ∉ submitted (run_log (program w st)))
    ∧ (∀ r, r ∈ collected (run_log (program w st)) → cr_name r ≠ m.1).
Proof.
  intros Hl Hrep Hm E Hs Ht.
  destruct (run_ends w st) as (cache0 & results0 & rs & doc' & Hl' & _ & Hfrom
                               & Hsort & Hrs & Hperm & Hb & Hwr & Hall & Hnames & Hlog).
  { right. by rewrite Hrep. }
  rewrite Hl in Hl'. injection Hl' as <-.
  set (merged := foldl record_result results0 rs) in *.
  assert (run_log (program w st) = (script w st).2) as Hrun by reflexivity.
  rewrite Hlog in Hrun. cbn [snd] in Hrun.
  destruct (ended_log_kinds cache rs doc' (success_count merged) (size merged)
              merged) as (_ & K2 & K3 & _ & K5).
  rewrite <- Hrun in K2, K3, K5. rewrite Hrep in K5. injection K5 as <-.
  destruct (hit_entry cache m.1 d svg E Hs Ht) as [Hh Hv].
  destruct (Hsort m Hm) as [Hmiss|[_ [r0 Hr0]]];
    [by rewrite (hit_not_miss _ _ Hh) in Hmiss|].
  rewrite Hv in Hr0.
  destruct (dict_get (cps "elapsed") d) as [elapsed|] eqn:He; [|done].
  injection Hr0 as <-. cbn [fmap option_fmap option_map] in Hv.
  assert (merged !! m.1 = Some (svg, elapsed, None)) as Hmerged.
  { unfold merged.
    rewrite foldl_record_result_other by by apply (hit_not_called cache).
    rewrite Hfrom. rewrite decide_True; [done|].
    apply elem_of_hits. split; [done|]. apply list_elem_of_fmap. by exists m. }
  assert (m.1 ∈ model_map.*1) as Hname
    by (apply list_elem_of_fmap; by exists m).
  pose proof Hb as (Hsec & _ & _)%build_html_ok.
  pose proof (sections_card_names _ _ _ _ Hsec) as Hcn.
  pose proof (sections_cards_ok _ _ _ _ Hsec) as Hco.
  fold (cards doc) in Hcn, Hco.
  assert (m.1 ∈ card_name <$> cards doc) as Hin.
  { rewrite Hcn. apply list_elem_of_filter. split; [by rewrite Hmerged|].
    by apply model_in_category. }
  apply list_elem_of_fmap in Hin as (c & Hc & Hin).
  rewrite Forall_forall in Hco. destruct (Hco c Hin) as (r' & Hr' & Hcard).
  rewrite <- Hc, Hmerged in Hr'. injection Hr' as <-.
  apply card_of_ok in Hcard as (_ & Hpanel & _ & Htime).
  apply format_1f_ok in Htime.
  exists elapsed, c.
  split; [done|]. split; [done|]. split; [done|]. split; [done|].
  split; [done|]. split; [|split].
  - rewrite Hrun, !elem_of_app. do 4 right. do 2 apply list_elem_of_further.
    apply (summary_lines_elem merged m.1 m.2 (svg, elapsed, None)); [|done].
    by destruct m.
  - rewrite K2. intros [Hmiss _]%elem_of_needs_call.
    by rewrite (hit_not_miss _ _ Hh) in Hmiss.
  - rewrite K3. intros r Hr Heq.
    apply (hit_not_called cache rs m.1 Hperm Hh).
    rewrite <- Heq. apply list_elem_of_fmap. by exists r.
Qed.

Lemma cached_entry_is_shown_as_stored_witness :
  ∃ doc c,
    reports (run_log (program example_world (Stored odd_cache))) = [doc]
    ∧ c ∈ cards doc
    ∧ card_name c = cps "GPT-5"
    ∧ card_panel c = SvgPanel (VInt 1)
    ∧ card_time c = VFloat 2%float.
Proof.
  destruct (reports (run_log (program example_world (Stored odd_cache))))
    as [|doc [|]] eqn:E;
    [vm_compute in E; discriminate E| |vm_compute in E; discriminate E].
  destruct (cached_entry_is_shown_as_stored example_world (Stored odd_cache)
              odd_cache doc (cps "GPT-5", cps "openai/gpt-5")
              [(cps "svg", VInt 1); (cps "elapsed", VFloat 2%float)] (VInt 1))
    as (elapsed & c & H1 & H2 & H3 & H4 & H5 & _).
  - reflexivity.
  - exact E.
  - apply (bool_decide_unpack _). by vm_compute.
  - by vm_compute.
  - reflexivity.
  - reflexivity.
  - exists doc, c. split; [reflexivity|]. split; [exact H2|]. split; [exact H3|].
    split; [exact H4|]. rewrite H5. by injection H1 as <-.
Defined.

(** ** Entries of the cache file that stop a run *)

Lemma unreadable_not_sortable cache name entry :
  cache !! name = Some entry →
  (∀ d, entry ≠ VDict d)
  ∨ (∃ d, entry = VDict d
          ∧ truthy (default VNone (dict_get (cps "svg") d)) = true
          ∧ dict_get (cps "elapsed") d = None) →
  ¬ sortable cache name.
Proof.
  intros E H. unfold sortable, is_miss, is_hit, hit_value, cached, cached_result.
  rewrite E. destruct H as [Hd|(d & -> & Ht & He)].
  - destruct entry as [| | | | | |d]; try by intros [|[? _]].
    by destruct (Hd d).
  - cbn [get_method getitem mbind outcome_bind]. rewrite Ht, He.
    intros [|[_ [r Hr]]]; [done|].
    by destruct (dict_get (cps "svg") d).
Qed.

(** An entry that lines 315-317 cannot read, under the name of a model of
    the table: it is no object ([.get] is missing), or its [svg] counts as
    present and it has no [elapsed].  The run ends in the sorting loop with
    status 1, before any call is submitted: nothing is collected, nothing is
    saved, no report is written, and the cache file stays as it is. *)
Theorem unreadable_entry_stops_the_run w st cache m entry :
  load_cache st = Ok cache →
  m ∈ model_map →
  cache !! m.1 = Some entry →
  (∀ d, entry ≠ VDict d)
  ∨ (∃ d, entry = VDict d
          ∧ truthy (default VNone (dict_get (cps "svg") d)) = true
          ∧ dict_get (cps "elapsed") d = None) →
  run_exit (program w st) = 1%Z
  ∧ submitted (run_log (program w st)) = []
  ∧ collected (run_log (program w st)) = []
  ∧ saved_caches (run_log (program w st)) = []
  ∧ reports (run_log (program w st)) = []
  ∧ store_after st (program w st) = st.
Proof.
  intros Hl Hm E Hbad.
  pose proof (unreadable_not_sortable cache m.1 entry E Hbad) as Hno.
  assert (∃ e used, script w st = (Raise e, UsedCache <$> used))
    as (e & used & S).
  { destruct (script_cases w st)
      as [(e & _ & S)|[(key & e & _ & _ & S)|(key & cache' & _ & Hl' & S)]].
    - by exists e, [].
    - by exists e, [].
    - rewrite Hl in Hl'. injection Hl' as <-.
      destruct (sort_models cache) as [[sorted|e] evs0] eqn:Hsort.
      + destruct Hno. by apply (sort_models_sortable _ _ _ Hsort).
      + rewrite (main_sort_raise w cache e evs0 Hsort) in S.
        unfold sort_models in Hsort.
        apply sort_loop in Hsort as (used & -> & _). by exists e, used. }
  destruct (only_used used) as (_ & U2 & U3 & U4 & U5).
  unfold store_after, program. cbn [run_log run_exit]. rewrite S. cbn [fst snd].
  by rewrite U2, U3, U4, U5.
Qed.

Lemma unreadable_entry_stops_the_run_witness :
  run_exit (program example_world (Stored flat_cache)) = 1%Z
  ∧ submitted (run_log (program example_world (Stored flat_cache))) = []
  ∧ reports (run_log (program example_world (Stored flat_cache))) = [].
Proof.
  destruct (unreadable_entry_stops_the_run example_world (Stored flat_cache)
              flat_cache (cps "GPT-5", cps "openai/gpt-5")
              (VStr (cps "<svg></svg>")))
    as (H1 & H2 & _ & _ & H5 & _).
  - reflexivity.
  - apply (bool_decide_unpack _). by vm_compute.
  - by vm_compute.
  - left. intros d. discriminate.
  - split; [exact H1|]. split; [exact H2|exact H5].
Defined.

(** An [elapsed] that cannot be printed (a text, a list, [null], an
    integer beyond the floats) in an
    entry that is taken from the cache.  Nothing looks at it before line
    184, so the run makes all its calls, collects them and saves the cache;
    then [build_html] raises, and the script ends with status 1 without a
    report and without a summary. *)
Theorem unprintable_elapsed_stops_the_report
    w st key cache m d svg elapsed e :
  API_KEY w = Ok key →
  load_cache st = Ok cache →
  (∀ m', m' ∈ model_map → sortable cache m'.1) →
  all_return w cache →
  m ∈ model_map →
  cache !! m.1 = Some (VDict d) →
  dict_get (cps "svg") d = Some svg →
  truthy svg = true →
  dict_get (cps "elapsed") d = Some elapsed →
  format_1f elapsed = Raise e →
  run_exit (program w st) = 1%Z
  ∧ reports (run_log (program w st)) = []
  ∧ status_names (run_log (program w st)) = []
  ∧ submitted (run_log (program w st)) = needs_call cache
  ∧ collected (run_log (program w st)) ≡ₚ table_results w cache
  ∧ saved_caches (run_log (program w st))
    = saved_caches (save_events cache (table_results w cache))
  ∧ (needs_call cache ≠ [] →
     store_after st (program w st)
     = Stored (foldl record_cache cache (table_results w cache))).
Proof.
  intros Hk Hl Hsortable Hret Hm E Hs Ht He Hf.
  destruct (hit_entry cache m.1 d svg E Hs Ht) as [Hh Hv].
  rewrite He in Hv. cbn [fmap option_fmap option_map] in Hv.
  destruct (run_apart w st key cache Hk Hl Hsortable)
    as (results0 & Hfrom & [(Hno & _)|(_ & X0 & X1 & X2)]); [done|].
  set (merged := foldl record_result results0 (table_results w cache)) in *.
  assert (merged !! m.1 = Some (svg, elapsed, None)) as Hmerged.
  { unfold merged. rewrite foldl_record_result_other.
    - rewrite Hfrom. rewrite decide_True; [done|].
      apply elem_of_hits. split; [done|]. apply list_elem_of_fmap. by exists m.
    - apply (hit_not_called cache); [|done].
      by rewrite (calls_names w _ _ (table_results_calls w cache Hret)). }
  destruct (wrap_up w merged) as [o evs_w] eqn:Hw.
  apply wrap_up_cases in Hw
    as [(e' & -> & -> & _)|(doc & lines & Hb & _)].
  2:{ exfalso.
      destruct (built_printable merged model_dates doc m.1
                  (svg, elapsed, None) Hb) as [t Hp];
        [|exact Hmerged|].
      - apply model_in_category, list_elem_of_fmap. by exists m.
      - unfold res_elapsed in Hp. cbn [fst snd] in Hp. congruence. }
  cbn [fst snd] in X1, X2. rewrite app_nil_r in X2.
  destruct (apart_kinds (run_log (program w st))) as (_ & K2 & K3 & K4 & K5).
  destruct (only_used (hits cache)) as (_ & U2 & _ & U4 & U5).
  destruct (only_submitted (needs_call cache)) as (_ & S2 & _ & S4 & S5).
  fold (submit_events cache) in S2, S4, S5.
  destruct (save_events_quiet cache (table_results w cache)) as (_ & V2 & _ & V5).
  destruct (quiet_status_names cache (table_results w cache))
    as (Q1 & Q2 & _ & Q4).
  assert (saved_caches (run_log (program w st))
          = saved_caches (save_events cache (table_results w cache))) as Hsaved.
  { rewrite <- K3, X2, !saved_caches_app, U4, S4. done. }
  split; [done|].
  split; [by rewrite <- K4, X2, !reports_app, U5, S5, V5|].
  split; [by rewrite <- K5, X2, !status_names_app, Q1, Q2, Q4|].
  split; [by rewrite <- K2, X2, !submitted_app, U2, S2, V2, app_nil_r|].
  split; [done|]. split; [done|].
  intros Hne. unfold store_after. rewrite Hsaved. unfold save_events.
  by destruct (needs_call cache).
Qed.

Lemma unprintable_elapsed_stops_the_report_witness :
  run_exit (program example_world (Stored mistyped_cache)) = 1%Z
  ∧ reports (run_log (program example_world (Stored mistyped_cache))) = []
  ∧ length (submitted (run_log (program example_world (Stored mistyped_cache))))
    = 35%nat
  ∧ length (saved_caches
              (run_log (program example_world (Stored mistyped_cache))))
    = 1%nat.
Proof.
  destruct (unprintable_elapsed_stops_the_report example_world
              (Stored mistyped_cache) (cps "sk-test") mistyped_cache
              (cps "GPT-5", cps "openai/gpt-5")
              [(cps "svg", VStr (cps "<svg></svg>"));
               (cps "elapsed", VStr (cps "3.2"))]
              (VStr (cps "<svg></svg>")) (VStr (cps "3.2")) ValueError)
    as (H1 & H2 & _ & H4 & _ & H6 & _).
  - reflexivity.
  - reflexivity.
  - apply Forall_forall. unfold sortable.
    apply (bool_decide_unpack _). by vm_compute.
  - intros m _. eexists. reflexivity.
  - apply (bool_decide_unpack _). by vm_compute.
  - by vm_compute.
  - reflexivity.
  - reflexivity.
  - reflexivity.
  - reflexivity.
  - split; [exact H1|]. split; [exact H2|].
    split; [rewrite H4|rewrite H6]; by vm_compute.
Defined.

(** ** Text that the report file cannot take *)

Lemma legible_world w w' r :
  shown w' = shown w → file_has w' = file_has w → legible w' r ↔ legible w r.
Proof.
  intros Hs Hf. unfold legible, encodes, panel_text, encodable.
  by rewrite Hs, Hf.
Qed.

(** When every call returns, line 330 is reached. *)
Lemma saved_after_calls w st key cache :
  API_KEY w = Ok key →
  load_cache st = Ok cache →
  (∀ m, m ∈ model_map → sortable cache m.1) →
  all_return w cache →
  saved_caches (run_log (program w st))
  = saved_caches (save_events cache (table_results w cache)).
Proof.
  intros Hk Hl Hsortable Hret.
  destruct (run_apart w st key cache Hk Hl Hsortable)
    as (results0 & Hfrom & [(Hno & _)|(_ & _ & _ & X2)]); [done|].
  destruct (wrap_up w (foldl record_result results0 (table_results w cache)))
    as [o evs_w] eqn:Hw.
  destruct (wrap_up_quiet _ _ _ _ Hw) as (_ & _ & _ & W4).
  destruct (apart_kinds (run_log (program w st))) as (_ & _ & K3 & _).
  destruct (only_used (hits cache)) as (_ & _ & _ & U4 & _).
  destruct (only_submitted (needs_call cache)) as (_ & _ & _ & S4 & _).
  fold (submit_events cache) in S4. cbn [snd] in X2.
  by rewrite <- K3, X2, !saved_caches_app, U4, S4, W4, app_nil_r.
Qed.

Lemma table_results_elem w cache m r :
  m ∈ needs_call cache → call_of w m = Ok r → r ∈ table_results w cache.
Proof.
  intros Hm Hc. unfold table_results. apply list_elem_of_omap.
  exists m. split; [done|]. by rewrite Hc.
Qed.

(** A page that cannot be written.  When the encoding of the report file
    lacks a code point of what the page is to show for a model (under
    UTF-8: a lone surrogate), in an entry taken from the cache or in the
    result of a call, nothing notices before line 338: the run makes all
    its calls, collects them and saves the cache; then [f.write] raises,
    unless [build_html] has raised before it, and the script ends with
    status 1, the page not written and the summary not printed. *)
Theorem unwritable_text_stops_the_report w st key cache n r :
  API_KEY w = Ok key →
  load_cache st = Ok cache →
  (∀ m, m ∈ model_map → sortable cache m.1) →
  all_return w cache →
  (n ∈ hits cache ∧ hit_value cache n = Some r)
  ∨ (∃ m cr, m ∈ needs_call cache ∧ call_of w m = Ok cr
             ∧ n = m.1 ∧ r = result_of cr) →
  ¬ legible w r →
  run_exit (program w st) = 1%Z
  ∧ reports (run_log (program w st)) = []
  ∧ status_names (run_log (program w st)) = []
  ∧ submitted (run_log (program w st)) = needs_call cache
  ∧ collected (run_log (program w st)) ≡ₚ table_results w cache
  ∧ saved_caches (run_log (program w st))
    = saved_caches (save_events cache (table_results w cache))
  ∧ (needs_call cache ≠ [] →
     store_after st (program w st)
     = Stored (foldl record_cache cache (table_results w cache))).
Proof.
  intros Hk Hl Hsortable Hret Hn Hbad.
  pose proof (saved_after_calls w st key cache Hk Hl Hsortable Hret) as Hsaved.
  destruct (run_apart w st key cache Hk Hl Hsortable)
    as (results0 & Hfrom & [(Hno & _)|(_ & X0 & X1 & X2)]); [done|].
  set (merged := foldl record_result results0 (table_results w cache)) in *.
  assert (merged !! n = Some r) as Hmerged.
  { destruct Hn as [[Hh Hv]|(m & cr & Hm & Hc & -> & ->)].
    - unfold merged. rewrite foldl_record_result_other.
      + rewrite Hfrom. by rewrite decide_True.
      + apply elem_of_hits in Hh as [Hh _]. apply (hit_not_called cache); [|done].
        by rewrite (calls_names w _ _ (table_results_calls w cache Hret)).
    - pose proof Hc as Hc'. unfold call_of in Hc'.
      apply call_model_ok in Hc' as [<- _].
      apply foldl_record_result_own; [by apply table_results_NoDup|].
      by apply (table_results_elem w cache m). }
  assert (n ∈ category_names CATEGORIES) as Hcat.
  { apply model_in_category. destruct Hn as [[Hh _]|(m & cr & Hm & _ & -> & _)].
    - by apply elem_of_hits in Hh as [_ ?].
    - apply elem_of_needs_call in Hm as [_ Hm]. apply list_elem_of_fmap.
      by exists m. }
  destruct (wrap_up w merged) as [o evs_w] eqn:Hw.
  apply wrap_up_cases in Hw
    as [(e' & -> & -> & _)|(doc & lines & Hb & Hwr & _)].
  2:{ exfalso. apply Hbad.
      by apply (proj1 (write_report_ok w merged doc Hb) Hwr n r). }
  cbn [fst snd] in X1, X2. rewrite app_nil_r in X2.
  destruct (apart_kinds (run_log (program w st))) as (_ & K2 & K3 & K4 & K5).
  destruct (only_used (hits cache)) as (_ & U2 & _ & U4 & U5).
  destruct (only_submitted (needs_call cache)) as (_ & S2 & _ & S4 & S5).
  fold (submit_events cache) in S2, S4, S5.
  destruct (save_events_quiet cache (table_results w cache)) as (_ & V2 & _ & V5).
  destruct (quiet_status_names cache (table_results w cache))
    as (Q1 & Q2 & _ & Q4).
  split; [done|].
  split; [by rewrite <- K4, X2, !reports_app, U5, S5, V5|].
  split; [by rewrite <- K5, X2, !status_names_app, Q1, Q2, Q4|].
  split; [by rewrite <- K2, X2, !submitted_app, U2, S2, V2, app_nil_r|].
  split; [done|]. split; [done|].
  intros Hne. unfold store_after. rewrite Hsaved. unfold save_events.
  by destruct (needs_call cache).
Qed.

Lemma unwritable_text_stops_the_report_witness :
  run_exit (program surrogate_world NoStore) = 1%Z
  ∧ reports (run_log (program surrogate_world NoStore)) = []
  ∧ length (submitted (run_log (program surrogate_world NoStore))) = 36%nat
  ∧ length (saved_caches (run_log (program surrogate_world NoStore))) = 1%nat.
Proof.
  destruct (unwritable_text_stops_the_report surrogate_world NoStore
              (cps "sk-test") ∅ (cps "GPT-5")
              (VStr (cps "<svg>" ++ [55296] ++ cps "</svg>"),
               VFloat (5 - 2)%float, None))
    as (H1 & H2 & _ & H4 & _ & H6 & _).
  - reflexivity.
  - reflexivity.
  - intros m _. left. unfold is_miss, cached. by rewrite lookup_empty.
  - intros m _. unfold call_of, call_model, surrogate_world. cbn [net wording].
    destruct (bool_decide (m.1 = cps "GPT-5")); eexists; reflexivity.
  - right. exists (cps "GPT-5", cps "openai/gpt-5").
    exists {| cr_name := cps "GPT-5";
              cr_svg := Some (cps "<svg>" ++ [55296] ++ cps "</svg>");
              cr_elapsed := (5 - 2)%float; cr_error := None |}.
    split; [apply (bool_decide_unpack _); by vm_compute|].
    split; [reflexivity|]. split; reflexivity.
  - intros H. discriminate H.
  - split; [exact H1|]. split; [exact H2|].
    split; [rewrite H4|rewrite H6]; by vm_compute.
Defined.

(** An output that cannot be written stays.  Line 330 saves the cache
    before line 338 writes the page, so the output of a call that the
    report file cannot take is in the cache file when the script ends with
    status 1; and the next run, whatever its network answers, takes the
    output from the cache and ends at line 338 like the first, as long as
    the file encoding is the same. *)
Theorem unwritable_output_stays_in_the_cache w w' st key cache m cr :
  API_KEY w = Ok key →
  load_cache st = Ok cache →
  (∀ m', m' ∈ model_map → sortable cache m'.1) →
  all_return w cache →
  m ∈ needs_call cache →
  call_of w m = Ok cr →
  cr_error cr = None →
  ¬ legible w (result_of cr) →
  shown w' = shown w →
  file_has w' = file_has w →
  stored_entry (store_after st (program w st)) m.1 = Some (cache_entry cr)
  ∧ m.1 ∈ hits (foldl record_cache cache (table_results w cache))
  ∧ run_exit (program w' (store_after st (program w st))) = 1%Z
  ∧ reports (run_log (program w' (store_after st (program w st)))) = [].
Proof.
  intros Hk Hl Hsortable Hret Hm Hc He Hbad Hs Hf.
  pose proof (saved_after_calls w st key cache Hk Hl Hsortable Hret) as Hsaved.
  set (cache' := foldl record_cache cache (table_results w cache)).
  assert (store_after st (program w st) = Stored cache') as Hst.
  { unfold store_after. rewrite Hsaved. unfold save_events.
    destruct (needs_call cache) eqn:E; [by apply elem_of_nil in Hm|done]. }
  pose proof Hc as Hc'. unfold call_of in Hc'.
  pose proof (call_model_ok _ _ _ _ _ Hc') as [Hname _].
  pose proof (proj2 (worth_caching_call _ _ _ _ _ Hc') He) as Hworth.
  assert (cache' !! m.1 = Some (cache_entry cr)) as Hentry.
  { unfold cache'. rewrite <- Hname.
    rewrite (foldl_record_cache_own _ cache cr (table_results_NoDup w cache Hret)
               (table_results_elem w cache m cr Hm Hc)).
    by rewrite Hworth. }
  assert (truthy (opt_value (cr_svg cr)) = true) as Htruthy.
  { unfold worth_caching in Hworth. by apply andb_prop in Hworth as [? _]. }
  destruct (hit_entry cache' m.1
              [(cps "svg", opt_value (cr_svg cr));
               (cps "elapsed", VFloat (cr_elapsed cr))]
              (opt_value (cr_svg cr)) Hentry eq_refl Htruthy) as [Hhit Hval].
  change (hit_value cache' m.1
          = Some (opt_value (cr_svg cr), VFloat (cr_elapsed cr), None)) in Hval.
  assert (m.1 ∈ hits cache') as Hin.
  { apply elem_of_hits. split; [done|].
    apply elem_of_needs_call in Hm as [_ Hm]. apply list_elem_of_fmap.
    by exists m. }
  rewrite Hst. cbn [stored_entry].
  split; [done|]. split; [done|].
  assert (¬ (run_exit (program w' (Stored cache')) = 0%Z
             ∨ reports (run_log (program w' (Stored cache'))) ≠ [])) as Hends.
  { intros H.
    destruct (run_ends_legible w' (Stored cache') cache' H eq_refl) as [Hleg _].
    apply Hbad, (legible_world w w' _ Hs Hf).
    unfold result_of. rewrite He. by apply (Hleg m.1). }
  split.
  - assert (run_exit (program w' (Stored cache')) = 0%Z
            ∨ run_exit (program w' (Stored cache')) = 1%Z)
      as [H|H]; [|by destruct Hends; left|done].
    unfold program. cbn [run_exit]. destruct (script w' (Stored cache')).1; auto.
  - destruct (reports (run_log (program w' (Stored cache')))) eqn:E; [done|].
    destruct Hends. right. by rewrite ?E.
Qed.

Lemma unwritable_output_stays_in_the_cache_witness :
  stored_entry (store_after NoStore (program surrogate_world NoStore))
    (cps "GPT-5")
  = Some (VDict [(cps "svg", VStr (cps "<svg>" ++ [55296] ++ cps "</svg>"));
                 (cps "elapsed", VFloat (5 - 2)%float)])
  ∧ run_exit (program example_world
                (store_after NoStore (program surrogate_world NoStore))) = 1%Z.
Proof.
  destruct (unwritable_output_stays_in_the_cache surrogate_world example_world
              NoStore (cps "sk-test") ∅ (cps "GPT-5", cps "openai/gpt-5")
              {| cr_name := cps "GPT-5";
                 cr_svg := Some (cps "<svg>" ++ [55296] ++ cps "</svg>");
                 cr_elapsed := (5 - 2)%float; cr_error := None |})
    as (H1 & _ & H3 & _).
  - reflexivity.
  - reflexivity.
  - intros m _. left. unfold is_miss, cached. by rewrite lookup_empty.
  - intros m _. unfold call_of, call_model, surrogate_world. cbn [net wording].
    destruct (bool_decide (m.1 = cps "GPT-5")); eexists; reflexivity.
  - apply (bool_decide_unpack _). by vm_compute.
  - reflexivity.
  - reflexivity.
  - intros H. discriminate H.
  - reflexivity.
  - reflexivity.
  - split; [exact H1|exact H3].
Defined.
